(** * Keyserver search and retrieval engine (g10/keyserver.cpp)

    A shallow embedding of the keyserver code of NeoPG's legacy GnuPG
    tree: the retrieval screener, the KS_GET chunk planner and its
    driver, the colon-record parser, the selection prompt and the search
    line handler, followed by the properties established about them.

    Conventions.  C strings are values of [string]; a C string never
    holds a NUL character.  A [char *] that may be NULL is an
    [option string].  The C [int] is a [Z] kept in the 32-bit signed
    range by [to_int]; [u32] values are [Z]s in [0, 2^32).  Lengths and
    array indices are [nat]: the sizes involved are those of objects in
    memory, far below the range of [size_t].  Allocation is assumed to
    succeed, and log output is not part of the model. *)

From Stdlib Require Import ZArith List Bool Lia.
From Stdlib Require Import Strings.String Strings.Ascii Strings.Byte.
Import ListNotations.

Local Open Scope string_scope.
Local Open Scope list_scope.
Local Open Scope Z_scope.

(* ================================================================== *)
(** ** C library and common helpers *)
(* ================================================================== *)

Definition gpg_error_t := Z.

Definition GPG_ERR_GENERAL : gpg_error_t := 1.
Definition GPG_ERR_CANCELED : gpg_error_t := 99.
Definition GPG_ERR_UNSUPPORTED_PROTOCOL : gpg_error_t := 121.

(** Conversion of a mathematical integer to the C [int]: reduction into
    [-2^31, 2^31). *)
Definition to_int (v : Z) : Z := (v + 2 ^ 31) mod 2 ^ 32 - 2 ^ 31.

(** Conversion to [size_t] / [unsigned int] as done by the usual
    arithmetic conversions. *)
Definition to_size_t (v : Z) : Z := v mod 2 ^ 64.
Definition to_uint (v : Z) : Z := v mod 2 ^ 32.

Definition char_code (c : ascii) : nat := nat_of_ascii c.

(** [isspace] in the C locale: space, and HT LF VT FF CR. *)
Definition isspace (c : ascii) : bool :=
  let n := char_code c in
  (Nat.eqb n 32 || (Nat.leb 9 n && Nat.leb n 13))%bool.

Definition isdigit (c : ascii) : bool :=
  let n := char_code c in (Nat.leb 48 n && Nat.leb n 57)%bool.

Fixpoint skip_space (s : string) : string :=
  match s with
  | String c r => if isspace c then skip_space r else s
  | EmptyString => s
  end.

(** Value of the longest prefix of decimal digits, accumulated left to
    right. *)
Fixpoint digits_value (acc : Z) (s : string) : Z :=
  match s with
  | String c r =>
      if isdigit c
      then digits_value (10 * acc + Z.of_nat (char_code c - 48)) r
      else acc
  | EmptyString => acc
  end.

(** The digits expected after the optional sign: [None] when the
    first character is no digit. *)
Definition scan_digits (neg : bool) (s : string) : option Z :=
  match s with
  | String c _ =>
      if isdigit c
      then Some (if neg then - digits_value 0 s else digits_value 0 s)
      else None
  | EmptyString => None
  end.

(** The integer a decimal conversion ([strtol] with base 10) reads at
    the start of [s]: leading white space, an optional sign, digits.
    [None] when there is no digit to convert. *)
Definition scan_decimal (s : string) : option Z :=
  match skip_space s with
  | String c r =>
      if Ascii.eqb c "-" then scan_digits true r
      else if Ascii.eqb c "+" then scan_digits false r
      else scan_digits false (String c r)
  | EmptyString => None
  end.

(** The [long] that [strtol] returns for the number [v] it has read:
    [v] itself within the range of [long], which has 64 bits, and
    otherwise [LONG_MAX] or [LONG_MIN]. *)
Definition LONG_MAX : Z := 2 ^ 63 - 1.
Definition LONG_MIN : Z := - 2 ^ 63.

Definition strtol_value (v : Z) : Z :=
  if v >? LONG_MAX then LONG_MAX
  else if v <? LONG_MIN then LONG_MIN
  else v.

(** [atoi]: 0 when nothing converts.  The C library converts through
    [strtol] and returns its [long] as an [int]: a number beyond the
    range of [long] gives -1 or 0, the low 32 bits of [LONG_MAX] and
    [LONG_MIN].  For a number beyond the range of [int] the C standard
    leaves the result open; this is what the GNU C library does. *)
Definition atoi (s : string) : Z :=
  match scan_decimal s with
  | Some v => to_int (strtol_value v)
  | None => 0
  end.

(** [sscanf (s, "%d", &x)]: [Some x] when the call returns 1, [None]
    when it returns 0 or EOF and leaves [x] alone.  The number is
    converted by [strtol] and stored as an [int], as in [atoi]. *)
Definition sscanf_d (s : string) : option Z :=
  option_map (fun v => to_int (strtol_value v)) (scan_decimal s).

Definition ascii_toupper (c : ascii) : nat :=
  let n := char_code c in
  if (Nat.leb 97 n && Nat.leb n 122)%bool then (n - 32)%nat else n.

(** Modelled from the spec: [ascii_strcasecmp] is defined in
    common/stringhelp; the tag comparison is "case-insensitive".  The
    result is 0 exactly when the strings agree up to ASCII case,
    otherwise the difference of the first two characters that differ
    (end of string counting as 0). *)
Fixpoint ascii_strcasecmp (a b : string) : Z :=
  match a, b with
  | String x a', String y b' =>
      if Nat.eqb (ascii_toupper x) (ascii_toupper y)
      then ascii_strcasecmp a' b'
      else Z.of_nat (ascii_toupper x) - Z.of_nat (ascii_toupper y)
  | String x _, EmptyString => Z.of_nat (ascii_toupper x)
  | EmptyString, String y _ => - Z.of_nat (ascii_toupper y)
  | EmptyString, EmptyString => 0
  end.

(** Modelled from the spec: [ascii_strncasecmp], as above but over at
    most [n] characters. *)
Fixpoint ascii_strncasecmp (a b : string) (n : nat) : Z :=
  match n with
  | O => 0
  | S n' =>
      match a, b with
      | String x a', String y b' =>
          if Nat.eqb (ascii_toupper x) (ascii_toupper y)
          then ascii_strncasecmp a' b' n'
          else Z.of_nat (ascii_toupper x) - Z.of_nat (ascii_toupper y)
      | String x _, EmptyString => Z.of_nat (ascii_toupper x)
      | EmptyString, String y _ => - Z.of_nat (ascii_toupper y)
      | EmptyString, EmptyString => 0
      end
  end.

(** [line + n] for [n <= strlen (line)]. *)
Fixpoint str_drop (n : nat) (s : string) : string :=
  match n, s with
  | S n', String _ r => str_drop n' r
  | _, _ => s
  end.

Fixpoint str_take (n : nat) (s : string) : string :=
  match n, s with
  | S n', String c r => String c (str_take n' r)
  | _, _ => EmptyString
  end.

Fixpoint str_mem (c : ascii) (s : string) : bool :=
  match s with
  | String d r => (Ascii.eqb c d || str_mem c r)%bool
  | EmptyString => false
  end.

(** Modelled from the spec: [trim_trailing_ws] is defined in
    common/stringhelp.  It cuts the string at the start of its trailing
    run of blanks, tabs, carriage returns and line feeds. *)
Fixpoint trim_trailing_ws (s : string) : string :=
  match s with
  | EmptyString => EmptyString
  | String c r =>
      let r' := trim_trailing_ws r in
      if (str_mem c (String " " (String "009" (String "013" (String "010" EmptyString))))
          && String.eqb r' EmptyString)%bool
      then EmptyString
      else String c r'
  end.

(** The part of [s] before the first character of [delim], and what
    follows that character ([None] when no delimiter occurs). *)
Fixpoint split_at_delim (s delim : string) : string * option string :=
  match s with
  | EmptyString => (EmptyString, None)
  | String c r =>
      if str_mem c delim then (EmptyString, Some r)
      else let '(tok, rest) := split_at_delim r delim in (String c tok, rest)
  end.

(** Modelled from the spec: [gpg_strsep] is defined in common/; it
    is the [strsep] of the C library ("colon-delimited field",
    "split input on spaces/commas").  Given the current [*stringp] it
    returns the token (NULL when [*stringp] is NULL) and the updated
    [*stringp]. *)
Definition gpg_strsep (stringp : option string) (delim : string)
  : option string * option string :=
  match stringp with
  | None => (None, None)
  | Some s => let '(tok, rest) := split_at_delim s delim in (Some tok, rest)
  end.

Definition hexval (c : ascii) : option nat :=
  let n := char_code c in
  if (Nat.leb 48 n && Nat.leb n 57)%bool then Some (n - 48)%nat
  else if (Nat.leb 65 n && Nat.leb n 70)%bool then Some (10 + n - 65)%nat
  else if (Nat.leb 97 n && Nat.leb n 102)%bool then Some (10 + n - 97)%nat
  else None.

(** Modelled from the spec: [hextobyte] is defined in common/; it
    reads two hexadecimal digits ("percent-encoded") and yields the
    byte, or -1 when either character is no hexadecimal digit. *)
Definition hextobyte (c1 c2 : ascii) : Z :=
  match hexval c1, hexval c2 with
  | Some h, Some l => Z.of_nat (16 * h + l)
  | _, _ => -1
  end.

Definition hexdigit_upper (n : nat) : ascii :=
  match String.get n "0123456789ABCDEF" with
  | Some c => c
  | None => "?"%char
  end.

(** Modelled from the spec: [bin2hex] is defined in common/; it
    writes two upper-case hexadecimal digits per byte ("0x" + hex). *)
Fixpoint bin2hex (buf : list byte) : string :=
  match buf with
  | [] => EmptyString
  | b :: r =>
      let n := N.to_nat (Byte.to_N b) in
      String (hexdigit_upper (n / 16)) (String (hexdigit_upper (n mod 16)) (bin2hex r))
  end.

(** The [k] low hexadecimal digits of [v], most significant first. *)
Fixpoint hex_digits (k : nat) (v : Z) : string :=
  match k with
  | O => EmptyString
  | S k' =>
      (hex_digits k' (v / 16) ++ String (hexdigit_upper (Z.to_nat (v mod 16))) EmptyString)%string
  end.

(** [printf ("%08lX", (unsigned long) v)] for a [u32] [v]: exactly
    eight digits, since [v < 2^32]. *)
Definition fmt_08lX (v : Z) : string := hex_digits 8 (to_uint v).

(** The C-string view of a buffer: up to the first NUL. *)
Fixpoint c_str (s : string) : string :=
  match s with
  | EmptyString => EmptyString
  | String c r => if Ascii.eqb c zero then EmptyString else String c (c_str r)
  end.

(* ================================================================== *)
(** ** Data model *)
(* ================================================================== *)

(** [KEYDB_SEARCH_DESC]: the search mode with the member of the union
    [u] that the mode selects.  The constructors are the modes this
    file names; [KEYDB_SEARCH_MODE_OTHER] stands for the remaining
    modes of the enumeration (substring, mail address, ...), which the
    code here only ever tells apart from the named ones. *)
Inductive KEYDB_SEARCH_DESC : Type :=
| KEYDB_SEARCH_MODE_NONE
| KEYDB_SEARCH_MODE_EXACT (name : string)
| KEYDB_SEARCH_MODE_SHORT_KID (kid1 : Z)
| KEYDB_SEARCH_MODE_LONG_KID (kid0 kid1 : Z)
| KEYDB_SEARCH_MODE_FPR16 (fpr : list byte)
| KEYDB_SEARCH_MODE_FPR20 (fpr : list byte)
| KEYDB_SEARCH_MODE_FIRST
| KEYDB_SEARCH_MODE_NEXT
| KEYDB_SEARCH_MODE_OTHER (mode : Z) (name : string).

(** [desc.mode] as a truth value: [KEYDB_SEARCH_MODE_NONE] is 0. *)
Definition mode_set (d : KEYDB_SEARCH_DESC) : bool :=
  match d with
  | KEYDB_SEARCH_MODE_NONE => false
  | _ => true
  end.

(** The four modes that identify a key. *)
Definition is_key_id_mode (d : KEYDB_SEARCH_DESC) : bool :=
  match d with
  | KEYDB_SEARCH_MODE_SHORT_KID _
  | KEYDB_SEARCH_MODE_LONG_KID _ _
  | KEYDB_SEARCH_MODE_FPR16 _
  | KEYDB_SEARCH_MODE_FPR20 _ => true
  | _ => false
  end.

Record keyrec : Type := mk_keyrec {
  kr_desc : KEYDB_SEARCH_DESC;
  kr_createtime : Z;
  kr_expiretime : Z;
  kr_size : Z;
  kr_flags : Z;
  kr_type : Z;
  kr_uidbuf : string;
  kr_lines : Z
}.

(** [xmalloc_clear (sizeof (struct keyrec))] with an empty [uidbuf]. *)
Definition keyrec_clear : keyrec :=
  mk_keyrec KEYDB_SEARCH_MODE_NONE 0 0 0 0 0 EmptyString 0.

(** Packets of a keyblock.  A public key packet is represented by what
    the screener derives from it: the fingerprint written by
    [fingerprint_from_pk] (its length is [fpr_len]) and the two words
    of [keyid_from_pk]. *)
Inductive pkttype_t : Type :=
| PKT_PUBLIC_KEY
| PKT_PUBLIC_SUBKEY
| PKT_SECRET_KEY
| PKT_SECRET_SUBKEY
| PKT_OTHER (code : Z).

Record PKT_public_key : Type := mk_pk {
  pk_fingerprint : list byte;
  pk_keyid0 : Z;
  pk_keyid1 : Z
}.

Record packet : Type := mk_packet {
  pkttype : pkttype_t;
  pkt_public_key : PKT_public_key
}.

(** A keyblock is the chain of its nodes. *)
Definition kbnode_t := list packet.

Definition pkttype_eqb (a b : pkttype_t) : bool :=
  match a, b with
  | PKT_PUBLIC_KEY, PKT_PUBLIC_KEY
  | PKT_PUBLIC_SUBKEY, PKT_PUBLIC_SUBKEY
  | PKT_SECRET_KEY, PKT_SECRET_KEY
  | PKT_SECRET_SUBKEY, PKT_SECRET_SUBKEY => true
  | PKT_OTHER x, PKT_OTHER y => Z.eqb x y
  | _, _ => false
  end.

(** Modelled from the spec: [find_kbnode] is defined in g10/kbnode;
    it returns the first node of the chain whose packet has the
    given type ("bundle containing a secret-key packet"), or NULL. *)
Fixpoint find_kbnode (node : kbnode_t) (ty : pkttype_t) : option packet :=
  match node with
  | [] => None
  | p :: next => if pkttype_eqb (pkttype p) ty then Some p else find_kbnode next ty
  end.

Definition byte_list_eqb (a b : list byte) : bool :=
  if list_eq_dec Byte.byte_eq_dec a b then true else false.

(** [!memcmp (a, b, n)] on buffers holding at least [n] bytes. *)
Definition memcmp_eq (a b : list byte) (n : nat) : bool :=
  byte_list_eqb (firstn n a) (firstn n b).

(* ================================================================== *)
(** ** keyserver_retrieval_screener *)
(* ================================================================== *)

(** The verdict of the inner loop over the descriptions for one key
    packet: [true] when some [return 0] is reached. *)
Fixpoint screener_desc_loop (pk : PKT_public_key) (desc : list KEYDB_SEARCH_DESC) : bool :=
  match desc with
  | [] => false
  | d :: rest =>
      let fpr := pk_fingerprint pk in
      let fpr_len := List.length fpr in
      match d with
      | KEYDB_SEARCH_MODE_FPR20 dfpr =>
          if (Nat.eqb fpr_len 20 && memcmp_eq fpr dfpr 20)%bool then true
          else screener_desc_loop pk rest
      | KEYDB_SEARCH_MODE_FPR16 dfpr =>
          if (Nat.eqb fpr_len 16 && memcmp_eq fpr dfpr 16)%bool then true
          else screener_desc_loop pk rest
      | KEYDB_SEARCH_MODE_LONG_KID kid0 kid1 =>
          if (Z.eqb (pk_keyid0 pk) kid0 && Z.eqb (pk_keyid1 pk) kid1)%bool then true
          else screener_desc_loop pk rest
      | KEYDB_SEARCH_MODE_SHORT_KID kid1 =>
          if Z.eqb (pk_keyid1 pk) kid1 then true
          else screener_desc_loop pk rest
      | _ => true
      end
  end.

(** The outer loop over the nodes of the keyblock. *)
Fixpoint screener_node_loop (node : kbnode_t) (desc : list KEYDB_SEARCH_DESC) : bool :=
  match node with
  | [] => false
  | p :: next =>
      match pkttype p with
      | PKT_PUBLIC_KEY | PKT_PUBLIC_SUBKEY =>
          if screener_desc_loop (pkt_public_key p) desc then true
          else screener_node_loop next desc
      | _ => screener_node_loop next desc
      end
  end.

(** [keyserver_retrieval_screener (keyblock, {desc, ndesc})]: 0 when the
    key shall be imported. *)
Definition keyserver_retrieval_screener
  (keyblock : kbnode_t) (desc : list KEYDB_SEARCH_DESC) : gpg_error_t :=
  match find_kbnode keyblock PKT_SECRET_KEY with
  | Some _ => GPG_ERR_GENERAL
  | None =>
      match desc with
      | [] => 0
      | _ => if screener_node_loop keyblock desc then 0 else GPG_ERR_GENERAL
      end
  end.

(* ================================================================== *)
(** ** Collaborators outside this file *)
(* ================================================================== *)

(** The members of the global [opt] that the code below reads. *)
Record options : Type := mk_options {
  screen_columns : Z;
  screen_lines : Z;
  with_colons : bool;
  batch : bool
}.

(** What the keyserver code takes from the rest of the program.
    [classify_user_id tok] gives the error code and the description it
    fills in; [utf8_to_native] converts a buffer of given length to the
    native character set; [make_timestamp] is the current time. *)
Class Collaborators : Type := {
  classify_user_id : string -> gpg_error_t * KEYDB_SEARCH_DESC;
  utf8_to_native : string -> string;
  make_timestamp : Z;
  opt : options
}.

(* ================================================================== *)
(** ** parse_keyrec *)
(* ================================================================== *)

(** The function-local [static struct keyrec *work]: NULL, pointing to
    a record, or left pointing to a record that has been released. *)
Inductive work_state : Type :=
| WorkNull
| WorkAt (k : keyrec)
| WorkFreed.

Definition set_desc (k : keyrec) (d : KEYDB_SEARCH_DESC) : keyrec :=
  mk_keyrec d (kr_createtime k) (kr_expiretime k) (kr_size k) (kr_flags k)
            (kr_type k) (kr_uidbuf k) (kr_lines k).
Definition set_createtime (k : keyrec) (v : Z) : keyrec :=
  mk_keyrec (kr_desc k) v (kr_expiretime k) (kr_size k) (kr_flags k)
            (kr_type k) (kr_uidbuf k) (kr_lines k).
Definition set_expiretime (k : keyrec) (v : Z) : keyrec :=
  mk_keyrec (kr_desc k) (kr_createtime k) v (kr_size k) (kr_flags k)
            (kr_type k) (kr_uidbuf k) (kr_lines k).
Definition set_size (k : keyrec) (v : Z) : keyrec :=
  mk_keyrec (kr_desc k) (kr_createtime k) (kr_expiretime k) v (kr_flags k)
            (kr_type k) (kr_uidbuf k) (kr_lines k).
Definition set_flags (k : keyrec) (v : Z) : keyrec :=
  mk_keyrec (kr_desc k) (kr_createtime k) (kr_expiretime k) (kr_size k) v
            (kr_type k) (kr_uidbuf k) (kr_lines k).
Definition set_type (k : keyrec) (v : Z) : keyrec :=
  mk_keyrec (kr_desc k) (kr_createtime k) (kr_expiretime k) (kr_size k) (kr_flags k)
            v (kr_uidbuf k) (kr_lines k).
Definition set_uidbuf (k : keyrec) (v : string) : keyrec :=
  mk_keyrec (kr_desc k) (kr_createtime k) (kr_expiretime k) (kr_size k) (kr_flags k)
            (kr_type k) v (kr_lines k).
(** [work->lines++] on an [unsigned int]. *)
Definition incr_lines (k : keyrec) : keyrec :=
  mk_keyrec (kr_desc k) (kr_createtime k) (kr_expiretime k) (kr_size k) (kr_flags k)
            (kr_type k) (kr_uidbuf k) (to_uint (kr_lines k + 1)).

(** The loop over the flag characters of a pub line. *)
Fixpoint parse_flag_chars (tok : string) (flags : Z) : Z :=
  match tok with
  | EmptyString => flags
  | String c r =>
      parse_flag_chars r
        (match c with
         | "r"%char | "R"%char => Z.lor flags 1
         | "d"%char | "D"%char => Z.lor flags 2
         | "e"%char | "E"%char => Z.lor flags 4
         | _ => flags
         end)
  end.

(** [(c = hextobyte (&tok[1])) == -1 ? '?' : c] stored into a [char]. *)
Definition decoded_char (h l : ascii) : ascii :=
  let c := hextobyte h l in
  if Z.eqb c (-1) then "?"%char else ascii_of_nat (Z.to_nat c).

(** The in-place de-%-encoding loop.  The write index never passes the
    read pointer, so the characters read are those of the original
    token and the buffer [userid[0..i-1]] is the value below. *)
Fixpoint percent_decode (tok : string) : string :=
  match tok with
  | EmptyString => EmptyString
  | String c r =>
      match r with
      | String h (String l r') =>
          if Ascii.eqb c "%"
          then String (decoded_char h l) (percent_decode r')
          else String c (percent_decode r)
      | _ => String c (percent_decode r)
      end
  end.

(** What [iobuf_writestr (work->uidbuf, "\n\t")] appends after each
    user id: a line feed and a tab. *)
Definition uid_marker : string := String "010" (String "009" EmptyString).

Section Parser.
Context {C : Collaborators}.

(** The optional fields of a pub line after the key description; each
    missing field ends the line. *)
Definition parse_pub_fields (work : keyrec) (keystring : option string) : keyrec :=
  match gpg_strsep keystring ":" with
  | (None, _) => work
  | (Some tok, keystring) =>
  let work := set_type work (atoi tok mod 256) in
  match gpg_strsep keystring ":" with
  | (None, _) => work
  | (Some tok, keystring) =>
  let work := set_size work (atoi tok) in
  match gpg_strsep keystring ":" with
  | (None, _) => work
  | (Some tok, keystring) =>
  let work :=
    if atoi tok <=? 0 then set_createtime work 0
    else set_createtime work (atoi tok) in
  match gpg_strsep keystring ":" with
  | (None, _) => work
  | (Some tok, keystring) =>
  let work :=
    if atoi tok <=? 0 then set_expiretime work 0
    else
      let work := set_expiretime work (atoi tok) in
      if kr_expiretime work <=? make_timestamp
      then set_flags work (Z.lor (kr_flags work) 4)
      else work in
  match gpg_strsep keystring ":" with
  | (None, _) => work
  | (Some tok, _) => set_flags work (parse_flag_chars tok (kr_flags work))
  end end end end end.

(** The "pub" branch; the result is the new [*work] and [ret]. *)
Definition parse_pub (work : keyrec) (keystring : option string)
  : keyrec * option keyrec :=
  let '(ret, work) :=
    if mode_set (kr_desc work) then (Some work, keyrec_clear)
    else (None, work) in
  match gpg_strsep keystring ":" with
  | (None, _) => (work, ret)
  | (Some tok, keystring) =>
      let '(err, d) := classify_user_id tok in
      if (negb (Z.eqb err 0) || negb (is_key_id_mode d))%bool
      then (set_desc work KEYDB_SEARCH_MODE_NONE, ret)
      else (parse_pub_fields (incr_lines (set_desc work d)) keystring, ret)
  end.

(** The "uid" branch. *)
Definition parse_uid (work : keyrec) (keystring : option string) : keyrec :=
  match gpg_strsep keystring ":" with
  | (None, _) => work
  | (Some tok, _) =>
      if Nat.eqb (String.length tok) 0 then work
      else
        let userid := percent_decode tok in
        let decoded := c_str (utf8_to_native userid) in
        let decoded :=
          if Z.of_nat (String.length decoded) >? to_size_t (screen_columns opt - 10)
          then str_take (Z.to_nat (screen_columns opt - 10)) decoded
          else decoded in
        incr_lines (set_uidbuf work (kr_uidbuf work ++ decoded ++ uid_marker)%string)
  end.

(** One non-NULL line against the record [work] points to. *)
Definition parse_keyrec_line (work : keyrec) (line : string)
  : keyrec * option keyrec :=
  match gpg_strsep (Some (trim_trailing_ws line)) ":" with
  | (None, _) => (work, None)
  | (Some record, keystring) =>
      if Z.eqb (ascii_strcasecmp "pub" record) 0
      then parse_pub work keystring
      else if (Z.eqb (ascii_strcasecmp "uid" record) 0 && mode_set (kr_desc work))%bool
      then (parse_uid work keystring, None)
      else (work, None)
  end.

(** Whether a non-NULL line makes [parse_keyrec] look into the record
    [work] points to: the "pub" branch tests [work->desc.mode], and so
    does the condition of the "uid" branch once the tag has matched.
    A line with any other tag is ignored without a look at [*work]. *)
Definition line_reads_work (line : string) : bool :=
  match gpg_strsep (Some (trim_trailing_ws line)) ":" with
  | (None, _) => false
  | (Some record, _) =>
      (Z.eqb (ascii_strcasecmp "pub" record) 0
       || Z.eqb (ascii_strcasecmp "uid" record) 0)%bool
  end.

(** [parse_keyrec (keystring)] as a function of the static [work]:
    the new [work] and the returned record.  [None] where the C code
    reads through a pointer it has released: at the flush, and at a
    "pub" or "uid" line.  Any other line leaves the released pointer
    as it is and returns NULL. *)
Definition parse_keyrec (work : work_state) (keystring : option string)
  : option (work_state * option keyrec) :=
  match keystring with
  | None =>
      match work with
      | WorkNull => Some (WorkNull, None)
      | WorkAt k =>
          if mode_set (kr_desc k) then Some (WorkNull, Some k)
          else Some (WorkFreed, None)
      | WorkFreed => None
      end
  | Some line =>
      match work with
      | WorkNull =>
          let '(k, ret) := parse_keyrec_line keyrec_clear line in
          Some (WorkAt k, ret)
      | WorkAt k0 =>
          let '(k, ret) := parse_keyrec_line k0 line in
          Some (WorkAt k, ret)
      | WorkFreed =>
          if line_reads_work line then None else Some (WorkFreed, None)
      end
  end.
End Parser.

(* ================================================================== *)
(** ** keyserver_get_chunk and keyserver_get *)
(* ================================================================== *)

Definition MAX_KS_GET_LINELEN : nat := 950.

(** The [for] loop of [keyserver_get_chunk], entered at index [idx]
    with [desc] the descriptions from [idx] on.  The result is the
    pattern array, the final [idx] (stored into [*r_ndesc_used]) and
    the final [linelen]; [None] stands for [BUG ()]. *)
Fixpoint chunk_loop (desc : list KEYDB_SEARCH_DESC) (idx linelen : nat)
  (pattern : list string) : option (list string * nat * nat) :=
  match desc with
  | [] => Some (pattern, idx, linelen)
  | d :: rest =>
      match d with
      | KEYDB_SEARCH_MODE_FPR20 fpr =>
          let n := (1 + 2 + 2 * 20)%nat in
          if (negb (Nat.eqb idx 0) && Nat.ltb MAX_KS_GET_LINELEN (linelen + n))%bool
          then Some (pattern, idx, linelen)
          else chunk_loop rest (S idx) (linelen + n)
                 (pattern ++ [("0x" ++ bin2hex (firstn 20 fpr))%string])
      | KEYDB_SEARCH_MODE_FPR16 fpr =>
          let n := (1 + 2 + 2 * 20)%nat in
          if (negb (Nat.eqb idx 0) && Nat.ltb MAX_KS_GET_LINELEN (linelen + n))%bool
          then Some (pattern, idx, linelen)
          else chunk_loop rest (S idx) (linelen + n)
                 (pattern ++ [("0x" ++ bin2hex (firstn 16 fpr))%string])
      | KEYDB_SEARCH_MODE_LONG_KID kid0 kid1 =>
          let n := (1 + 2 + 16)%nat in
          if (negb (Nat.eqb idx 0) && Nat.ltb MAX_KS_GET_LINELEN (linelen + n))%bool
          then Some (pattern, idx, linelen)
          else chunk_loop rest (S idx) (linelen + n)
                 (pattern ++ [("0x" ++ fmt_08lX kid0 ++ fmt_08lX kid1)%string])
      | KEYDB_SEARCH_MODE_SHORT_KID kid1 =>
          let n := (1 + 2 + 8)%nat in
          if (negb (Nat.eqb idx 0) && Nat.ltb MAX_KS_GET_LINELEN (linelen + n))%bool
          then Some (pattern, idx, linelen)
          else chunk_loop rest (S idx) (linelen + n)
                 (pattern ++ [("0x" ++ fmt_08lX kid1)%string])
      | KEYDB_SEARCH_MODE_EXACT name =>
          let n := (1 + 1 + String.length name)%nat in
          if (negb (Nat.eqb idx 0) && Nat.ltb MAX_KS_GET_LINELEN (linelen + n))%bool
          then Some (pattern, idx, linelen)
          else chunk_loop rest (S idx) (linelen + n)
                 (pattern ++ [("=" ++ name)%string])
      | KEYDB_SEARCH_MODE_NONE => chunk_loop rest (S idx) linelen pattern
      | _ => None
      end
  end.

(** The planning part of [keyserver_get_chunk]: the patterns handed to
    [gpg_dirmngr_ks_get] and the value of [*r_ndesc_used]. *)
Definition keyserver_get_chunk (desc : list KEYDB_SEARCH_DESC)
  : option (list string * nat) :=
  match chunk_loop desc 0 17 [] with
  | Some (pattern, idx, _) => Some (pattern, idx)
  | None => None
  end.

(** The environment of one run: the static [work] of [parse_keyrec],
    the lines the terminal will deliver to the prompt, the results the
    successive [gpg_dirmngr_ks_get] calls will have, and the record of
    the requests made (patterns and [*r_ndesc_used]). *)
Record world : Type := mk_world {
  w_work : work_state;
  w_tty : list string;
  w_ks_get : list gpg_error_t;
  w_requests : list (list string * nat)
}.

Definition set_work (w : world) (k : work_state) : world :=
  mk_world k (w_tty w) (w_ks_get w) (w_requests w).
Definition set_tty (w : world) (t : list string) : world :=
  mk_world (w_work w) t (w_ks_get w) (w_requests w).

(** The loop of [keyserver_get].  Each round plans a chunk, issues it
    (taking the next scripted result), and either stops or moves
    [desc] on by [ndesc_used].  [None] when the planner hits [BUG ()]
    or the script of results is used up. *)
Fixpoint keyserver_get_loop (ks_get : list gpg_error_t) (desc : list KEYDB_SEARCH_DESC)
  (requests : list (list string * nat))
  : option (gpg_error_t * list gpg_error_t * list (list string * nat)) :=
  match keyserver_get_chunk desc with
  | None => None
  | Some (pattern, ndesc_used) =>
      match ks_get with
      | [] => None
      | err :: ks_get' =>
          let requests := requests ++ [(pattern, ndesc_used)] in
          if (negb (Z.eqb err 0) || Nat.leb (List.length desc) ndesc_used)%bool
          then Some (err, ks_get', requests)
          else keyserver_get_loop ks_get' (skipn ndesc_used desc) requests
      end
  end.

Definition keyserver_get (desc : list KEYDB_SEARCH_DESC) (w : world)
  : option (gpg_error_t * world) :=
  match keyserver_get_loop (w_ks_get w) desc (w_requests w) with
  | None => None
  | Some (err, ks_get, requests) =>
      Some (err, mk_world (w_work w) (w_tty w) ks_get requests)
  end.

(* ================================================================== *)
(** ** show_prompt *)
(* ================================================================== *)

(** [DIM (numarray)]. *)
Definition DIM_numarray : nat := 50.

(** How the splitting loop of [show_prompt] ends: by [goto again]
    after "Too many keys selected", or normally with [numarray]. *)
Inductive split_result : Type :=
| TooManyKeys
| Selected (numarray : list Z).

(** [while ((num = gpg_strsep (&split, " ,")))].  [fuel] bounds the
    number of iterations; the length of the answer and two are always
    enough. *)
Fixpoint split_loop (fuel : nat) (split : option string) (numdesc : Z)
  (numarray : list Z) : option split_result :=
  match fuel with
  | O => None
  | S fuel' =>
      match gpg_strsep split " ," with
      | (None, _) => Some (Selected numarray)
      | (Some num, split') =>
          if ((1 <=? atoi num) && (atoi num <=? numdesc))%bool
          then
            if Nat.leb DIM_numarray (List.length numarray)
            then Some TooManyKeys
            else split_loop fuel' split' numdesc (numarray ++ [atoi num])
          else split_loop fuel' split' numdesc numarray
      end
  end.

(** What one line of input makes [show_prompt] do. *)
Inductive prompt_action : Type :=
| PromptCancel
| PromptAgain
| PromptGet (numarray : list Z)
| PromptReturn.

(** The first character of the answer is 'q' or 'Q', or control-d,
    which the code rewrites to 'q'. *)
Definition is_quit (answer : string) : bool :=
  match answer with
  | String c _ =>
      (Ascii.eqb c "004" || Ascii.eqb c "q" || Ascii.eqb c "Q")%bool
  | EmptyString => false
  end.

Definition prompt_action_of (answer : string) (numdesc : Z) : option prompt_action :=
  if is_quit answer then Some PromptCancel
  else if ((1 <=? atoi answer) && (atoi answer <=? numdesc))%bool
  then
    match split_loop (S (S (String.length answer))) (Some answer) numdesc [] with
    | None => None
    | Some TooManyKeys => Some PromptAgain
    | Some (Selected []) => Some PromptAgain
    | Some (Selected numarray) => Some (PromptGet numarray)
    end
  else Some PromptReturn.

(** [selarray[idx] = desc[numarray[idx] - 1]].  The indices are within
    [1, numdesc]; the caller passes an array with at least [numdesc]
    elements. *)
Definition selarray_of (desc : list KEYDB_SEARCH_DESC) (numarray : list Z)
  : list KEYDB_SEARCH_DESC :=
  map (fun i => nth (Z.to_nat (i - 1)) desc KEYDB_SEARCH_MODE_NONE) numarray.

(** The prompt loop, over the lines the terminal still holds.  The
    result is the error code, the lines left and the world after the
    retrieval; [None] when the terminal has no more input or the
    retrieval has no result. *)
Fixpoint show_prompt_loop (tty : list string) (desc : list KEYDB_SEARCH_DESC)
  (numdesc : Z) (w : world) : option (gpg_error_t * world) :=
  match tty with
  | [] => None
  | answer :: tty' =>
      match prompt_action_of answer numdesc with
      | None => None
      | Some PromptCancel => Some (GPG_ERR_CANCELED, set_tty w tty')
      | Some PromptAgain => show_prompt_loop tty' desc numdesc (set_tty w tty')
      | Some (PromptGet numarray) =>
          keyserver_get (selarray_of desc numarray) (set_tty w tty')
      | Some PromptReturn => Some (0, set_tty w tty')
      end
  end.

Definition show_prompt (desc : list KEYDB_SEARCH_DESC) (numdesc : Z) (w : world)
  : option (gpg_error_t * world) :=
  show_prompt_loop (w_tty w) desc numdesc w.

(* ================================================================== *)
(** ** search_line_handler *)
(* ================================================================== *)

(** [struct search_line_handler_parm_s] without the members used for
    display only.  [p_desc] is the array pointer: [None] is NULL, and
    the list has the allocated length, its unwritten elements shown as
    [KEYDB_SEARCH_MODE_NONE]. *)
Record search_line_handler_parm_s : Type := mk_parm {
  p_desc : option (list KEYDB_SEARCH_DESC);
  p_count : Z;
  p_validcount : bool;
  p_nkeys : Z;
  p_any_lines : bool;
  p_numlines : Z;
  p_eof_seen : bool;
  p_not_found : bool
}.

(** [memset (&parm, 0, sizeof parm)]. *)
Definition parm_zero : search_line_handler_parm_s :=
  mk_parm None 0 false 0 false 0 false false.

Definition set_p_desc p v :=
  mk_parm v (p_count p) (p_validcount p) (p_nkeys p) (p_any_lines p)
          (p_numlines p) (p_eof_seen p) (p_not_found p).
Definition set_p_count p v :=
  mk_parm (p_desc p) v (p_validcount p) (p_nkeys p) (p_any_lines p)
          (p_numlines p) (p_eof_seen p) (p_not_found p).
Definition set_p_validcount p v :=
  mk_parm (p_desc p) (p_count p) v (p_nkeys p) (p_any_lines p)
          (p_numlines p) (p_eof_seen p) (p_not_found p).
Definition set_p_nkeys p v :=
  mk_parm (p_desc p) (p_count p) (p_validcount p) v (p_any_lines p)
          (p_numlines p) (p_eof_seen p) (p_not_found p).
Definition set_p_any_lines p v :=
  mk_parm (p_desc p) (p_count p) (p_validcount p) (p_nkeys p) v
          (p_numlines p) (p_eof_seen p) (p_not_found p).
Definition set_p_numlines p v :=
  mk_parm (p_desc p) (p_count p) (p_validcount p) (p_nkeys p) (p_any_lines p)
          v (p_eof_seen p) (p_not_found p).
Definition set_p_eof_seen p v :=
  mk_parm (p_desc p) (p_count p) (p_validcount p) (p_nkeys p) (p_any_lines p)
          (p_numlines p) v (p_not_found p).
Definition set_p_not_found p v :=
  mk_parm (p_desc p) (p_count p) (p_validcount p) (p_nkeys p) (p_any_lines p)
          (p_numlines p) (p_eof_seen p) v.

(** [arr[i] = v]; the code writes within the allocated length. *)
Fixpoint array_set (arr : list KEYDB_SEARCH_DESC) (i : nat) (v : KEYDB_SEARCH_DESC)
  : list KEYDB_SEARCH_DESC :=
  match arr, i with
  | [], _ => []
  | _ :: r, O => v :: r
  | x :: r, S i' => x :: array_set r i' v
  end.

Definition desc_array (p : search_line_handler_parm_s) : list KEYDB_SEARCH_DESC :=
  match p_desc p with
  | Some arr => arr
  | None => []
  end.

(** The count sub-field of an info: line, once [sscanf] has stored it
    into [parm->count]. *)
Definition info_count (parm : search_line_handler_parm_s) (count : Z)
  : search_line_handler_parm_s :=
  let parm := set_p_count parm count in
  if Z.eqb (p_count parm) 0 then set_p_not_found parm true
  else if p_count parm <? 0 then set_p_count parm 10
  else set_p_validcount parm true.

(** The body of the [if] that recognises an info: line. *)
Definition handle_info (parm : search_line_handler_parm_s) (line : string)
  : gpg_error_t * search_line_handler_parm_s :=
  let str := Some (str_drop 5 line) in
  let '(tok, str) := gpg_strsep str ":" in
  let version :=
    match tok with
    | Some tok =>
        match sscanf_d tok with
        | Some v => v
        | None => 1
        end
    | None => 1
    end in
  if negb (Z.eqb version 1) then (GPG_ERR_UNSUPPORTED_PROTOCOL, parm)
  else
    let '(tok, _) := gpg_strsep str ":" in
    let parm :=
      match tok with
      | Some tok =>
          match sscanf_d tok with
          | Some count => info_count parm count
          | None => parm
          end
      | None => parm
      end in
    (0, set_p_any_lines parm true).

(** Outcome of the block that saves a completed record: an early
    [return], or falling through to the test of [eof_seen]. *)
Inductive save_result : Type :=
| SaveReturn (err : gpg_error_t) (parm : search_line_handler_parm_s) (w : world)
| SaveDone (parm : search_line_handler_parm_s) (w : world).

Section Handler.
Context {C : Collaborators}.

(** Allocate or enlarge the key array if needed. *)
Definition grow_desc (parm : search_line_handler_parm_s) : search_line_handler_parm_s :=
  match p_desc parm with
  | None =>
      let parm :=
        if p_count parm <? 1
        then set_p_validcount (set_p_count parm 10) false
        else parm in
      set_p_desc parm (Some (repeat KEYDB_SEARCH_MODE_NONE (Z.to_nat (p_count parm))))
  | Some arr =>
      if Z.eqb (p_nkeys parm) (p_count parm)
      then
        let newcount := p_count parm + 10 in
        set_p_validcount
          (set_p_desc (set_p_count parm newcount)
             (Some (arr ++ repeat KEYDB_SEARCH_MODE_NONE 10)))
          false
      else parm
  end.

(** [if (keyrec) { ... }] up to the test of [eof_seen]. *)
Definition save_keyrec (parm : search_line_handler_parm_s) (kr : keyrec) (w : world)
  : option save_result :=
  let parm := grow_desc parm in
  let parm :=
    set_p_desc parm
      (Some (array_set (desc_array parm) (Z.to_nat (p_nkeys parm)) (kr_desc kr))) in
  let finish parm w :=
    let parm := set_p_numlines parm (to_uint (p_numlines parm + kr_lines kr)) in
    let parm := set_p_any_lines parm true in
    SaveDone (set_p_nkeys parm (p_nkeys parm + 1)) w in
  if negb (with_colons opt)
  then
    if to_uint (p_numlines parm + kr_lines kr) >? to_uint (screen_lines opt - 1)
    then
      match show_prompt (desc_array parm) (p_nkeys parm) w with
      | None => None
      | Some (err, w) =>
          if negb (Z.eqb err 0) then Some (SaveReturn err parm w)
          else Some (finish (set_p_numlines parm 0) w)
      end
    else Some (finish parm w)
  else Some (finish parm w).

(** The code from the label [again] on.  [fuel] bounds the number of
    passes; two are always enough. *)
Fixpoint handler_again (fuel : nat) (parm : search_line_handler_parm_s)
  (line : option string) (w : world)
  : option (gpg_error_t * search_line_handler_parm_s * world) :=
  match fuel with
  | O => None
  | S fuel' =>
      let after_save parm keyrec w :=
        match save_keyrec parm keyrec w with
        | None => None
        | Some (SaveReturn err parm w) => Some (err, parm, w)
        | Some (SaveDone parm w) =>
            if p_eof_seen parm then handler_again fuel' parm line w
            else Some (0, parm, w)
        end in
      match line with
      | Some l =>
          match parse_keyrec (w_work w) (Some l) with
          | None => None
          | Some (work, None) => Some (0, parm, set_work w work)
          | Some (work, Some keyrec) => after_save parm keyrec (set_work w work)
          end
      | None =>
          let parm := set_p_eof_seen parm true in
          match parse_keyrec (w_work w) None with
          | None => None
          | Some (work, Some keyrec) => after_save parm keyrec (set_work w work)
          | Some (work, None) =>
              let w := set_work w work in
              if Z.eqb (p_nkeys parm) 0
              then Some (0, set_p_not_found parm true, w)
              else
                let parm :=
                  if negb (Z.eqb (p_nkeys parm) (p_count parm))
                  then set_p_validcount parm false
                  else parm in
                if negb (with_colons opt && batch opt)
                then
                  match show_prompt (desc_array parm) (p_nkeys parm) w with
                  | None => None
                  | Some (err, w) => Some (err, parm, w)
                  end
                else Some (0, parm, w)
          end
      end
  end.

(** [search_line_handler (parm, special, line)]. *)
Definition search_line_handler (parm : search_line_handler_parm_s) (special : Z)
  (line : option string) (w : world)
  : option (gpg_error_t * search_line_handler_parm_s * world) :=
  if Z.eqb special 1 then Some (0, parm, w)
  else if negb (Z.eqb special 0) then Some (0, parm, w)
  else
    let line := if p_eof_seen parm then None else line in
    match line with
    | Some l =>
        if (negb (p_any_lines parm) && Z.eqb (ascii_strncasecmp "info:" l 5) 0)%bool
        then let '(err, parm) := handle_info parm l in Some (err, parm, w)
        else handler_again 2 parm line w
    | None => handler_again 2 parm line w
    end.

(** Modelled from the spec: [gpg_dirmngr_ks_search], which drives
    the callback, is defined in g10/call-dirmngr.
    The handler is applied to the lines of the response in order (an
    EOF is the line [None]), and an error it returns "aborts the
    session immediately". *)
Fixpoint feed_lines (parm : search_line_handler_parm_s) (lines : list (option string))
  (w : world) : option (gpg_error_t * search_line_handler_parm_s * world) :=
  match lines with
  | [] => Some (0, parm, w)
  | line :: rest =>
      match search_line_handler parm 0 line w with
      | None => None
      | Some (err, parm, w) =>
          if Z.eqb err 0 then feed_lines parm rest w
          else Some (err, parm, w)
      end
  end.
End Handler.

(* ================================================================== *)
(** ** A concrete set of collaborators *)
(* ================================================================== *)

Definition GPG_ERR_INV_USER_ID : gpg_error_t := 37.

Fixpoint all_hex (s : string) : bool :=
  match s with
  | EmptyString => true
  | String c r =>
      match hexval c with
      | Some _ => all_hex r
      | None => false
      end
  end.

(** [strtoul (s, NULL, 16)] on a string of hexadecimal digits. *)
Fixpoint hex_number (acc : Z) (s : string) : Z :=
  match s with
  | EmptyString => acc
  | String c r =>
      match hexval c with
      | Some v => hex_number (16 * acc + Z.of_nat v) r
      | None => acc
      end
  end.

Fixpoint hex_bytes (s : string) : list byte :=
  match s with
  | String h (String l r) =>
      match Byte.of_N (Z.to_N (hextobyte h l)) with
      | Some b => b :: hex_bytes r
      | None => []
      end
  | _ => []
  end.

(** Modelled from the spec: [classify_user_id] is defined in
    common/userids.  This classifier covers the tokens a keyserver sends
    on a pub line, "short/long key id, 16- or 20-byte fingerprint":
    8, 16, 32 or 40 hexadecimal digits, with or without a "0x" prefix.
    Any other token without the prefix is a substring search (mode
    number 2 of the enumeration); with the prefix it is an error. *)
Definition classify_hex_token (tok : string) : gpg_error_t * KEYDB_SEARCH_DESC :=
  let '(hexprefix, s) :=
    match tok with
    | String "0" (String "x" r) => (true, r)
    | _ => (false, tok)
    end in
  let hexlength := String.length s in
  if (all_hex s && Nat.eqb hexlength 8)%bool
  then (0, KEYDB_SEARCH_MODE_SHORT_KID (hex_number 0 s))
  else if (all_hex s && Nat.eqb hexlength 16)%bool
  then (0, KEYDB_SEARCH_MODE_LONG_KID (hex_number 0 (str_take 8 s))
                                      (hex_number 0 (str_drop 8 s)))
  else if (all_hex s && Nat.eqb hexlength 32)%bool
  then (0, KEYDB_SEARCH_MODE_FPR16 (hex_bytes s))
  else if (all_hex s && Nat.eqb hexlength 40)%bool
  then (0, KEYDB_SEARCH_MODE_FPR20 (hex_bytes s))
  else if hexprefix
  then (GPG_ERR_INV_USER_ID, KEYDB_SEARCH_MODE_NONE)
  else (0, KEYDB_SEARCH_MODE_OTHER 2 tok).

(** An 80x24 terminal, interactive output, a UTF-8 native character
    set (the conversion leaves the text as it is) and a clock reading
    1500000000. *)
Definition terminal_80x24 : options := mk_options 80 24 false false.

Definition plain_collaborators : Collaborators :=
  {| classify_user_id := classify_hex_token;
     utf8_to_native := fun s => s;
     make_timestamp := 1500000000;
     opt := terminal_80x24 |}.

Definition world_init (tty : list string) (ks_get : list gpg_error_t) : world :=
  mk_world WorkNull tty ks_get [].

(* ================================================================== *)
(** ** Notions used to state the properties *)
(* ================================================================== *)

(** The 64-bit key id made of the two [u32] words of a key. *)
Definition keyid64 (kid0 kid1 : Z) : Z := kid0 * 2 ^ 32 + kid1.

Definition is_u32 (v : Z) : Prop := 0 <= v < 2 ^ 32.

Definition pk_wf (pk : PKT_public_key) : Prop :=
  is_u32 (pk_keyid0 pk) /\ is_u32 (pk_keyid1 pk).

(** The key id words of a description are [u32] values. *)
Definition desc_wf (d : KEYDB_SEARCH_DESC) : Prop :=
  match d with
  | KEYDB_SEARCH_MODE_SHORT_KID kid1 => is_u32 kid1
  | KEYDB_SEARCH_MODE_LONG_KID kid0 kid1 => is_u32 kid0 /\ is_u32 kid1
  | _ => True
  end.

Definition is_public_key_packet (p : packet) : Prop :=
  pkttype p = PKT_PUBLIC_KEY \/ pkttype p = PKT_PUBLIC_SUBKEY.

Definition has_secret_key_packet (keyblock : kbnode_t) : Prop :=
  exists p, In p keyblock /\ pkttype p = PKT_SECRET_KEY.

(** Tiered comparison of a requested description with a key, in the
    words of the specification: exact 20-byte and 16-byte fingerprint
    matches, equality of the full 64-bit key id, equality of its low 32
    bits; any other mode matches every key. *)
Definition tiered_match (d : KEYDB_SEARCH_DESC) (pk : PKT_public_key) : Prop :=
  match d with
  | KEYDB_SEARCH_MODE_FPR20 fpr =>
      List.length (pk_fingerprint pk) = 20%nat /\ pk_fingerprint pk = firstn 20 fpr
  | KEYDB_SEARCH_MODE_FPR16 fpr =>
      List.length (pk_fingerprint pk) = 16%nat /\ pk_fingerprint pk = firstn 16 fpr
  | KEYDB_SEARCH_MODE_LONG_KID kid0 kid1 =>
      keyid64 (pk_keyid0 pk) (pk_keyid1 pk) = keyid64 kid0 kid1
  | KEYDB_SEARCH_MODE_SHORT_KID kid1 =>
      Z.land (keyid64 (pk_keyid0 pk) (pk_keyid1 pk)) (2 ^ 32 - 1) = kid1
  | _ => True
  end.

(** The modes [keyserver_get_chunk] handles; any other reaches
    [BUG ()]. *)
Definition planner_supported (d : KEYDB_SEARCH_DESC) : Prop :=
  match d with
  | KEYDB_SEARCH_MODE_FPR20 _
  | KEYDB_SEARCH_MODE_FPR16 _
  | KEYDB_SEARCH_MODE_LONG_KID _ _
  | KEYDB_SEARCH_MODE_SHORT_KID _
  | KEYDB_SEARCH_MODE_EXACT _
  | KEYDB_SEARCH_MODE_NONE => True
  | _ => False
  end.

(** The amount [n] the planner adds to [linelen] for a description. *)
Definition pattern_cost (d : KEYDB_SEARCH_DESC) : nat :=
  match d with
  | KEYDB_SEARCH_MODE_FPR20 _ | KEYDB_SEARCH_MODE_FPR16 _ => 43
  | KEYDB_SEARCH_MODE_LONG_KID _ _ => 19
  | KEYDB_SEARCH_MODE_SHORT_KID _ => 11
  | KEYDB_SEARCH_MODE_EXACT name => 2 + String.length name
  | _ => 0
  end.

(** The patterns a description contributes: one, or none for
    [KEYDB_SEARCH_MODE_NONE]. *)
Definition pattern_of (d : KEYDB_SEARCH_DESC) : list string :=
  match d with
  | KEYDB_SEARCH_MODE_FPR20 fpr => [("0x" ++ bin2hex (firstn 20 fpr))%string]
  | KEYDB_SEARCH_MODE_FPR16 fpr => [("0x" ++ bin2hex (firstn 16 fpr))%string]
  | KEYDB_SEARCH_MODE_LONG_KID kid0 kid1 => [("0x" ++ fmt_08lX kid0 ++ fmt_08lX kid1)%string]
  | KEYDB_SEARCH_MODE_SHORT_KID kid1 => [("0x" ++ fmt_08lX kid1)%string]
  | KEYDB_SEARCH_MODE_EXACT name => [("=" ++ name)%string]
  | _ => []
  end.

Definition total_cost (l : list KEYDB_SEARCH_DESC) : nat :=
  list_sum (map pattern_cost l).

(** The sum of the [*r_ndesc_used] values of a list of requests. *)
Definition consumed (requests : list (list string * nat)) : nat :=
  list_sum (map snd requests).

(** The first field of a line as [parse_keyrec] sees it, the second
    field when there is one, and the test for a "pub" line. *)
Definition line_record (line : string) : string :=
  fst (split_at_delim (trim_trailing_ws line) ":").

Definition line_token (line : string) : option string :=
  match snd (split_at_delim (trim_trailing_ws line) ":") with
  | Some rest => Some (fst (split_at_delim rest ":"))
  | None => None
  end.

Definition is_pub_line (line : string) : bool :=
  Z.eqb (ascii_strcasecmp "pub" (line_record line)) 0.

(** The record in progress, when [work] points to one whose
    description has a mode. *)
Definition record_in_progress (work : work_state) : option keyrec :=
  match work with
  | WorkAt k => if mode_set (kr_desc k) then Some k else None
  | _ => None
  end.

(** [parse_keyrec] over a sequence of lines, collecting the records
    returned. *)
Fixpoint parse_keyrec_lines {C : Collaborators} (work : work_state) (lines : list string)
  : option (work_state * list keyrec) :=
  match lines with
  | [] => Some (work, [])
  | line :: rest =>
      match parse_keyrec work (Some line) with
      | None => None
      | Some (work, ret) =>
          match parse_keyrec_lines work rest with
          | None => None
          | Some (work, recs) =>
              Some (work, match ret with Some r => r :: recs | None => recs end)
          end
      end
  end.

(** All the tokens that repeated calls of [gpg_strsep] cut out of [s]:
    the pieces between the delimiters, empty pieces included. *)
Fixpoint strsep_tokens (s delim : string) : list string :=
  match s with
  | EmptyString => [EmptyString]
  | String c r =>
      if str_mem c delim then EmptyString :: strsep_tokens r delim
      else
        match strsep_tokens r delim with
        | t :: ts => String c t :: ts
        | [] => [String c EmptyString]
        end
  end.

(** The number a field declares: the decimal numeral at its start,
    as the integer it denotes, however long it is.  The range of the
    [int] that [sscanf] stores it into. *)
Definition declared_number (field : string) : option Z := scan_decimal field.

Definition INT_MAX : Z := 2 ^ 31 - 1.
Definition INT_MIN : Z := - 2 ^ 31.

Definition in_int_range (v : Z) : Prop := INT_MIN <= v <= INT_MAX.

(** A token selects a record when [atoi] reads an integer in
    [1, numdesc] from it. *)
Definition token_in_range (numdesc : Z) (num : string) : bool :=
  ((1 <=? atoi num) && (atoi num <=? numdesc))%bool.

(** The selections of an answer: the numbers of its tokens, split on
    blanks and commas, that are in range. *)
Definition selections (answer : string) (numdesc : Z) : list Z :=
  map atoi (filter (token_in_range numdesc) (strsep_tokens answer " ,")).

(** The selector in the words of the specification: quit, or keep the
    tokens in range; prompt again when none survives or more than 50
    do; otherwise retrieve the selected records. *)
Definition spec_prompt_action (answer : string) (numdesc : Z) : prompt_action :=
  if is_quit answer then PromptCancel
  else
    let sel := selections answer numdesc in
    if Nat.eqb (List.length sel) 0 then PromptAgain
    else if Nat.ltb 50 (List.length sel) then PromptAgain
    else PromptGet sel.

(** The planner in the words of the specification: costs 2 + 2 x length
    for a fingerprint, 18, 10 and 1 + length; a baseline of 17, a
    ceiling of 950, and the batch closed when the next cost would pass
    the ceiling and the batch "already contains at least one pattern".
    It is compared with [chunk_loop] below. *)
Definition spec_pattern_cost (d : KEYDB_SEARCH_DESC) : nat :=
  match d with
  | KEYDB_SEARCH_MODE_FPR20 _ => 2 + 2 * 20
  | KEYDB_SEARCH_MODE_FPR16 _ => 2 + 2 * 16
  | KEYDB_SEARCH_MODE_LONG_KID _ _ => 18
  | KEYDB_SEARCH_MODE_SHORT_KID _ => 10
  | KEYDB_SEARCH_MODE_EXACT name => 1 + String.length name
  | _ => 0
  end.

Fixpoint spec_chunk_loop (desc : list KEYDB_SEARCH_DESC) (idx linelen : nat)
  (pattern : list string) : option (list string * nat * nat) :=
  match desc with
  | [] => Some (pattern, idx, linelen)
  | d :: rest =>
      match d with
      | KEYDB_SEARCH_MODE_NONE => spec_chunk_loop rest (S idx) linelen pattern
      | KEYDB_SEARCH_MODE_FIRST | KEYDB_SEARCH_MODE_NEXT
      | KEYDB_SEARCH_MODE_OTHER _ _ => None
      | _ =>
          let n := spec_pattern_cost d in
          if (negb (Nat.eqb (List.length pattern) 0)
              && Nat.ltb 950 (linelen + n))%bool
          then Some (pattern, idx, linelen)
          else spec_chunk_loop rest (S idx) (linelen + n) (pattern ++ pattern_of d)
      end
  end.

Definition spec_get_chunk (desc : list KEYDB_SEARCH_DESC)
  : option (list string * nat) :=
  match spec_chunk_loop desc 0 17 [] with
  | Some (pattern, idx, _) => Some (pattern, idx)
  | None => None
  end.

(* ================================================================== *)
(** ** Inputs used in the examples *)
(* ================================================================== *)

Definition secret_only_keyblock : kbnode_t :=
  [mk_packet PKT_SECRET_KEY (mk_pk [] 0 0)].

(** A keyblock with one public key whose key id is 0xAABBCCDD12345678. *)
Definition sample_keyblock : kbnode_t :=
  [mk_packet PKT_PUBLIC_KEY (mk_pk [] 0xAABBCCDD 0x12345678);
   mk_packet (PKT_OTHER 13) (mk_pk [] 0 0)].

Fixpoint str_repeat (c : ascii) (n : nat) : string :=
  match n with
  | O => EmptyString
  | S n' => String c (str_repeat c n')
  end.

(** A name of 949 characters: its pattern costs 951. *)
Definition long_name : string := str_repeat "a" 949.

(** Fifty-one long key ids. *)
Definition fifty_one_kids : list KEYDB_SEARCH_DESC :=
  repeat (KEYDB_SEARCH_MODE_LONG_KID 1 2) 51.

(** An over-long name followed by a long key id, and a world in which
    two requests will succeed. *)
Definition oversized_then_kid : list KEYDB_SEARCH_DESC :=
  [KEYDB_SEARCH_MODE_EXACT long_name; KEYDB_SEARCH_MODE_LONG_KID 1 2].

Definition two_good_requests : world := world_init [] [0; 0].

(** [KEYDB_SEARCH_MODE_NONE] in front of an over-long name. *)
Definition none_then_oversized : list KEYDB_SEARCH_DESC :=
  [KEYDB_SEARCH_MODE_NONE; KEYDB_SEARCH_MODE_EXACT long_name].

(** Three records accumulated by a search. *)
Definition three_records : list KEYDB_SEARCH_DESC :=
  [KEYDB_SEARCH_MODE_LONG_KID 1 1; KEYDB_SEARCH_MODE_LONG_KID 2 2;
   KEYDB_SEARCH_MODE_LONG_KID 3 3].

(* ================================================================== *)
(** ** Notions for the further properties of the parser *)
(* ================================================================== *)

(** The fields of a record as the pub branch leaves them: times that
    are not negative, flags within the three bits 1, 2 and 4, a type
    that fits a byte, and the expired bit set once the expiration time
    is reached. *)
Definition keyrec_fields_ok {C : Collaborators} (k : keyrec) : Prop :=
  0 <= kr_createtime k
  /\ 0 <= kr_expiretime k
  /\ 0 <= kr_flags k < 8
  /\ 0 <= kr_type k < 256
  /\ (0 < kr_expiretime k <= make_timestamp -> Z.testbit (kr_flags k) 2 = true).

(** A record [work] may point to: one whose description identifies a
    key, or one that is still as allocated. *)
Definition keyrec_ok {C : Collaborators} (k : keyrec) : Prop :=
  if mode_set (kr_desc k)
  then is_key_id_mode (kr_desc k) = true /\ keyrec_fields_ok k
  else k = keyrec_clear.

Definition work_ok {C : Collaborators} (w : work_state) : Prop :=
  match w with
  | WorkNull => True
  | WorkAt k => keyrec_ok k
  | WorkFreed => False
  end.

Definition is_uid_line (line : string) : bool :=
  Z.eqb (ascii_strcasecmp "uid" (line_record line)) 0.

(** A pub line whose token is classified without error to one of the
    four modes that identify a key. *)
Definition valid_pub_line {C : Collaborators} (line : string) : bool :=
  (is_pub_line line
   && match line_token line with
      | Some tok =>
          Z.eqb (fst (classify_user_id tok)) 0
          && is_key_id_mode (snd (classify_user_id tok))
      | None => false
      end)%bool.

(** The number of records in a result of [parse_keyrec]. *)
Definition returned (ret : option keyrec) : nat :=
  match ret with
  | Some _ => 1
  | None => 0
  end.

(** The %-encoding that the uid branch undoes: every character as '%'
    and its two hexadecimal digits. *)
Fixpoint percent_encode (s : string) : string :=
  match s with
  | EmptyString => EmptyString
  | String c r =>
      let n := char_code c in
      String "%" (String (hexdigit_upper (n / 16))
                    (String (hexdigit_upper (n mod 16)) (percent_encode r)))
  end.

(** The text of a uid token in the native character set, before it is
    cut to the width of the screen. *)
Definition uid_text {C : Collaborators} (tok : string) : string :=
  c_str (utf8_to_native (percent_decode tok)).

(** 1 when a record with a mode is in progress, 0 otherwise. *)
Definition in_progress (w : work_state) : nat := returned (record_in_progress w).

(** Whether the last pub line among [lines] is valid; [live] when
    there is no pub line. *)
Fixpoint live_after {C : Collaborators} (live : bool) (lines : list string) : bool :=
  match lines with
  | [] => live
  | line :: rest =>
      live_after (if is_pub_line line then valid_pub_line line else live) rest
  end.

(* ================================================================== *)
(** ** Notions for the further properties of the planner *)
(* ================================================================== *)

(** The length of the KS_GET line for a pattern array: the 17
    characters of "KS_GET --quick --" and, for each pattern, a
    separating blank and the pattern. *)
Definition request_length (pattern : list string) : nat :=
  17 + list_sum (map (fun p => S (String.length p)) pattern).

(** Descriptions for the examples: a chunk and a half of long key ids
    in a world where the first request fails, and two entries without
    mode. *)
Definition first_request_fails : world := world_init [] [7].

Definition two_none : list KEYDB_SEARCH_DESC :=
  [KEYDB_SEARCH_MODE_NONE; KEYDB_SEARCH_MODE_NONE].

(* ================================================================== *)
(** ** The imports of a single description and the screener of a chunk *)
(* ================================================================== *)

(** [keyserver_import_name]: the description of an exact search for
    [name], handed to [keyserver_get]. *)
Definition keyserver_import_name (name : string) (w : world)
  : option (gpg_error_t * world) :=
  keyserver_get [KEYDB_SEARCH_MODE_EXACT name] w.

(** [keyserver_import_fprint (fprint, fprint_len)].  The description is
    cleared, then [fprint_len] bytes are copied to the start of
    [desc.u.fpr], an array of 20 bytes.  The result -1 is returned for
    a length other than 16 and 20. *)
Definition keyserver_import_fprint (fprint : list byte) (fprint_len : nat) (w : world)
  : option (gpg_error_t * world) :=
  let fpr := firstn fprint_len fprint ++ repeat "000"%byte (20 - fprint_len) in
  if Nat.eqb fprint_len 16
  then keyserver_get [KEYDB_SEARCH_MODE_FPR16 fpr] w
  else if Nat.eqb fprint_len 20
  then keyserver_get [KEYDB_SEARCH_MODE_FPR20 fpr] w
  else Some (-1, w).

(** [keyserver_import_keyid (keyid)]. *)
Definition keyserver_import_keyid (keyid0 keyid1 : Z) (w : world)
  : option (gpg_error_t * world) :=
  keyserver_get [KEYDB_SEARCH_MODE_LONG_KID keyid0 keyid1] w.

(** The screener as [keyserver_get_chunk] sets it up for the key
    material of its request: [screenerarg.desc] is the array of the
    chunk and [screenerarg.ndesc] the number of descriptions used.
    The value is the verdict on one keyblock of the response. *)
Definition chunk_screener (desc : list KEYDB_SEARCH_DESC) (keyblock : kbnode_t)
  : option gpg_error_t :=
  match keyserver_get_chunk desc with
  | Some (_, ndesc_used) =>
      Some (keyserver_retrieval_screener keyblock (firstn ndesc_used desc))
  | None => None
  end.

(** The packets the screener looks at. *)
Definition screened_packet (p : packet) : bool :=
  match pkttype p with
  | PKT_PUBLIC_KEY | PKT_PUBLIC_SUBKEY | PKT_SECRET_KEY => true
  | _ => false
  end.

Definition has_public_key_packet (keyblock : kbnode_t) : Prop :=
  exists p, In p keyblock /\ is_public_key_packet p.

(** A public key with a secret subkey and a signature packet. *)
Definition keyblock_with_secret_subkey : kbnode_t :=
  [mk_packet PKT_PUBLIC_KEY (mk_pk [] 0xAABBCCDD 0x12345678);
   mk_packet (PKT_OTHER 2) (mk_pk [] 0 0);
   mk_packet PKT_SECRET_SUBKEY (mk_pk [] 1 2)].

(* ================================================================== *)
(** ** Notions for the further properties of the prompt and the handler *)
(* ================================================================== *)

(** A terminal that selects the first record and would quit at a
    second prompt, with fifty successful requests available. *)
Definition select_then_quit : world := world_init ["1"; "q"] (repeat 0 50).

(** What the handler maintains about its array: none before the first
    record; afterwards [count] elements are allocated, [nkeys] of them
    are filled, each with a description that identifies a key, and
    [any_lines] is set. *)
Definition parm_ok (parm : search_line_handler_parm_s) : Prop :=
  match p_desc parm with
  | None => p_nkeys parm = 0
  | Some arr =>
      0 <= p_nkeys parm <= p_count parm
      /\ List.length arr = Z.to_nat (p_count parm)
      /\ p_any_lines parm = true
      /\ Forall (fun d => is_key_id_mode d = true)
           (firstn (Z.to_nat (p_nkeys parm)) arr)
  end.

(** [if (parm->eof_seen && line) line = NULL]. *)
Definition effective_line (parm : search_line_handler_parm_s) (line : option string)
  : option string :=
  if p_eof_seen parm then None else line.

(** A world whose parser holds the record of a first pub line, and
    what the handler makes of a second pub line there. *)
Definition record_pending : world :=
  mk_world
    (WorkAt (fst (parse_keyrec_line (C := plain_collaborators) keyrec_clear
                    "pub:1234567812345678:1:2048:1000000000:0:")))
    [] [] [].

Definition second_pub_line : string := "pub:8765432187654321:1:2048:1000000000:0:".

Definition parm_after_second_pub : search_line_handler_parm_s :=
  Eval vm_compute in
    match search_line_handler (C := plain_collaborators) parm_zero 0
            (Some second_pub_line) record_pending with
    | Some (_, parm, _) => parm
    | None => parm_zero
    end.

Definition world_after_second_pub : world :=
  Eval vm_compute in
    match search_line_handler (C := plain_collaborators) parm_zero 0
            (Some second_pub_line) record_pending with
    | Some (_, _, w) => w
    | None => record_pending
    end.

(** The collaborators of a run with --with-colons and --batch. *)
Definition batch_collaborators : Collaborators :=
  {| classify_user_id := classify_hex_token;
     utf8_to_native := fun s => s;
     make_timestamp := 1500000000;
     opt := mk_options 80 24 true true |}.

(* ================================================================== *)
(** ** keyserver_import *)
(* ================================================================== *)

Section ImportUsers.
Context {C : Collaborators}.

(** The loop of [keyserver_import] over the users: [desc] is the
    array, allocated for [num] elements, and [count] the number of
    elements filled.  [classify_user_id] writes into [desc[count]];
    the element is kept, and the array enlarged by 100 when it is
    full, for a user classified without error to one of the four modes
    that identify a key. *)
Fixpoint keyserver_import_loop (users : list string) (desc : list KEYDB_SEARCH_DESC)
  (num count : nat) : list KEYDB_SEARCH_DESC * nat * nat :=
  match users with
  | [] => (desc, num, count)
  | user :: rest =>
      let '(err, d) := classify_user_id user in
      let desc := array_set desc count d in
      if (negb (Z.eqb err 0) || negb (is_key_id_mode d))%bool
      then keyserver_import_loop rest desc num count
      else
        let count := S count in
        if Nat.eqb count num
        then keyserver_import_loop rest (desc ++ repeat KEYDB_SEARCH_MODE_NONE 100)
               (num + 100) count
        else keyserver_import_loop rest desc num count
  end.

(** [keyserver_import (users)]: the first [count] elements of the
    array are handed to [keyserver_get] when there is at least one. *)
Definition keyserver_import (users : list string) (w : world)
  : option (gpg_error_t * world) :=
  let '(desc, _, count) :=
    keyserver_import_loop users (repeat KEYDB_SEARCH_MODE_NONE 100) 100 0 in
  if Nat.ltb 0 count then keyserver_get (firstn count desc) w
  else Some (0, w).

(** A user given as a key id or fingerprint, and the descriptions of
    those among [users]. *)
Definition is_key_id_user (user : string) : bool :=
  (Z.eqb (fst (classify_user_id user)) 0
   && is_key_id_mode (snd (classify_user_id user)))%bool.

Definition key_id_descs (users : list string) : list KEYDB_SEARCH_DESC :=
  map (fun user => snd (classify_user_id user)) (filter is_key_id_user users).
End ImportUsers.

(* ================================================================== *)
(** ** keyserver_put and keyserver_export *)
(* ================================================================== *)

Definition GPG_ERR_NO_KEYSERVER : gpg_error_t := 186.

Section Put.
Context {C : Collaborators}.

(** [export_pubkey_buffer] for a key specification: an error code
    and, when it is 0, the exported key. *)
Variable export_pubkey_buffer : string -> gpg_error_t * list byte.

(** The loop of [keyserver_put].  [err] is the local of that name,
    [ks_put] the results the successive calls of [gpg_dirmngr_ks_put]
    will have and [sent] the keys handed to it so far; [None] when
    those results are used up. *)
Fixpoint keyserver_put_loop (keyspecs : list string) (err : gpg_error_t)
  (ks_put : list gpg_error_t) (sent : list (list byte))
  : option (gpg_error_t * list gpg_error_t * list (list byte)) :=
  match keyspecs with
  | [] => Some (err, ks_put, sent)
  | kspec :: rest =>
      let '(err, data) := export_pubkey_buffer kspec in
      if negb (Z.eqb err 0) then keyserver_put_loop rest err ks_put sent
      else
        match ks_put with
        | [] => None
        | err :: ks_put' => keyserver_put_loop rest err ks_put' (sent ++ [data])
        end
  end.

(** [keyserver_put (keyspecs)]; [ks_list] is the result of
    [gpg_dirmngr_ks_list].  The local [err] has no initial value in
    the code; the loop runs at least once and assigns it. *)
Definition keyserver_put (ks_list : gpg_error_t) (keyspecs : list string)
  (ks_put : list gpg_error_t)
  : option (gpg_error_t * list gpg_error_t * list (list byte)) :=
  match keyspecs with
  | [] => Some (0, ks_put, [])
  | _ :: _ =>
      if negb (Z.eqb ks_list 0) then Some (GPG_ERR_NO_KEYSERVER, ks_put, [])
      else keyserver_put_loop keyspecs 0 ks_put []
  end.

(** The first loop of [keyserver_export]: the users that are not key
    ids are weeded out. *)
Fixpoint weed_out (users : list string) (sl : list string) : list string :=
  match users with
  | [] => sl
  | user :: rest =>
      let '(err, desc) := classify_user_id user in
      if (negb (Z.eqb err 0) || negb (is_key_id_mode desc))%bool
      then weed_out rest sl
      else weed_out rest (sl ++ [user])
  end.

Definition keyserver_export (ks_list : gpg_error_t) (users : list string)
  (ks_put : list gpg_error_t)
  : option (gpg_error_t * list gpg_error_t * list (list byte)) :=
  let sl := weed_out users [] in
  match sl with
  | [] => Some (0, ks_put, [])
  | _ :: _ => keyserver_put ks_list sl ks_put
  end.

(** The key specifications that can be exported, and their keys. *)
Definition exportable (kspec : string) : bool :=
  Z.eqb (fst (export_pubkey_buffer kspec)) 0.

Definition exported (keyspecs : list string) : list (list byte) :=
  map (fun kspec => snd (export_pubkey_buffer kspec)) (filter exportable keyspecs).
End Put.

(** An export that knows one key. *)
Definition export_one_key (kspec : string) : gpg_error_t * list byte :=
  if String.eqb kspec "1234567812345678" then (0, ["001"%byte; "002"%byte])
  else (GPG_ERR_GENERAL, []).

(* ================================================================== *)
(** ** cmp_keyserver_spec and keyserver_match *)
(* ================================================================== *)

(** The members of [struct keyserver_spec] that are compared: the
    scheme, host and port of its [uri]. *)
Record keyserver_spec : Type := mk_keyserver_spec {
  uri_scheme : string;
  uri_host : string;
  uri_port : string
}.

(** Return 0 for match. *)
Definition cmp_keyserver_spec (one two : keyserver_spec) : Z :=
  if Z.eqb (ascii_strcasecmp (uri_scheme one) (uri_scheme two)) 0
  then
    if Z.eqb (ascii_strcasecmp (uri_host one) (uri_host two)) 0
    then if String.eqb (uri_port one) (uri_port two) then 0 else 1
    else 1
  else 1.

(** [keyserver_match (spec)] over the keyservers of [opt.keyserver]. *)
Fixpoint keyserver_match (spec : keyserver_spec) (keyservers : list keyserver_spec)
  : keyserver_spec :=
  match keyservers with
  | [] => spec
  | ks :: rest =>
      if Z.eqb (cmp_keyserver_spec spec ks) 0 then ks
      else keyserver_match spec rest
  end.

(* ================================================================== *)
(** ** keyidlist and keyserver_refresh *)
(* ================================================================== *)

Definition GPG_ERR_NOT_FOUND : gpg_error_t := 27.

(** One round of the search loop of [keyidlist] as the key database
    answers it: the result of [keydb_search] and, when that is 0, the
    result of [keydb_get_keyblock] and the keyblock read. *)
Record keydb_step : Type := mk_keydb_step {
  search_rc : gpg_error_t;
  get_keyblock_rc : gpg_error_t;
  step_keyblock : kbnode_t
}.

Section Refresh.

(** [pk->version] of a public key packet. *)
Variable pk_version : PKT_public_key -> Z.

(** The bits of the import options that [keyserver_refresh] sets. *)
Variables IMPORT_FAST IMPORT_MERGE_ONLY : Z.

(** The element written for the primary key of a keyblock: v4 keys
    get full fingerprints, v3 keys get long keyids. *)
Definition klist_entry (pk : PKT_public_key) : KEYDB_SEARCH_DESC :=
  if pk_version pk <? 4
  then KEYDB_SEARCH_MODE_LONG_KID (pk_keyid0 pk) (pk_keyid1 pk)
  else KEYDB_SEARCH_MODE_FPR20 (pk_fingerprint pk).

(** The [for (;;)] loop of [keyidlist] and what follows it, over the
    answers of the key database; [klist] is the array, allocated for
    [num] elements, [count] the number of its elements filled.  The
    result is the value returned, [*klist] and [*count]; [None] when
    the answers are used up before a search fails. *)
Fixpoint keyidlist_loop (keydb : list keydb_step) (klist : list KEYDB_SEARCH_DESC)
  (num count : nat) : option (gpg_error_t * option (list KEYDB_SEARCH_DESC) * nat) :=
  match keydb with
  | [] => None
  | step :: rest =>
      if negb (Z.eqb (search_rc step) 0)
      then
        let rc :=
          if Z.eqb (search_rc step) GPG_ERR_NOT_FOUND then 0 else search_rc step in
        if negb (Z.eqb rc 0) then Some (rc, None, count)
        else Some (rc, Some klist, count)
      else if negb (Z.eqb (get_keyblock_rc step) 0)
      then Some (get_keyblock_rc step, None, count)
      else
        match find_kbnode (step_keyblock step) PKT_PUBLIC_KEY with
        | Some node =>
            let klist := array_set klist count (klist_entry (pkt_public_key node)) in
            let count := S count in
            if Nat.eqb count num
            then keyidlist_loop rest (klist ++ repeat KEYDB_SEARCH_MODE_NONE 100)
                   (num + 100) count
            else keyidlist_loop rest klist num count
        | None => keyidlist_loop rest klist num count
        end
  end.

(** [keyidlist (users, klist, count)].  [keydb_new] is [None] when
    [keydb_new ()] gives a handle and otherwise the code of
    [gpg_error_from_syserror ()].  The users determine what the key
    database is asked for, and so its answers. *)
Definition keyidlist (keydb_new : option gpg_error_t) (keydb : list keydb_step)
  : option (gpg_error_t * option (list KEYDB_SEARCH_DESC) * nat) :=
  match keydb_new with
  | Some rc =>
      if negb (Z.eqb rc 0) then Some (rc, None, 0%nat)
      else Some (rc, Some (repeat KEYDB_SEARCH_MODE_NONE 100), 0%nat)
  | None => keyidlist_loop keydb (repeat KEYDB_SEARCH_MODE_NONE 100) 100 0
  end.

(** The primary keys of the keyblocks found before the search ends. *)
Fixpoint primary_keys (keydb : list keydb_step) : list PKT_public_key :=
  match keydb with
  | [] => []
  | step :: rest =>
      if negb (Z.eqb (search_rc step) 0) then []
      else
        match find_kbnode (step_keyblock step) PKT_PUBLIC_KEY with
        | Some node => pkt_public_key node :: primary_keys rest
        | None => primary_keys rest
        end
  end.

(** How the search ends: with the first result of [keydb_search]
    that is not 0, where not-found counts as success, or with the
    first result of [keydb_get_keyblock] that is not 0. *)
Fixpoint search_outcome (keydb : list keydb_step) : option gpg_error_t :=
  match keydb with
  | [] => None
  | step :: rest =>
      if negb (Z.eqb (search_rc step) 0)
      then Some (if Z.eqb (search_rc step) GPG_ERR_NOT_FOUND then 0 else search_rc step)
      else if negb (Z.eqb (get_keyblock_rc step) 0) then Some (get_keyblock_rc step)
      else search_outcome rest
  end.

(** [keyserver_refresh (users)].  [options] is
    [opt.keyserver_options.import_options] at the call and [ks_list]
    the result of [gpg_dirmngr_ks_list].  The result is the value
    returned, the import options left behind, whether
    [check_or_update_trustdb] has been called, and the world. *)
Definition keyserver_refresh (keydb_new : option gpg_error_t) (keydb : list keydb_step)
  (ks_list : gpg_error_t) (options : Z) (w : world)
  : option (gpg_error_t * Z * bool * world) :=
  let merge_fast := Z.lor (Z.lor options IMPORT_MERGE_ONLY) IMPORT_FAST in
  match keyidlist keydb_new keydb with
  | None => None
  | Some (err, desc, numdesc) =>
      if negb (Z.eqb err 0) then Some (err, merge_fast, false, w)
      else
        let got :=
          if Nat.ltb 0 numdesc
          then
            if Z.eqb ks_list 0
            then keyserver_get
                   (firstn numdesc (match desc with Some l => l | None => [] end)) w
            else Some (ks_list, w)
          else Some (err, w) in
        match got with
        | None => None
        | Some (err, w) =>
            Some (err, options, Z.eqb (Z.land options IMPORT_FAST) 0, w)
        end
  end.
End Refresh.

(** A key database with the keyblock of one v4 key. *)
Definition v4_keyblock : kbnode_t :=
  [mk_packet PKT_PUBLIC_KEY (mk_pk (repeat "001"%byte 20) 1 2)].

Definition one_key_keydb : list keydb_step :=
  [mk_keydb_step 0 0 v4_keyblock; mk_keydb_step GPG_ERR_NOT_FOUND 0 []].

Definition version_4 (pk : PKT_public_key) : Z := 4.

(* ================================================================== *)
(** ** parse_keyserver_uri *)
(* ================================================================== *)

Section Uri.

(** [keyserver->uri.set_uri (uri)]: the scheme, host and port that
    the URI class reads from the text. *)
Variable set_uri : string -> keyserver_spec.

Definition set_scheme (keyserver : keyserver_spec) (scheme : string) : keyserver_spec :=
  mk_keyserver_spec scheme (uri_host keyserver) (uri_port keyserver).

(** [parse_keyserver_uri (string, require_scheme)]; [None] is NULL.
    The text is cut at its first blank, what follows being options
    that are only warned about. *)
Definition parse_keyserver_uri (text : string) (require_scheme : Z)
  : option keyserver_spec :=
  let uri := fst (split_at_delim text " ") in
  let keyserver := set_uri uri in
  if (negb (Z.eqb require_scheme 0)
      && Nat.eqb (String.length (uri_scheme keyserver)) 0)%bool
  then None
  else
    let keyserver := set_scheme keyserver "hkp" in
    let keyserver :=
      if Z.eqb (ascii_strcasecmp (uri_scheme keyserver) "x-hkp") 0
      then set_scheme keyserver "hkp"
      else keyserver in
    Some keyserver.
End Uri.

(** A URI class that reads every text as an LDAP server on port 389. *)
Definition set_uri_ldap (text : string) : keyserver_spec :=
  mk_keyserver_spec "ldap" text "389".

(* ================================================================== *)
(** * Properties *)
(* ================================================================== *)

(** ** The retrieval screener *)

Lemma find_kbnode_some (keyblock : kbnode_t) (ty : pkttype_t) (p : packet) :
  In p keyblock -> pkttype p = ty -> find_kbnode keyblock ty <> None.
Proof.
  induction keyblock as [|q next IH]; simpl; [tauto|].
  intros [->|Hin] Hty.
  - rewrite Hty. destruct ty; simpl; try discriminate.
    rewrite Z.eqb_refl. discriminate.
  - destruct (pkttype_eqb (pkttype q) ty); [discriminate | auto].
Qed.

Lemma pkttype_eqb_eq (a b : pkttype_t) : pkttype_eqb a b = true -> a = b.
Proof.
  destruct a, b; simpl; intros H; try discriminate; try reflexivity.
  apply Z.eqb_eq in H. now subst.
Qed.

Lemma find_kbnode_none (keyblock : kbnode_t) (ty : pkttype_t) :
  (forall p, In p keyblock -> pkttype p <> ty) -> find_kbnode keyblock ty = None.
Proof.
  induction keyblock as [|q next IH]; simpl; intros H; [reflexivity|].
  destruct (pkttype_eqb (pkttype q) ty) eqn:E.
  - apply pkttype_eqb_eq in E. exfalso. apply (H q); auto.
  - apply IH. intros p Hp. apply H. now right.
Qed.

(** C1.  A keyblock that contains a secret-key packet is rejected by
    [keyserver_retrieval_screener] whatever descriptions were requested,
    the empty list included; without such a packet the empty list of
    descriptions accepts every keyblock. *)
Theorem screener_rejects_secret_key (keyblock : kbnode_t) :
  has_secret_key_packet keyblock ->
  (forall desc, keyserver_retrieval_screener keyblock desc = GPG_ERR_GENERAL)
  /\ keyserver_retrieval_screener keyblock [] <> 0
  /\ (forall clean : kbnode_t,
        ~ has_secret_key_packet clean ->
        keyserver_retrieval_screener clean [] = 0).
Proof.
  intros [p [Hin Hty]].
  assert (Hrej : forall desc, keyserver_retrieval_screener keyblock desc = GPG_ERR_GENERAL).
  { intros desc. unfold keyserver_retrieval_screener.
    destruct (find_kbnode keyblock PKT_SECRET_KEY) eqn:E; [reflexivity|].
    exfalso. now apply (find_kbnode_some keyblock PKT_SECRET_KEY p). }
  split; [exact Hrej|]. split.
  - rewrite Hrej. discriminate.
  - intros clean Hclean. unfold keyserver_retrieval_screener.
    rewrite find_kbnode_none; [reflexivity|].
    intros q Hq Hs. apply Hclean. now exists q.
Qed.

Lemma screener_rejects_secret_key_witness :
  has_secret_key_packet secret_only_keyblock
  /\ keyserver_retrieval_screener secret_only_keyblock [] = GPG_ERR_GENERAL.
Proof.
  assert (H : has_secret_key_packet secret_only_keyblock).
  { exists (mk_packet PKT_SECRET_KEY (mk_pk [] 0 0)). simpl. auto. }
  split; [exact H|].
  apply (proj1 (screener_rejects_secret_key secret_only_keyblock H)).
Defined.

Lemma keyid64_inj (a b c d : Z) :
  is_u32 a -> is_u32 b -> is_u32 c -> is_u32 d ->
  keyid64 a b = keyid64 c d <-> a = c /\ b = d.
Proof.
  unfold is_u32, keyid64. intros Ha Hb Hc Hd. split.
  - intros H. assert (a = c) by nia. subst. split; [reflexivity | lia].
  - intros [-> ->]. reflexivity.
Qed.

Lemma keyid64_low (a b : Z) :
  is_u32 b -> Z.land (keyid64 a b) (2 ^ 32 - 1) = b.
Proof.
  unfold is_u32, keyid64. intros Hb.
  change (2 ^ 32 - 1) with (Z.ones 32).
  rewrite Z.land_ones by lia.
  rewrite Z.add_comm, Z.mod_add by lia.
  apply Z.mod_small. exact Hb.
Qed.

Lemma memcmp_eq_spec (a b : list byte) (n : nat) :
  List.length a = n ->
  memcmp_eq a b n = true <-> a = firstn n b.
Proof.
  intros <-. unfold memcmp_eq, byte_list_eqb. rewrite firstn_all.
  destruct (list_eq_dec byte_eq_dec a (firstn (List.length a) b));
    split; auto; discriminate.
Qed.

(** One description against one key: the branch taken by the inner loop
    accepts exactly under the tiered comparison. *)
Lemma screener_desc_loop_spec (pk : PKT_public_key) (desc : list KEYDB_SEARCH_DESC) :
  pk_wf pk -> Forall desc_wf desc ->
  screener_desc_loop pk desc = true <-> exists d, In d desc /\ tiered_match d pk.
Proof.
  intros [Hk0 Hk1] Hwf. induction Hwf as [|d rest Hd _ IH].
  - simpl. split; [discriminate | intros [d [[] _]]].
  - assert (Hcons : forall P : Prop,
               (P <-> tiered_match d pk) ->
               (P \/ screener_desc_loop pk rest = true) <->
               exists d', In d' (d :: rest) /\ tiered_match d' pk).
    { intros P HP. rewrite IH. split.
      - intros [H|[d' [Hin Hm]]].
        + exists d. split; [now left | now apply HP].
        + exists d'. split; [now right | exact Hm].
      - intros [d' [[<-|Hin] Hm]]; [left; now apply HP | right; now exists d']. }
    assert (Htriv : tiered_match d pk ->
               true = true <-> exists d', In d' (d :: rest) /\ tiered_match d' pk).
    { intros Hm. split; [|reflexivity]. intros _. exists d. split; [now left | exact Hm]. }
    destruct d as [ |name|kid1|kid0 kid1|fpr|fpr| | |m name]; cbn [screener_desc_loop];
      try (apply Htriv; exact I).
    + (* short key id *)
      destruct (Z.eqb_spec (pk_keyid1 pk) kid1) as [E|E].
      * apply Htriv. cbn [tiered_match]. rewrite keyid64_low; assumption.
      * rewrite <- (Hcons False); [tauto|].
        cbn [tiered_match]. rewrite keyid64_low by assumption. tauto.
    + (* long key id *)
      destruct Hd as [Hd0 Hd1].
      destruct (Z.eqb_spec (pk_keyid0 pk) kid0) as [E0|E0];
        destruct (Z.eqb_spec (pk_keyid1 pk) kid1) as [E1|E1]; cbn [andb]; cbv iota;
        try (apply Htriv; cbn [tiered_match]; now rewrite E0, E1);
        (rewrite <- (Hcons False); [tauto|]; cbn [tiered_match];
         rewrite keyid64_inj by assumption; tauto).
    + (* 16-byte fingerprint *)
      destruct (Nat.eqb_spec (List.length (pk_fingerprint pk)) 16) as [E|E]; cbn [andb].
      * destruct (memcmp_eq (pk_fingerprint pk) fpr 16) eqn:M.
        -- apply Htriv. cbn [tiered_match]. split; [exact E|]. apply memcmp_eq_spec; assumption.
        -- rewrite <- (Hcons False); [tauto|]. cbn [tiered_match]. split; [tauto|].
           intros [_ H]. apply memcmp_eq_spec in H; [congruence | exact E].
      * rewrite <- (Hcons False); [tauto|]. cbn [tiered_match]. tauto.
    + (* 20-byte fingerprint *)
      destruct (Nat.eqb_spec (List.length (pk_fingerprint pk)) 20) as [E|E]; cbn [andb].
      * destruct (memcmp_eq (pk_fingerprint pk) fpr 20) eqn:M.
        -- apply Htriv. cbn [tiered_match]. split; [exact E|]. apply memcmp_eq_spec; assumption.
        -- rewrite <- (Hcons False); [tauto|]. cbn [tiered_match]. split; [tauto|].
           intros [_ H]. apply memcmp_eq_spec in H; [congruence | exact E].
      * rewrite <- (Hcons False); [tauto|]. cbn [tiered_match]. tauto.
Qed.

Lemma screener_node_loop_spec (keyblock : kbnode_t) (desc : list KEYDB_SEARCH_DESC) :
  (forall p, In p keyblock -> pk_wf (pkt_public_key p)) -> Forall desc_wf desc ->
  screener_node_loop keyblock desc = true <->
  exists p d, In p keyblock /\ is_public_key_packet p /\ In d desc
              /\ tiered_match d (pkt_public_key p).
Proof.
  intros Hpk Hwf. induction keyblock as [|q next IH].
  - simpl. split; [discriminate | intros [p [d [[] _]]]].
  - assert (IH' := IH (fun p Hp => Hpk p (or_intror Hp))). clear IH.
    assert (Hq := screener_desc_loop_spec (pkt_public_key q) desc (Hpk q (or_introl eq_refl)) Hwf).
    assert (Hskip : ~ is_public_key_packet q ->
              screener_node_loop next desc = true <->
              exists p d, In p (q :: next) /\ is_public_key_packet p /\ In d desc
                          /\ tiered_match d (pkt_public_key p)).
    { intros Hn. rewrite IH'. split.
      - intros [p [d [Hin H]]]. exists p, d. split; [now right | exact H].
      - intros [p [d [[<-|Hin] [Hp H]]]]; [contradiction|]. exists p, d. auto. }
    assert (Hkey : is_public_key_packet q ->
              (if screener_desc_loop (pkt_public_key q) desc then true
               else screener_node_loop next desc) = true <->
              exists p d, In p (q :: next) /\ is_public_key_packet p /\ In d desc
                          /\ tiered_match d (pkt_public_key p)).
    { intros Hk. destruct (screener_desc_loop (pkt_public_key q) desc) eqn:E.
      - split; [|reflexivity]. intros _.
        destruct (proj1 Hq eq_refl) as [d [Hd Hm]]. exists q, d. simpl. auto.
      - rewrite IH'. split.
        + intros [p [d [Hin H]]]. exists p, d. split; [now right | exact H].
        + intros [p [d [[<-|Hin] [Hp [Hd Hm]]]]].
          * assert (false = true) by (apply Hq; now exists d). discriminate.
          * exists p, d. auto. }
    unfold is_public_key_packet in *. simpl screener_node_loop.
    destruct (pkttype q) eqn:Ety;
      try (apply Hkey; auto; fail);
      apply Hskip; intros [H|H]; discriminate.
Qed.

(** C2.  With a non-empty list of requested descriptions and a keyblock
    without secret-key packet, the screener accepts exactly when some
    public key or subkey packet matches some requested description
    under the tiered comparison: exact 20-byte fingerprint, exact
    16-byte fingerprint, the full 64-bit key id, the low 32 bits of the
    key id; a description of any other mode accepts any key packet. *)
Theorem screener_accepts_iff_tiered_match
  (keyblock : kbnode_t) (desc : list KEYDB_SEARCH_DESC) :
  desc <> [] ->
  ~ has_secret_key_packet keyblock ->
  (forall p, In p keyblock -> pk_wf (pkt_public_key p)) ->
  Forall desc_wf desc ->
  keyserver_retrieval_screener keyblock desc = 0 <->
  exists p d, In p keyblock /\ is_public_key_packet p /\ In d desc
              /\ tiered_match d (pkt_public_key p).
Proof.
  intros Hne Hsec Hpk Hwf. unfold keyserver_retrieval_screener.
  rewrite find_kbnode_none.
  2:{ intros q Hq Hs. apply Hsec. now exists q. }
  destruct desc as [|d0 rest]; [congruence|].
  rewrite <- (screener_node_loop_spec keyblock (d0 :: rest) Hpk Hwf).
  destruct (screener_node_loop keyblock (d0 :: rest)); split; auto; discriminate.
Qed.

Lemma screener_accepts_iff_tiered_match_witness :
  keyserver_retrieval_screener sample_keyblock [KEYDB_SEARCH_MODE_SHORT_KID 0x12345678] = 0
  <-> exists p d, In p sample_keyblock /\ is_public_key_packet p
                  /\ In d [KEYDB_SEARCH_MODE_SHORT_KID 0x12345678]
                  /\ tiered_match d (pkt_public_key p).
Proof.
  apply (screener_accepts_iff_tiered_match sample_keyblock
           [KEYDB_SEARCH_MODE_SHORT_KID 0x12345678]).
  - discriminate.
  - intros [p [[<-|[<-|[]]] H]]; discriminate.
  - intros p [<-|[<-|[]]]; unfold pk_wf, is_u32; simpl; lia.
  - repeat constructor; unfold is_u32; simpl; lia.
Defined.

(** The example of the specification: a short key id request accepts a
    key whose low 32 bits agree whatever the high bits are, a long key
    id request with other high bits rejects the same key. *)
Example screener_short_vs_long_kid :
  keyserver_retrieval_screener sample_keyblock [KEYDB_SEARCH_MODE_SHORT_KID 0x12345678] = 0
  /\ keyserver_retrieval_screener sample_keyblock
       [KEYDB_SEARCH_MODE_LONG_KID 0x11111111 0x12345678] = GPG_ERR_GENERAL.
Proof. split; reflexivity. Qed.

(** ** The chunk planner *)

Lemma chunk_loop_none (rest : list KEYDB_SEARCH_DESC) (idx linelen : nat)
  (pattern : list string) :
  chunk_loop (KEYDB_SEARCH_MODE_NONE :: rest) idx linelen pattern
  = chunk_loop rest (S idx) linelen pattern.
Proof. reflexivity. Qed.

(** One turn of the loop on a description that yields a pattern. *)
Lemma chunk_loop_cons (d : KEYDB_SEARCH_DESC) (rest : list KEYDB_SEARCH_DESC)
  (idx linelen : nat) (pattern : list string) :
  planner_supported d -> mode_set d = true ->
  chunk_loop (d :: rest) idx linelen pattern
  = if (negb (Nat.eqb idx 0)
        && Nat.ltb MAX_KS_GET_LINELEN (linelen + pattern_cost d))%bool
    then Some (pattern, idx, linelen)
    else chunk_loop rest (S idx) (linelen + pattern_cost d) (pattern ++ pattern_of d).
Proof.
  destruct d; simpl planner_supported; simpl mode_set; intros Hs Hm;
    try contradiction; try discriminate; reflexivity.
Qed.

Lemma total_cost_cons (d : KEYDB_SEARCH_DESC) (l : list KEYDB_SEARCH_DESC) :
  total_cost (d :: l) = (pattern_cost d + total_cost l)%nat.
Proof. reflexivity. Qed.

Lemma total_cost_app (l1 l2 : list KEYDB_SEARCH_DESC) :
  total_cost (l1 ++ l2) = (total_cost l1 + total_cost l2)%nat.
Proof.
  unfold total_cost. rewrite map_app, list_sum_app. reflexivity.
Qed.

(** Equality of two results of the loop that differ in the way their
    counters are written. *)
Ltac chunk_result_eq :=
  f_equal; apply f_equal2; [apply f_equal2|]; [reflexivity | lia | lia].

(** What the loop computes: it takes a prefix [taken] of the
    descriptions, every pattern-yielding member of which passed the
    length test, and stops either at the end or in front of a
    description that fails the test. *)
Lemma chunk_loop_inv (desc : list KEYDB_SEARCH_DESC) :
  Forall planner_supported desc ->
  forall (idx linelen : nat) (pattern : list string),
  exists taken rest,
    desc = taken ++ rest
    /\ chunk_loop desc idx linelen pattern
       = Some (pattern ++ flat_map pattern_of taken,
               (idx + List.length taken)%nat,
               (linelen + total_cost taken)%nat)
    /\ (rest = [] \/
        exists d rest', rest = d :: rest' /\ mode_set d = true
          /\ (idx + List.length taken)%nat <> 0%nat
          /\ (MAX_KS_GET_LINELEN < linelen + total_cost taken + pattern_cost d)%nat)
    /\ (forall pre d post, taken = pre ++ d :: post -> mode_set d = true ->
          (idx + List.length pre)%nat = 0%nat
          \/ (linelen + total_cost pre + pattern_cost d <= MAX_KS_GET_LINELEN)%nat).
Proof.
  induction 1 as [|d desc Hd _ IH]; intros idx linelen pattern.
  - exists [], []. simpl. rewrite app_nil_r, !Nat.add_0_r.
    repeat split; auto.
    intros pre d post Hpre. destruct pre; discriminate.
  - destruct (mode_set d) eqn:Hm.
    + rewrite chunk_loop_cons by assumption.
      destruct (negb (Nat.eqb idx 0)
                && Nat.ltb MAX_KS_GET_LINELEN (linelen + pattern_cost d))%bool eqn:Htest.
      * (* declare the end of this chunk *)
        apply andb_true_iff in Htest. destruct Htest as [Hidx Hlen].
        apply negb_true_iff, Nat.eqb_neq in Hidx. apply Nat.ltb_lt in Hlen.
        exists [], (d :: desc). simpl. rewrite app_nil_r, !Nat.add_0_r.
        repeat split; auto.
        -- right. exists d, desc. repeat split; auto.
        -- intros pre d' post Hpre. destruct pre; discriminate.
      * destruct (IH (S idx) (linelen + pattern_cost d)%nat (pattern ++ pattern_of d))
          as [taken [rest [Hdesc [Hrun [Hstop Htaken]]]]].
        exists (d :: taken), rest. split; [simpl; now f_equal|]. split.
        { rewrite Hrun. simpl flat_map. rewrite total_cost_cons, <- app_assoc.
          simpl List.length. chunk_result_eq. }
        split.
        { destruct Hstop as [->|[d' [rest' [-> [Hm' [Hi Hl]]]]]]; [now left|].
          right. exists d', rest'. rewrite total_cost_cons. simpl List.length.
          repeat split; auto; lia. }
        intros pre d' post Hpre Hm'. destruct pre as [|x pre].
        -- simpl in Hpre. injection Hpre as <- _. simpl.
           apply andb_false_iff in Htest. destruct Htest as [Hidx|Hlen].
           ++ apply negb_false_iff, Nat.eqb_eq in Hidx. left. lia.
           ++ apply Nat.ltb_ge in Hlen. right. unfold total_cost. simpl. lia.
        -- simpl in Hpre. injection Hpre as <- Hpre.
           destruct (Htaken pre d' post Hpre Hm') as [H0|Hle]; [lia|].
           right. rewrite total_cost_cons. lia.
    + (* KEYDB_SEARCH_MODE_NONE: continue *)
      destruct d; try discriminate.
      rewrite chunk_loop_none.
      destruct (IH (S idx) linelen pattern)
        as [taken [rest [Hdesc [Hrun [Hstop Htaken]]]]].
      exists (KEYDB_SEARCH_MODE_NONE :: taken), rest.
      split; [simpl; now f_equal|]. split.
      { rewrite Hrun. simpl flat_map. simpl List.length.
        rewrite total_cost_cons. simpl pattern_cost. chunk_result_eq. }
      split.
      { destruct Hstop as [->|[d' [rest' [-> [Hm' [Hi Hl]]]]]]; [now left|].
        right. exists d', rest'. simpl List.length.
        repeat split; auto; lia. }
      intros pre d' post Hpre Hm'. destruct pre as [|x pre].
      * simpl in Hpre. injection Hpre as <- _. discriminate.
      * simpl in Hpre. injection Hpre as <- Hpre.
        destruct (Htaken pre d' post Hpre Hm') as [H0|Hle]; [lia|].
        right. exact Hle.
Qed.

(** The planning part of [keyserver_get_chunk] on supported
    descriptions, in terms of the prefix it takes. *)
Lemma keyserver_get_chunk_inv (desc : list KEYDB_SEARCH_DESC) :
  Forall planner_supported desc ->
  exists taken rest,
    desc = taken ++ rest
    /\ keyserver_get_chunk desc = Some (flat_map pattern_of taken, List.length taken)
    /\ (rest = [] \/
        exists d rest', rest = d :: rest' /\ mode_set d = true
          /\ taken <> []
          /\ (MAX_KS_GET_LINELEN < 17 + total_cost taken + pattern_cost d)%nat)
    /\ (forall pre d post, taken = pre ++ d :: post -> mode_set d = true ->
          pre = []
          \/ (17 + total_cost pre + pattern_cost d <= MAX_KS_GET_LINELEN)%nat).
Proof.
  intros Hs.
  destruct (chunk_loop_inv desc Hs 0%nat 17%nat [])
    as [taken [rest [Hdesc [Hrun [Hstop Htaken]]]]].
  exists taken, rest. split; [exact Hdesc|]. split.
  { unfold keyserver_get_chunk. rewrite Hrun. reflexivity. }
  split.
  - destruct Hstop as [->|[d [rest' [-> [Hm [Hi Hl]]]]]]; [now left|].
    right. exists d, rest'. repeat split; auto.
    intros ->. now apply Hi.
  - intros pre d post Hpre Hm.
    destruct (Htaken pre d post Hpre Hm) as [H0|Hle]; [left|now right].
    destruct pre; [reflexivity | discriminate].
Qed.

Lemma pattern_cost_mode_set (d : KEYDB_SEARCH_DESC) :
  (0 < pattern_cost d)%nat -> mode_set d = true.
Proof. destruct d; simpl; intros H; try reflexivity; lia. Qed.

Lemma pattern_of_none (d : KEYDB_SEARCH_DESC) :
  planner_supported d -> mode_set d = false -> pattern_of d = [].
Proof. destruct d; simpl; intros; try discriminate; reflexivity. Qed.

(** A description whose cost alone passes the limit heads the prefix
    that holds it, and is the only member of that prefix to yield a
    pattern. *)
Lemma oversized_alone (taken : list KEYDB_SEARCH_DESC) (d : KEYDB_SEARCH_DESC) :
  Forall planner_supported taken ->
  (forall pre d' post, taken = pre ++ d' :: post -> mode_set d' = true ->
     pre = []
     \/ (17 + total_cost pre + pattern_cost d' <= MAX_KS_GET_LINELEN)%nat) ->
  In d taken -> (MAX_KS_GET_LINELEN < pattern_cost d)%nat ->
  flat_map pattern_of taken = pattern_of d.
Proof.
  intros Hs Htaken Hin Hbig.
  assert (Hm : mode_set d = true) by (apply pattern_cost_mode_set; lia).
  apply in_split in Hin. destruct Hin as [pre [post ->]].
  destruct (Htaken pre d post eq_refl Hm) as [->|Hle]; [|lia].
  simpl. rewrite <- (app_nil_r (pattern_of d)) at 2. f_equal.
  assert (Hnone : forall l1 l2, post = l1 ++ l2 -> flat_map pattern_of l2 = []).
  { intros l1 l2. revert l1. induction l2 as [|e l2 IH]; intros l1 Hpost; [reflexivity|].
    simpl. rewrite (IH (l1 ++ [e])) by (rewrite <- app_assoc; exact Hpost).
    rewrite app_nil_r.
    destruct (mode_set e) eqn:He.
    - exfalso. subst post.
      destruct (Htaken (d :: l1) e l2 eq_refl He) as [H0|Hle]; [discriminate|].
      rewrite total_cost_cons in Hle. lia.
    - apply pattern_of_none; [|exact He].
      rewrite Forall_forall in Hs. apply Hs. subst post.
      simpl. right. apply in_or_app. right. now left. }
  apply (Hnone [] post eq_refl).
Qed.

(** ** The retrieval driver *)

Lemma keyserver_get_loop_eq (ks_get : list gpg_error_t) (desc : list KEYDB_SEARCH_DESC)
  (requests : list (list string * nat)) :
  keyserver_get_loop ks_get desc requests
  = match keyserver_get_chunk desc with
    | None => None
    | Some (pattern, ndesc_used) =>
        match ks_get with
        | [] => None
        | err :: ks_get' =>
            if (negb (Z.eqb err 0) || Nat.leb (List.length desc) ndesc_used)%bool
            then Some (err, ks_get', requests ++ [(pattern, ndesc_used)])
            else keyserver_get_loop ks_get' (skipn ndesc_used desc)
                   (requests ++ [(pattern, ndesc_used)])
        end
    end.
Proof. destruct ks_get; reflexivity. Qed.

Lemma consumed_cons (pattern : list string) (used : nat)
  (requests : list (list string * nat)) :
  consumed ((pattern, used) :: requests) = (used + consumed requests)%nat.
Proof. reflexivity. Qed.

(** The loop of [keyserver_get] on supported descriptions, with results
    scripted for at least as many requests as there are descriptions
    (and for one request at least).  It returns; and when it returns
    success, the counts add up to the number of descriptions, the
    batches hold the patterns of all descriptions in order, and each
    description that is too long for the limit was a batch of its
    own. *)
Lemma keyserver_get_loop_spec (ks_get : list gpg_error_t) :
  forall (desc : list KEYDB_SEARCH_DESC) (requests : list (list string * nat)),
  Forall planner_supported desc ->
  (1 <= List.length ks_get)%nat ->
  (List.length desc <= List.length ks_get)%nat ->
  exists err ks_get' new,
    keyserver_get_loop ks_get desc requests = Some (err, ks_get', requests ++ new)
    /\ ks_get = repeat 0 (List.length new - 1) ++ err :: ks_get'
    /\ (err = 0 ->
        consumed new = List.length desc
        /\ List.concat (map fst new) = flat_map pattern_of desc
        /\ forall d, In d desc -> (MAX_KS_GET_LINELEN < pattern_cost d)%nat ->
             In (pattern_of d) (map fst new)).
Proof.
  induction ks_get as [|err ks_get IH]; intros desc requests Hs Hone Hlen.
  { simpl in Hone. lia. }
  destruct (keyserver_get_chunk_inv desc Hs)
    as [taken [rest [Hdesc [Hrun [Hstop Htaken]]]]].
  assert (Hst : Forall planner_supported taken /\ Forall planner_supported rest).
  { subst desc. now apply Forall_app. }
  destruct Hst as [Hst Hsr].
  rewrite keyserver_get_loop_eq, Hrun.
  assert (Hlast : rest = [] ->
     consumed [(flat_map pattern_of taken, List.length taken)] = List.length desc
     /\ List.concat (map fst [(flat_map pattern_of taken, List.length taken)])
        = flat_map pattern_of desc
     /\ forall d, In d desc -> (MAX_KS_GET_LINELEN < pattern_cost d)%nat ->
          In (pattern_of d) (map fst [(flat_map pattern_of taken, List.length taken)])).
  { intros ->. rewrite app_nil_r in Hdesc. subst taken.
    unfold consumed. simpl. rewrite app_nil_r. repeat split; try lia.
    intros d Hin Hbig. left. now apply oversized_alone. }
  destruct (negb (Z.eqb err 0)) eqn:Herr; simpl orb; cbv iota.
  - (* the request failed *)
    exists err, ks_get, [(flat_map pattern_of taken, List.length taken)].
    repeat split; try reflexivity;
      apply negb_true_iff, Z.eqb_neq in Herr; intros; contradiction.
  - apply negb_false_iff, Z.eqb_eq in Herr. subst err.
    destruct (Nat.leb (List.length desc) (List.length taken)) eqn:Hall.
    + (* all processed *)
      apply Nat.leb_le in Hall.
      assert (Hrest : rest = []).
      { subst desc. rewrite length_app in Hall.
        destruct rest; [reflexivity | simpl in Hall; lia]. }
      exists 0, ks_get, [(flat_map pattern_of taken, List.length taken)].
      split; [reflexivity|]. split; [reflexivity|]. intros _. now apply Hlast.
    + (* prepare for the next chunk *)
      apply Nat.leb_gt in Hall.
      destruct Hstop as [->|[d [rest' [Hrest [Hm [Hne Hover]]]]]].
      { rewrite app_nil_r in Hdesc. subst. lia. }
      assert (Hskip : skipn (List.length taken) desc = rest).
      { subst desc. rewrite skipn_app, skipn_all, Nat.sub_diag. reflexivity. }
      rewrite Hskip.
      assert (Hused : (1 <= List.length taken)%nat).
      { destruct taken; [congruence | simpl; lia]. }
      destruct (IH rest (requests ++ [(flat_map pattern_of taken, List.length taken)]) Hsr)
        as [err [ks_get' [new [Hloop [Hscript Hok]]]]].
      { subst desc. rewrite length_app, Hrest in Hlen. simpl in Hlen. lia. }
      { subst desc. rewrite length_app in Hlen. simpl in Hlen. lia. }
      exists err, ks_get', ((flat_map pattern_of taken, List.length taken) :: new).
      split.
      { rewrite Hloop, <- app_assoc. reflexivity. }
      split.
      { rewrite Hscript at 1.
        assert (Hnew : (1 <= List.length new)%nat).
        { destruct new as [|x new]; [|simpl; lia].
          exfalso. rewrite app_nil_r in Hloop.
          rewrite keyserver_get_loop_eq in Hloop.
          destruct (keyserver_get_chunk rest) as [[pattern used]|]; [|discriminate].
          destruct ks_get as [|e ks]; [discriminate|].
          assert (Hgrow : forall (ks : list gpg_error_t) (ds : list KEYDB_SEARCH_DESC)
                           (rq : list (list string * nat)) e' ks' rq',
                     keyserver_get_loop ks ds rq = Some (e', ks', rq') ->
                     (List.length rq < List.length rq')%nat).
          { clear. induction ks as [|e ks IHks]; intros ds rq e' ks' rq' H;
              rewrite keyserver_get_loop_eq in H;
              destruct (keyserver_get_chunk ds) as [[pattern used]|]; try discriminate.
            destruct (negb (Z.eqb e 0) || Nat.leb (List.length ds) used)%bool.
            - injection H as _ _ <-. rewrite length_app. simpl. lia.
            - apply IHks in H. rewrite length_app in H. simpl in H. lia. }
          destruct (negb (Z.eqb e 0) || Nat.leb (List.length rest) used)%bool.
          - injection Hloop as _ _ Hrq.
            apply (f_equal (@List.length _)) in Hrq.
            rewrite !length_app in Hrq. simpl in Hrq. lia.
          - apply Hgrow in Hloop. rewrite !length_app in Hloop. simpl in Hloop. lia. }
        simpl List.length.
        replace (S (List.length new) - 1)%nat with (S (List.length new - 1)) by lia.
        reflexivity. }
      intros Herr. destruct (Hok Herr) as [Hsum [Hcat Hbig]].
      rewrite consumed_cons, Hsum. subst desc.
      rewrite length_app, flat_map_app. simpl map. simpl List.concat. rewrite Hcat.
      repeat split; try reflexivity.
      intros d' Hin Hd'. apply in_app_or in Hin. destruct Hin as [Hin|Hin].
      * left. now apply oversized_alone.
      * right. now apply Hbig.
Qed.

(** C3.  [keyserver_get] on descriptions of the modes the planner
    handles, [KEYDB_SEARCH_MODE_NONE] included, with results scripted
    for its requests: the call returns, every request before the last
    was successful, and when the last is successful too the values of
    [*r_ndesc_used] add up to the number of descriptions, the batches
    hold the patterns of all descriptions in order, and any description
    whose cost alone is above the limit made up a batch of its own.
    Such a description at the head of the array is returned as the only
    pattern of the chunk, with at least one description used. *)
Theorem keyserver_get_consumes_all (desc : list KEYDB_SEARCH_DESC) (w : world) :
  Forall planner_supported desc ->
  (1 <= List.length (w_ks_get w))%nat ->
  (List.length desc <= List.length (w_ks_get w))%nat ->
  (exists err w' new,
     keyserver_get desc w = Some (err, w')
     /\ w_requests w' = w_requests w ++ new
     /\ w_ks_get w = repeat 0 (List.length new - 1) ++ err :: w_ks_get w'
     /\ (err = 0 ->
         consumed new = List.length desc
         /\ List.concat (map fst new) = flat_map pattern_of desc
         /\ forall d, In d desc -> (MAX_KS_GET_LINELEN < pattern_cost d)%nat ->
              In (pattern_of d) (map fst new)))
  /\ (forall d rest, desc = d :: rest -> (MAX_KS_GET_LINELEN < pattern_cost d)%nat ->
        exists used, keyserver_get_chunk desc = Some (pattern_of d, used)
                     /\ (1 <= used)%nat).
Proof.
  intros Hs Hone Hlen. split.
  - destruct (keyserver_get_loop_spec (w_ks_get w) desc (w_requests w) Hs Hone Hlen)
      as [err [ks_get' [new [Hloop [Hscript Hok]]]]].
    exists err, (mk_world (w_work w) (w_tty w) ks_get' (w_requests w ++ new)), new.
    unfold keyserver_get. rewrite Hloop. simpl. auto.
  - intros d rest -> Hbig.
    destruct (keyserver_get_chunk_inv (d :: rest) Hs)
      as [taken [rest' [Hdesc [Hrun [Hstop Htaken]]]]].
    assert (Hst : Forall planner_supported taken).
    { rewrite Hdesc in Hs. apply Forall_app in Hs. tauto. }
    destruct taken as [|d' taken].
    { destruct Hstop as [->|[e [r [_ [_ [Hne _]]]]]]; [discriminate | congruence]. }
    simpl in Hdesc. injection Hdesc as <- _.
    exists (List.length (d :: taken)). split; [|simpl; lia].
    rewrite Hrun. f_equal. f_equal.
    apply oversized_alone; auto. now left.
Qed.

Lemma keyserver_get_consumes_all_witness :
  (exists err w' new,
     keyserver_get oversized_then_kid two_good_requests = Some (err, w')
     /\ w_requests w' = w_requests two_good_requests ++ new
     /\ w_ks_get two_good_requests = repeat 0 (List.length new - 1) ++ err :: w_ks_get w'
     /\ (err = 0 ->
         consumed new = List.length oversized_then_kid
         /\ List.concat (map fst new) = flat_map pattern_of oversized_then_kid
         /\ forall d, In d oversized_then_kid ->
              (MAX_KS_GET_LINELEN < pattern_cost d)%nat ->
              In (pattern_of d) (map fst new)))
  /\ (forall d rest, oversized_then_kid = d :: rest ->
        (MAX_KS_GET_LINELEN < pattern_cost d)%nat ->
        exists used, keyserver_get_chunk oversized_then_kid = Some (pattern_of d, used)
                     /\ (1 <= used)%nat).
Proof.
  apply (keyserver_get_consumes_all oversized_then_kid two_good_requests).
  - repeat constructor.
  - simpl. lia.
  - simpl. lia.
Defined.

(** The run behind the witness: two requests, the over-long name alone
    in the first. *)
Example keyserver_get_oversized_run :
  keyserver_get oversized_then_kid two_good_requests
  = Some (0, mk_world WorkNull [] []
               [([("=" ++ long_name)%string], 1%nat);
                (["0x0000000100000002"], 1%nat)]).
Proof. vm_compute. reflexivity. Qed.

(** ** Costs, encodings and the end of a chunk *)

Lemma firstn_length_app {A : Type} (l1 l2 : list A) :
  firstn (List.length l1) (l1 ++ l2) = l1.
Proof. induction l1 as [|x l1 IH]; simpl; [now destruct l2 | now f_equal]. Qed.

Lemma string_length_append (a b : string) :
  String.length (a ++ b)%string = (String.length a + String.length b)%nat.
Proof. induction a as [|c a IH]; simpl; [reflexivity | now f_equal]. Qed.

Lemma bin2hex_length (buf : list byte) :
  String.length (bin2hex buf) = (2 * List.length buf)%nat.
Proof. induction buf as [|b buf IH]; simpl; [reflexivity | rewrite IH; lia]. Qed.

Lemma hex_digits_length (k : nat) : forall v, String.length (hex_digits k v) = k.
Proof.
  induction k as [|k IH]; intros v; simpl; [reflexivity|].
  rewrite string_length_append, IH. simpl. lia.
Qed.

Lemma fmt_08lX_length (v : Z) : String.length (fmt_08lX v) = 8%nat.
Proof. apply hex_digits_length. Qed.

(** The lengths of the patterns: "0x" with 40 or 32 digits for the
    fingerprints, with 16 or 8 digits for the key ids, "=" and the
    name. *)
Lemma pattern_lengths :
  (forall fpr, (20 <= List.length fpr)%nat ->
     String.length ("0x" ++ bin2hex (firstn 20 fpr)) = 42%nat)
  /\ (forall fpr, (16 <= List.length fpr)%nat ->
        String.length ("0x" ++ bin2hex (firstn 16 fpr)) = 34%nat)
  /\ (forall kid0 kid1,
        String.length ("0x" ++ fmt_08lX kid0 ++ fmt_08lX kid1) = 18%nat)
  /\ (forall kid1, String.length ("0x" ++ fmt_08lX kid1) = 10%nat)
  /\ (forall name, String.length ("=" ++ name) = (1 + String.length name)%nat).
Proof.
  repeat split; intros;
    repeat rewrite ?string_length_append, ?bin2hex_length, ?length_firstn, ?fmt_08lX_length;
    simpl String.length; lia.
Qed.

(** C4, amended.  The planner on supported descriptions.  Both
    fingerprint modes cost 43 and are encoded as "0x" and the
    hexadecimal digits of 20 resp. 16 bytes; a long key id costs 19
    and is "0x" with 16 digits; a short key id costs 11 and is "0x"
    with 8 digits; an exact name costs 2 + its length and is "=" with
    the name; [KEYDB_SEARCH_MODE_NONE] costs nothing and yields no
    pattern.  The costs are added to a base of 17.  The chunk is the
    longest run of descriptions in which every pattern-yielding one
    either is the first description of the run or keeps the length
    within 950: it ends in front of a description exactly when that
    description would take the length above 950 and at least one
    description, with or without a pattern, has been used. *)
Theorem chunk_plan_costs_and_end (desc : list KEYDB_SEARCH_DESC) :
  Forall planner_supported desc ->
  (exists pattern used,
     keyserver_get_chunk desc = Some (pattern, used)
     /\ (used <= List.length desc)%nat
     /\ pattern = flat_map pattern_of (firstn used desc)
     /\ (forall i d, (i < used)%nat -> nth_error desc i = Some d -> mode_set d = true ->
           i = 0%nat
           \/ (17 + total_cost (firstn i desc) + pattern_cost d <= 950)%nat)
     /\ ((used < List.length desc)%nat ->
         used <> 0%nat
         /\ exists d, nth_error desc used = Some d /\ mode_set d = true
              /\ (950 < 17 + total_cost (firstn used desc) + pattern_cost d)%nat))
  /\ (forall fpr,
        pattern_cost (KEYDB_SEARCH_MODE_FPR20 fpr) = 43%nat
        /\ pattern_of (KEYDB_SEARCH_MODE_FPR20 fpr)
           = [("0x" ++ bin2hex (firstn 20 fpr))%string]
        /\ pattern_cost (KEYDB_SEARCH_MODE_FPR16 fpr) = 43%nat
        /\ pattern_of (KEYDB_SEARCH_MODE_FPR16 fpr)
           = [("0x" ++ bin2hex (firstn 16 fpr))%string])
  /\ (forall kid0 kid1,
        pattern_cost (KEYDB_SEARCH_MODE_LONG_KID kid0 kid1) = 19%nat
        /\ pattern_of (KEYDB_SEARCH_MODE_LONG_KID kid0 kid1)
           = [("0x" ++ fmt_08lX kid0 ++ fmt_08lX kid1)%string]
        /\ pattern_cost (KEYDB_SEARCH_MODE_SHORT_KID kid1) = 11%nat
        /\ pattern_of (KEYDB_SEARCH_MODE_SHORT_KID kid1)
           = [("0x" ++ fmt_08lX kid1)%string]
        /\ String.length (fmt_08lX kid1) = 8%nat)
  /\ (forall name,
        pattern_cost (KEYDB_SEARCH_MODE_EXACT name) = (2 + String.length name)%nat
        /\ pattern_of (KEYDB_SEARCH_MODE_EXACT name) = [("=" ++ name)%string])
  /\ pattern_cost KEYDB_SEARCH_MODE_NONE = 0%nat
  /\ pattern_of KEYDB_SEARCH_MODE_NONE = [].
Proof.
  intros Hs. split.
  2:{ repeat split; auto using fmt_08lX_length. }
  destruct (keyserver_get_chunk_inv desc Hs)
    as [taken [rest [Hdesc [Hrun [Hstop Htaken]]]]].
  exists (flat_map pattern_of taken), (List.length taken).
  assert (Hfirst : firstn (List.length taken) desc = taken).
  { subst desc. apply firstn_length_app. }
  split; [exact Hrun|]. split.
  { subst desc. rewrite length_app. lia. }
  split; [now rewrite Hfirst|]. split.
  - intros i d Hi Hnth Hm.
    assert (Hnth' : nth_error taken i = Some d).
    { subst desc. rewrite nth_error_app1 in Hnth; assumption. }
    apply nth_error_split in Hnth'. destruct Hnth' as [pre [post [Htk Hpre]]].
    destruct (Htaken pre d post Htk Hm) as [->|Hle].
    + left. simpl in Hpre. now subst.
    + right. subst i desc taken. rewrite <- app_assoc, firstn_length_app. exact Hle.
  - intros Hused. rewrite Hfirst.
    destruct Hstop as [->|[d [rest' [-> [Hm [Hne Hover]]]]]].
    { subst desc. rewrite length_app in Hused. simpl in Hused. lia. }
    split; [destruct taken; [congruence | discriminate]|].
    exists d. split; [|split; [exact Hm | exact Hover]].
    subst desc. rewrite nth_error_app2, Nat.sub_diag by lia. reflexivity.
Qed.

Lemma chunk_plan_costs_and_end_witness :
  Forall planner_supported fifty_one_kids
  /\ exists pattern used,
       keyserver_get_chunk fifty_one_kids = Some (pattern, used)
       /\ (used <= List.length fifty_one_kids)%nat
       /\ pattern = flat_map pattern_of (firstn used fifty_one_kids).
Proof.
  assert (H : Forall planner_supported fifty_one_kids) by repeat constructor.
  split; [exact H|].
  destruct (proj1 (chunk_plan_costs_and_end fifty_one_kids H))
    as [pattern [used [Hrun [Hle [Hpat _]]]]].
  exists pattern, used. auto.
Defined.

(** C4 as stated fails.  With the stated cost of 18, fifty-one long key
    ids fit one batch (17 + 51 * 18 = 935); the code, at 19 each, ends
    the chunk after forty-nine.  And where the stated rule keeps a
    batch without pattern open, the code ends the chunk in front of an
    over-long name once a [KEYDB_SEARCH_MODE_NONE] entry has been
    used. *)
Lemma chunk_plan_stated_costs_fail :
  keyserver_get_chunk fifty_one_kids <> spec_get_chunk fifty_one_kids
  /\ option_map snd (keyserver_get_chunk fifty_one_kids) = Some 49%nat
  /\ option_map snd (spec_get_chunk fifty_one_kids) = Some 51%nat
  /\ keyserver_get_chunk none_then_oversized = Some ([], 1%nat)
  /\ spec_get_chunk none_then_oversized = Some ([("=" ++ long_name)%string], 2%nat)
  /\ pattern_cost (KEYDB_SEARCH_MODE_LONG_KID 1 2)
     <> spec_pattern_cost (KEYDB_SEARCH_MODE_LONG_KID 1 2).
Proof.
  split; [|split; [|split; [|split; [|split]]]].
  - intros H. apply (f_equal (option_map snd)) in H. vm_compute in H. discriminate.
  - vm_compute. reflexivity.
  - vm_compute. reflexivity.
  - vm_compute. reflexivity.
  - vm_compute. reflexivity.
  - vm_compute. discriminate.
Qed.

(** ** The record parser *)

Section ParserFacts.
Context {C : Collaborators}.

Lemma gpg_strsep_some (s delim : string) :
  gpg_strsep (Some s) delim
  = (Some (fst (split_at_delim s delim)), snd (split_at_delim s delim)).
Proof. unfold gpg_strsep. now destruct (split_at_delim s delim). Qed.

(** A line that is neither a pub line, nor a uid line while a record
    is in progress, leaves the record as it is and returns nothing. *)
Lemma parse_keyrec_line_dead (k : keyrec) (line : string) :
  mode_set (kr_desc k) = false -> is_pub_line line = false ->
  parse_keyrec_line k line = (k, None).
Proof.
  intros Hdead Hpub. unfold parse_keyrec_line. rewrite gpg_strsep_some.
  unfold is_pub_line, line_record in Hpub. rewrite Hpub, Hdead.
  now rewrite andb_false_r.
Qed.

Lemma parse_keyrec_lines_dead (k : keyrec) (lines : list string) :
  mode_set (kr_desc k) = false ->
  Forall (fun l => is_pub_line l = false) lines ->
  parse_keyrec_lines (WorkAt k) lines = Some (WorkAt k, []).
Proof.
  intros Hdead. induction 1 as [|l lines Hl _ IH]; [reflexivity|].
  simpl. rewrite parse_keyrec_line_dead, IH by assumption. reflexivity.
Qed.

(** A pub line whose token is not classified as a key id or a
    fingerprint: the record in progress, if any, is returned and the
    new record has no mode. *)
Lemma parse_pub_dead (k : keyrec) (rest tok : string) :
  fst (split_at_delim rest ":") = tok ->
  fst (classify_user_id tok) <> 0
  \/ is_key_id_mode (snd (classify_user_id tok)) = false ->
  exists dead,
    kr_desc dead = KEYDB_SEARCH_MODE_NONE
    /\ parse_pub k (Some rest) = (dead, record_in_progress (WorkAt k)).
Proof.
  intros Htok Hbad. unfold parse_pub, record_in_progress.
  destruct (classify_user_id tok) as [err d] eqn:E. simpl in Hbad.
  assert (Hcond : (negb (Z.eqb err 0) || negb (is_key_id_mode d))%bool = true).
  { destruct Hbad as [H|H].
    - apply Z.eqb_neq in H. now rewrite H.
    - rewrite H. apply orb_true_r. }
  destruct (mode_set (kr_desc k)); rewrite gpg_strsep_some, Htok, E, Hcond;
    eexists; (split; [|reflexivity]); reflexivity.
Qed.

(** C6.  A pub line whose token fails classification, or is
    classified to a mode that does not identify a key, starts a
    record without mode; what the call returns is the record that
    was in progress before, if any.  Every following line up to the
    next pub line, the uid lines among them, leaves the record as it
    is (no text appended, no line counted) and returns nothing, and
    the flush at the end of the stream releases the record and
    returns nothing. *)
Theorem dead_pub_block_emits_nothing
  (work : work_state) (line tok : string) (following : list string) :
  work <> WorkFreed ->
  is_pub_line line = true ->
  line_token line = Some tok ->
  fst (classify_user_id tok) <> 0
  \/ is_key_id_mode (snd (classify_user_id tok)) = false ->
  Forall (fun l => is_pub_line l = false) following ->
  exists dead,
    kr_desc dead = KEYDB_SEARCH_MODE_NONE
    /\ parse_keyrec work (Some line) = Some (WorkAt dead, record_in_progress work)
    /\ parse_keyrec_lines (WorkAt dead) following = Some (WorkAt dead, [])
    /\ parse_keyrec (WorkAt dead) None = Some (WorkFreed, None).
Proof.
  intros Hwork Hpub Htok Hbad Hfollow.
  unfold line_token in Htok.
  destruct (snd (split_at_delim (trim_trailing_ws line) ":")) as [rest|] eqn:Hrest;
    [|discriminate].
  injection Htok as Htok.
  assert (Hline : forall k,
            parse_keyrec_line k line = parse_pub k (Some rest)).
  { intros k. unfold parse_keyrec_line. rewrite gpg_strsep_some, Hrest.
    unfold is_pub_line, line_record in Hpub. now rewrite Hpub. }
  assert (Hgoal : forall k,
            (work = WorkNull /\ k = keyrec_clear) \/ work = WorkAt k ->
            parse_keyrec work (Some line)
            = (let '(k', ret) := parse_pub k (Some rest) in Some (WorkAt k', ret))).
  { intros k [[-> ->]| ->]; simpl; rewrite Hline;
      now destruct (parse_pub _ (Some rest)). }
  destruct work as [|k|]; [| |congruence].
  - destruct (parse_pub_dead keyrec_clear rest tok Htok Hbad) as [dead [Hdead Hrun]].
    exists dead. rewrite (Hgoal keyrec_clear) by auto. rewrite Hrun.
    repeat split; auto.
    + apply parse_keyrec_lines_dead; [now rewrite Hdead | exact Hfollow].
    + simpl. now rewrite Hdead.
  - destruct (parse_pub_dead k rest tok Htok Hbad) as [dead [Hdead Hrun]].
    exists dead. rewrite (Hgoal k) by auto. rewrite Hrun.
    repeat split; auto.
    + apply parse_keyrec_lines_dead; [now rewrite Hdead | exact Hfollow].
    + simpl. now rewrite Hdead.
Qed.
End ParserFacts.

Lemma dead_pub_block_emits_nothing_witness :
  exists dead,
    kr_desc dead = KEYDB_SEARCH_MODE_NONE
    /\ parse_keyrec (C := plain_collaborators) WorkNull (Some "pub:not-a-key:")
       = Some (WorkAt dead, record_in_progress WorkNull)
    /\ parse_keyrec_lines (C := plain_collaborators) (WorkAt dead) ["uid:%41%42:"]
       = Some (WorkAt dead, [])
    /\ parse_keyrec (C := plain_collaborators) (WorkAt dead) None = Some (WorkFreed, None).
Proof.
  apply (@dead_pub_block_emits_nothing plain_collaborators WorkNull
           "pub:not-a-key:" "not-a-key" ["uid:%41%42:"]).
  - discriminate.
  - reflexivity.
  - reflexivity.
  - right. reflexivity.
  - repeat constructor.
Defined.

Section RoundTrip.
Context {C : Collaborators}.

Hypothesis classify_long_kid :
  classify_user_id "1234567812345678"
  = (0, KEYDB_SEARCH_MODE_LONG_KID 0x12345678 0x12345678).
Hypothesis native_AB : utf8_to_native "AB" = "AB".
Hypothesis wide_enough : 12 <= screen_columns opt < 2 ^ 31.

Lemma parse_pub_sample :
  parse_keyrec_line keyrec_clear "pub:1234567812345678:1:2048:1000000000:0:"
  = ({| kr_desc := KEYDB_SEARCH_MODE_LONG_KID 0x12345678 0x12345678;
        kr_createtime := 1000000000;
        kr_expiretime := 0;
        kr_size := 2048;
        kr_flags := 0;
        kr_type := 1;
        kr_uidbuf := "";
        kr_lines := 1 |}, None).
Proof.
  unfold parse_keyrec_line.
  change (gpg_strsep (Some (trim_trailing_ws "pub:1234567812345678:1:2048:1000000000:0:")) ":")
    with (Some "pub", Some "1234567812345678:1:2048:1000000000:0:").
  change (Z.eqb (ascii_strcasecmp "pub" "pub") 0) with true. cbv iota.
  unfold parse_pub.
  change (mode_set (kr_desc keyrec_clear)) with false. cbv iota.
  change (gpg_strsep (Some "1234567812345678:1:2048:1000000000:0:") ":")
    with (Some "1234567812345678", Some "1:2048:1000000000:0:").
  cbv beta iota. rewrite classify_long_kid.
  vm_compute. reflexivity.
Qed.

Lemma no_truncation_AB :
  (Z.of_nat (String.length "AB") >? to_size_t (screen_columns opt - 10)) = false.
Proof.
  pose proof wide_enough as H. change (2 ^ 31) with 2147483648 in H.
  unfold to_size_t. change (2 ^ 64) with 18446744073709551616.
  rewrite Z.mod_small by lia.
  rewrite Z.gtb_ltb. apply Z.ltb_ge. simpl. lia.
Qed.

Lemma parse_uid_sample (k : keyrec) :
  mode_set (kr_desc k) = true ->
  parse_keyrec_line k "uid:%41%42:"
  = (incr_lines (set_uidbuf k (kr_uidbuf k ++ "AB" ++ uid_marker)%string), None).
Proof.
  intros Hlive. unfold parse_keyrec_line.
  change (gpg_strsep (Some (trim_trailing_ws "uid:%41%42:")) ":")
    with (Some "uid", Some "%41%42:").
  change (Z.eqb (ascii_strcasecmp "pub" "uid") 0) with false.
  change (Z.eqb (ascii_strcasecmp "uid" "uid") 0) with true.
  rewrite Hlive. cbv iota. simpl andb. cbv iota.
  unfold parse_uid.
  change (gpg_strsep (Some "%41%42:") ":") with (Some "%41%42", Some "").
  cbv beta iota.
  change (Nat.eqb (String.length "%41%42") 0) with false. cbv iota.
  change (percent_decode "%41%42") with "AB".
  rewrite native_AB.
  change (c_str "AB") with "AB". cbv zeta.
  rewrite no_truncation_AB. reflexivity.
Qed.

(** C5, amended.  The pub line, the uid line and the flush of the
    example, fed to a parser that has no record in progress: the two
    lines return nothing, the flush returns the one record, a second
    flush returns nothing.  The record has the long key id
    0x1234567812345678, algorithm 1, size 2048, creation time
    1000000000, no expiration, no flag, and its buffer holds "AB"
    followed by the line-continuation marker (line feed, tab). *)
Theorem pub_uid_flush_yields_one_record :
  exists w1 w2,
    parse_keyrec WorkNull (Some "pub:1234567812345678:1:2048:1000000000:0:")
    = Some (w1, None)
    /\ parse_keyrec w1 (Some "uid:%41%42:") = Some (w2, None)
    /\ parse_keyrec w2 None
       = Some (WorkNull,
               Some {| kr_desc := KEYDB_SEARCH_MODE_LONG_KID 0x12345678 0x12345678;
                       kr_createtime := 1000000000;
                       kr_expiretime := 0;
                       kr_size := 2048;
                       kr_flags := 0;
                       kr_type := 1;
                       kr_uidbuf := ("AB" ++ uid_marker)%string;
                       kr_lines := 2 |})
    /\ parse_keyrec WorkNull None = Some (WorkNull, None)
    /\ keyid64 0x12345678 0x12345678 = 0x1234567812345678.
Proof.
  pose (k1 := fst (parse_keyrec_line keyrec_clear
                     "pub:1234567812345678:1:2048:1000000000:0:")).
  assert (Hk1 : parse_keyrec_line keyrec_clear
                  "pub:1234567812345678:1:2048:1000000000:0:" = (k1, None)).
  { unfold k1. rewrite parse_pub_sample. reflexivity. }
  assert (Ek1 : k1 = fst (parse_keyrec_line keyrec_clear
                     "pub:1234567812345678:1:2048:1000000000:0:")) by reflexivity.
  rewrite parse_pub_sample in Ek1. simpl in Ek1. clearbody k1.
  exists (WorkAt k1),
         (WorkAt (incr_lines (set_uidbuf k1 (kr_uidbuf k1 ++ "AB" ++ uid_marker)%string))).
  split.
  { unfold parse_keyrec. rewrite Hk1. reflexivity. }
  split.
  { unfold parse_keyrec. rewrite parse_uid_sample; [reflexivity|].
    rewrite Ek1. reflexivity. }
  split; [rewrite Ek1; reflexivity|]. split; reflexivity.
Qed.
End RoundTrip.

Lemma plain_classify_long_kid :
  classify_user_id (Collaborators := plain_collaborators) "1234567812345678"
  = (0, KEYDB_SEARCH_MODE_LONG_KID 0x12345678 0x12345678).
Proof. vm_compute. reflexivity. Qed.

Lemma pub_uid_flush_yields_one_record_witness :
  exists w1 w2,
    parse_keyrec (C := plain_collaborators) WorkNull
      (Some "pub:1234567812345678:1:2048:1000000000:0:") = Some (w1, None)
    /\ parse_keyrec (C := plain_collaborators) w1 (Some "uid:%41%42:") = Some (w2, None)
    /\ parse_keyrec (C := plain_collaborators) w2 None
       = Some (WorkNull,
               Some {| kr_desc := KEYDB_SEARCH_MODE_LONG_KID 0x12345678 0x12345678;
                       kr_createtime := 1000000000;
                       kr_expiretime := 0;
                       kr_size := 2048;
                       kr_flags := 0;
                       kr_type := 1;
                       kr_uidbuf := ("AB" ++ uid_marker)%string;
                       kr_lines := 2 |})
    /\ parse_keyrec (C := plain_collaborators) WorkNull None = Some (WorkNull, None)
    /\ keyid64 0x12345678 0x12345678 = 0x1234567812345678.
Proof.
  apply (@pub_uid_flush_yields_one_record plain_collaborators).
  - exact plain_classify_long_kid.
  - reflexivity.
  - simpl. lia.
Defined.

(** C5 as stated fails: the record returned by the flush does not hold
    the bare text "AB" but "AB" and the marker. *)
Lemma pub_uid_flush_text_is_not_bare :
  ~ exists w1 w2 r,
      parse_keyrec (C := plain_collaborators) WorkNull
        (Some "pub:1234567812345678:1:2048:1000000000:0:") = Some (w1, None)
      /\ parse_keyrec (C := plain_collaborators) w1 (Some "uid:%41%42:") = Some (w2, None)
      /\ parse_keyrec (C := plain_collaborators) w2 None = Some (WorkNull, Some r)
      /\ kr_uidbuf r = "AB".
Proof.
  intros [w1 [w2 [r [H1 [H2 [H3 H4]]]]]].
  vm_compute in H1. injection H1 as <-.
  vm_compute in H2. injection H2 as <-.
  vm_compute in H3. injection H3 as <-.
  vm_compute in H4. discriminate.
Qed.

(** ** The selection prompt *)

Lemma strsep_tokens_unfold (s delim : string) :
  strsep_tokens s delim
  = fst (split_at_delim s delim)
    :: match snd (split_at_delim s delim) with
       | Some r => strsep_tokens r delim
       | None => []
       end.
Proof.
  induction s as [|c r IH]; simpl; [reflexivity|].
  destruct (str_mem c delim); simpl; [reflexivity|].
  rewrite IH. destruct (split_at_delim r delim) as [tok rest]. reflexivity.
Qed.

Lemma split_at_delim_shorter (s delim : string) (r : string) :
  snd (split_at_delim s delim) = Some r ->
  (String.length r < String.length s)%nat.
Proof.
  induction s as [|c s IH]; simpl; [discriminate|].
  destruct (str_mem c delim); simpl.
  - intros H. injection H as ->. lia.
  - destruct (split_at_delim s delim) as [tok rest]. simpl in *.
    intros H. specialize (IH H). lia.
Qed.

Lemma split_loop_S (fuel : nat) (split : option string) (numdesc : Z)
  (numarray : list Z) :
  split_loop (S fuel) split numdesc numarray
  = match gpg_strsep split " ," with
    | (None, _) => Some (Selected numarray)
    | (Some num, split') =>
        if token_in_range numdesc num
        then
          if Nat.leb DIM_numarray (List.length numarray)
          then Some TooManyKeys
          else split_loop fuel split' numdesc (numarray ++ [atoi num])
        else split_loop fuel split' numdesc numarray
    end.
Proof. reflexivity. Qed.

(** The splitting loop in terms of the selections of the answer: with
    enough fuel it ends, by "Too many keys selected" when a selection
    arrives while [numarray] is full, and with all selections appended
    otherwise. *)
Lemma split_loop_spec (numdesc : Z) (fuel : nat) :
  forall (s : string) (numarray : list Z),
  (String.length s + 2 <= fuel)%nat ->
  split_loop fuel (Some s) numdesc numarray
  = Some (if (negb (Nat.eqb (List.length (selections s numdesc)) 0)
              && Nat.ltb 50 (List.length numarray + List.length (selections s numdesc)))%bool
          then TooManyKeys
          else Selected (numarray ++ selections s numdesc)).
Proof.
  induction fuel as [|fuel IH]; intros s numarray Hfuel; [lia|].
  unfold selections. rewrite strsep_tokens_unfold, split_loop_S.
  unfold gpg_strsep.
  pose proof (split_at_delim_shorter s " ,") as Hshort.
  destruct (split_at_delim s " ,") as [tok rest]. cbn [fst snd] in *.
  set (sel := map atoi (filter (token_in_range numdesc)
                match rest with
                | Some r => strsep_tokens r " ,"
                | None => []
                end)).
  assert (Hrest : forall acc,
            split_loop fuel rest numdesc acc
            = Some (if (negb (Nat.eqb (List.length sel) 0)
                        && Nat.ltb 50 (List.length acc + List.length sel))%bool
                    then TooManyKeys else Selected (acc ++ sel))).
  { intros acc. unfold sel. destruct rest as [r|].
    - specialize (Hshort r eq_refl). rewrite IH by lia. reflexivity.
    - destruct fuel; [lia|]. simpl. now rewrite app_nil_r. }
  cbn [filter].
  destruct (token_in_range numdesc tok) eqn:Htok.
  - cbn [map]. fold sel. clearbody sel. cbn [List.length].
    change (negb (Nat.eqb (S (List.length sel)) 0)) with true. cbn [andb].
    destruct (Nat.leb DIM_numarray (List.length numarray)) eqn:Hfull.
    + apply Nat.leb_le in Hfull. unfold DIM_numarray in Hfull.
      destruct (Nat.ltb_spec 50 (List.length numarray + S (List.length sel)));
        [reflexivity | lia].
    + apply Nat.leb_gt in Hfull. unfold DIM_numarray in Hfull.
      rewrite Hrest, length_app, <- app_assoc. cbn [List.length app].
      replace (List.length numarray + 1 + List.length sel)%nat
        with (List.length numarray + S (List.length sel))%nat by lia.
      destruct (Nat.eqb_spec (List.length sel) 0) as [Hsel|Hsel]; cbn [negb andb];
        [|reflexivity].
      destruct (Nat.ltb_spec 50 (List.length numarray + S (List.length sel)));
        [lia | reflexivity].
  - fold sel. rewrite Hrest. reflexivity.
Qed.

Lemma delim_not_digit (c : ascii) :
  str_mem c " ," = true -> isdigit c = false /\ (isspace c = true \/ c = ","%char).
Proof.
  simpl. intros H. apply orb_true_iff in H. destruct H as [H|H].
  - apply Ascii.eqb_eq in H. subst. split; [reflexivity | now left].
  - rewrite orb_false_r in H. apply Ascii.eqb_eq in H. subst.
    split; [reflexivity | now right].
Qed.

Lemma digits_value_token (s : string) :
  forall acc, digits_value acc (fst (split_at_delim s " ,")) = digits_value acc s.
Proof.
  induction s as [|c r IH]; intros acc; [reflexivity|].
  cbn [split_at_delim]. destruct (str_mem c " ,") eqn:Hc.
  - apply delim_not_digit in Hc. destruct Hc as [Hd _].
    cbn [fst digits_value]. now rewrite Hd.
  - specialize (IH (10 * acc + Z.of_nat (char_code c - 48))).
    destruct (split_at_delim r " ,") as [tok rest]. cbn [fst] in *.
    cbn [digits_value]. now rewrite IH.
Qed.

Lemma scan_digits_token (neg : bool) (s : string) :
  scan_digits neg (fst (split_at_delim s " ,")) = scan_digits neg s.
Proof.
  pose proof (digits_value_token s 0) as Hv.
  destruct s as [|c r]; [reflexivity|].
  cbn [split_at_delim] in *. destruct (str_mem c " ,") eqn:Hc.
  - apply delim_not_digit in Hc. destruct Hc as [Hd _].
    cbn [fst scan_digits]. now rewrite Hd.
  - destruct (split_at_delim r " ,") as [tok rest]. cbn [fst] in *.
    unfold scan_digits. now rewrite Hv.
Qed.

(** The number read at the start of an answer is read from one of its
    tokens. *)
Lemma scan_decimal_token (s : string) (v : Z) :
  scan_decimal s = Some v ->
  exists tok, In tok (strsep_tokens s " ,") /\ scan_decimal tok = Some v.
Proof.
  induction s as [|c r IH]; [discriminate|].
  destruct (isspace c) eqn:Hsp.
  - (* white space in front: the number is read from what follows *)
    intros Hscan. unfold scan_decimal in Hscan. cbn [skip_space] in Hscan.
    rewrite Hsp in Hscan. destruct (IH Hscan) as [tok [Hin Htok]].
    cbn [strsep_tokens]. destruct (str_mem c " ,").
    + exists tok. split; [now right | exact Htok].
    + destruct (strsep_tokens r " ,") as [|t ts]; [contradiction|].
      destruct Hin as [<-|Hin].
      * exists (String c t). split; [now left|].
        unfold scan_decimal. cbn [skip_space]. now rewrite Hsp.
      * exists tok. split; [now right | exact Htok].
  - (* the number starts here: it lies within the first token *)
    intros Hscan. exists (fst (split_at_delim (String c r) " ,")).
    split; [rewrite strsep_tokens_unfold; now left|].
    rewrite <- Hscan. unfold scan_decimal.
    cbn [split_at_delim skip_space]. rewrite Hsp.
    destruct (str_mem c " ,") eqn:Hc.
    + exfalso. apply delim_not_digit in Hc. destruct Hc as [Hd [Hs|Hcomma]].
      * congruence.
      * subst c. unfold scan_decimal in Hscan. cbn in Hscan. discriminate.
    + pose proof (scan_digits_token true r) as Hneg.
      pose proof (scan_digits_token false r) as Hpos.
      pose proof (scan_digits_token false (String c r)) as Hnone.
      cbn [split_at_delim] in Hnone. rewrite Hc in Hnone.
      destruct (split_at_delim r " ,") as [tok rest]. cbn [fst] in *.
      cbn [skip_space]. rewrite Hsp.
      destruct (Ascii.eqb c "-"); [exact Hneg|].
      destruct (Ascii.eqb c "+"); [exact Hpos | exact Hnone].
Qed.

(** An answer that passes the test on its leading number has at least
    one selection: the re-prompt for an empty selection is never
    reached. *)
Lemma selections_nonempty (answer : string) (numdesc : Z) :
  token_in_range numdesc answer = true -> selections answer numdesc <> [].
Proof.
  unfold token_in_range, atoi at 1 2. intros Hrange.
  destruct (scan_decimal answer) as [v|] eqn:Hscan.
  2:{ simpl in Hrange. discriminate. }
  destruct (scan_decimal_token answer v Hscan) as [tok [Hin Htok]].
  assert (Hf : In tok (filter (token_in_range numdesc) (strsep_tokens answer " ,"))).
  { apply filter_In. split; [exact Hin|].
    unfold token_in_range, atoi. now rewrite Htok. }
  unfold selections. intros Hnil.
  apply map_eq_nil in Hnil. rewrite Hnil in Hf. contradiction.
Qed.

Lemma selections_in_range (answer : string) (numdesc : Z) :
  Forall (fun i => 1 <= i <= numdesc) (selections answer numdesc).
Proof.
  unfold selections. apply Forall_forall. intros i Hi.
  apply in_map_iff in Hi. destruct Hi as [tok [<- Htok]].
  apply filter_In in Htok. destruct Htok as [_ Htok].
  unfold token_in_range in Htok. apply andb_true_iff in Htok. lia.
Qed.

Lemma prompt_action_of_eq (answer : string) (numdesc : Z) :
  is_quit answer = false ->
  prompt_action_of answer numdesc
  = Some (if token_in_range numdesc answer
          then if Nat.ltb 50 (List.length (selections answer numdesc))
               then PromptAgain
               else PromptGet (selections answer numdesc)
          else PromptReturn).
Proof.
  intros Hq. unfold prompt_action_of. rewrite Hq.
  fold (token_in_range numdesc answer).
  destruct (token_in_range numdesc answer) eqn:Hr; [|reflexivity].
  rewrite split_loop_spec by lia.
  pose proof (selections_nonempty answer numdesc Hr) as Hne.
  destruct (selections answer numdesc) as [|i sel]; [congruence|].
  cbn [List.length Nat.eqb negb andb app Nat.add].
  destruct (Nat.ltb 50 (S (List.length sel))); reflexivity.
Qed.

(** C9, amended.  An answer that is not a quit.  When the integer at
    its start is within [1, n], the answer is split on blanks and
    commas and exactly the tokens that read as integers within [1, n]
    are kept, in order; there is at least one; with more than 50 of
    them the prompt is shown again and nothing is kept, otherwise the
    retrieval is called on exactly the records with those numbers.
    When the integer at the start is not within [1, n], which is the
    case whenever no token survives, the function returns success at
    once, without selection, retrieval or new prompt.  The answer
    "1,3,99" with n = 3 selects the records 1 and 3. *)
Theorem prompt_selects_in_range_tokens (answer : string) (numdesc : Z) :
  is_quit answer = false ->
  let sel := selections answer numdesc in
  Forall (fun i => 1 <= i <= numdesc) sel
  /\ (token_in_range numdesc answer = true -> sel <> [])
  /\ (sel = [] -> token_in_range numdesc answer = false)
  /\ (forall (desc : list KEYDB_SEARCH_DESC) (w : world) (tty : list string),
        w_tty w = answer :: tty ->
        show_prompt desc numdesc w
        = if token_in_range numdesc answer
          then if Nat.ltb 50 (List.length sel)
               then show_prompt desc numdesc (set_tty w tty)
               else keyserver_get
                      (map (fun i => nth (Z.to_nat (i - 1)) desc KEYDB_SEARCH_MODE_NONE) sel)
                      (set_tty w tty)
          else Some (0, set_tty w tty))
  /\ selections "1,3,99" 3 = [1; 3]
  /\ token_in_range 3 "1,3,99" = true.
Proof.
  intros Hq sel. split; [apply selections_in_range|]. split.
  { apply selections_nonempty. }
  split.
  { intros Hnil. destruct (token_in_range numdesc answer) eqn:Hr; [|reflexivity].
    exfalso. now apply (selections_nonempty answer numdesc Hr). }
  split; [|split; reflexivity].
  intros desc w tty Htty. unfold show_prompt. rewrite Htty.
  cbn [show_prompt_loop]. rewrite (prompt_action_of_eq answer numdesc Hq).
  fold sel. destruct (token_in_range numdesc answer); [|reflexivity].
  destruct (Nat.ltb 50 (List.length sel)); reflexivity.
Qed.

Lemma prompt_selects_in_range_tokens_witness :
  is_quit "1,3,99" = false
  /\ forall w tty, w_tty w = "1,3,99" :: tty ->
       show_prompt three_records 3 w
       = keyserver_get [KEYDB_SEARCH_MODE_LONG_KID 1 1; KEYDB_SEARCH_MODE_LONG_KID 3 3]
           (set_tty w tty).
Proof.
  split; [reflexivity|]. intros w tty Htty.
  destruct (prompt_selects_in_range_tokens "1,3,99" 3 eq_refl)
    as [_ [_ [_ [Hrun _]]]].
  exact (Hrun three_records w tty Htty).
Defined.

(** C9 as stated fails.  On the answer "n" no token survives, and the
    prompt is not shown again: the function returns success and leaves
    the next line of input unread.  On "99,1" the token "1" is within
    range, and nothing is selected. *)
Lemma prompt_returns_without_reprompt :
  selections "n" 3 = []
  /\ spec_prompt_action "n" 3 = PromptAgain
  /\ prompt_action_of "n" 3 = Some PromptReturn
  /\ show_prompt three_records 3 (world_init ["n"; "1"] [0])
     = Some (0, world_init ["1"] [0])
  /\ spec_prompt_action "99,1" 3 = PromptGet [1]
  /\ prompt_action_of "99,1" 3 = Some PromptReturn.
Proof. vm_compute. repeat split. Qed.

(** Numbers beyond the range of [long] at the prompt: [atoi] reads
    -1 or 0, neither of which selects a record, so that the answer
    "18446744073709551617" returns success without a request.  A
    number beyond the range of [int] is read by its low 32 bits. *)
Example atoi_beyond_long :
  atoi "18446744073709551617" = -1
  /\ atoi "-18446744073709551617" = 0
  /\ atoi "4294967297" = 1
  /\ token_in_range 3 "18446744073709551617" = false
  /\ show_prompt three_records 3 (world_init ["18446744073709551617"] [0])
     = Some (0, world_init [] [0]).
Proof. vm_compute. repeat split. Qed.

(** ** The search line handler *)

Section HandlerFacts.
Context {C : Collaborators}.

(** The handler on an info: line while no line has been taken into
    account yet. *)
Lemma search_line_handler_info (parm : search_line_handler_parm_s)
  (line : string) (w : world) :
  p_eof_seen parm = false -> p_any_lines parm = false ->
  ascii_strncasecmp "info:" line 5 = 0 ->
  search_line_handler parm 0 (Some line) w
  = Some (fst (handle_info parm line), snd (handle_info parm line), w).
Proof.
  intros Heof Hany Hinfo. unfold search_line_handler.
  cbn [Z.eqb negb]. rewrite Heof, Hany, Hinfo. cbn [negb Z.eqb andb].
  now destruct (handle_info parm line).
Qed.

(** A number within the range of [int] is read as it is declared. *)
Lemma to_int_in_range (v : Z) : in_int_range v -> to_int (strtol_value v) = v.
Proof.
  unfold in_int_range, INT_MIN, INT_MAX, to_int, strtol_value, LONG_MAX, LONG_MIN.
  change (2 ^ 31) with 2147483648. change (2 ^ 32) with 4294967296.
  change (2 ^ 63) with 9223372036854775808.
  intros Hv.
  destruct (Z.gtb_spec v (9223372036854775808 - 1)); [lia|].
  destruct (Z.ltb_spec v (- (9223372036854775808))); [lia|].
  rewrite Z.mod_small by lia. lia.
Qed.

Lemma sscanf_d_declared (field : string) (v : Z) :
  declared_number field = Some v -> sscanf_d field = Some (to_int (strtol_value v)).
Proof. unfold declared_number, sscanf_d. now intros ->. Qed.

(** C7, amended.  An info: line as the first line of a response,
    with version field [ver].  When [ver] declares a number, the
    handler returns [GPG_ERR_UNSUPPORTED_PROTOCOL], with the
    parameters and the parser untouched, exactly when the [int] that
    number is read into is not 1; that is so for every declared
    version within the range of [int] other than 1, whether or not a
    count field follows.  Otherwise, which includes the declared
    version 1, when the count field declares a number within the range
    of [int], a count of 0 sets [not_found], a negative count is
    replaced by 10 and [validcount] stays off, and a positive count is
    kept and [validcount] is set. *)
Theorem info_line_version_and_count
  (line ver : string) (str : option string) (w : world) :
  ascii_strncasecmp "info:" line 5 = 0 ->
  gpg_strsep (Some (str_drop 5 line)) ":" = (Some ver, str) ->
  (forall v, declared_number ver = Some v ->
     search_line_handler parm_zero 0 (Some line) w
     = Some (GPG_ERR_UNSUPPORTED_PROTOCOL, parm_zero, w)
     <-> to_int (strtol_value v) <> 1)
  /\ (forall v, declared_number ver = Some v -> in_int_range v -> v <> 1 ->
        search_line_handler parm_zero 0 (Some line) w
        = Some (GPG_ERR_UNSUPPORTED_PROTOCOL, parm_zero, w))
  /\ ((forall v, declared_number ver = Some v -> to_int (strtol_value v) = 1) ->
      forall cnt str' c,
        gpg_strsep str ":" = (Some cnt, str') ->
        declared_number cnt = Some c -> in_int_range c ->
        (c = 0 ->
         search_line_handler parm_zero 0 (Some line) w
         = Some (0, {| p_desc := None; p_count := 0; p_validcount := false;
                       p_nkeys := 0; p_any_lines := true; p_numlines := 0;
                       p_eof_seen := false; p_not_found := true |}, w))
        /\ (c < 0 ->
            search_line_handler parm_zero 0 (Some line) w
            = Some (0, {| p_desc := None; p_count := 10; p_validcount := false;
                          p_nkeys := 0; p_any_lines := true; p_numlines := 0;
                          p_eof_seen := false; p_not_found := false |}, w))
        /\ (0 < c ->
            search_line_handler parm_zero 0 (Some line) w
            = Some (0, {| p_desc := None; p_count := c; p_validcount := true;
                          p_nkeys := 0; p_any_lines := true; p_numlines := 0;
                          p_eof_seen := false; p_not_found := false |}, w))).
Proof.
  intros Hinfo Hver.
  rewrite (search_line_handler_info parm_zero line w eq_refl eq_refl Hinfo).
  unfold handle_info. rewrite Hver.
  split; [|split].
  - intros v Hv. rewrite (sscanf_d_declared ver v Hv).
    destruct (Z.eqb_spec (to_int (strtol_value v)) 1) as [Hone|Hne]; cbn [negb].
    + destruct (gpg_strsep str ":") as [tok rest]. cbn [fst snd].
      split; [|intros H; contradiction].
      intros H. injection H as H _. unfold GPG_ERR_UNSUPPORTED_PROTOCOL in H.
      discriminate H.
    + split; [auto | reflexivity].
  - intros v Hv Hrange Hne.
    rewrite (sscanf_d_declared ver v Hv), (to_int_in_range v Hrange).
    apply Z.eqb_neq in Hne. rewrite Hne. reflexivity.
  - intros Hok cnt str' c Hcnt Hc Hrange.
    assert (Hone : match sscanf_d ver with Some v => v | None => 1 end = 1).
    { unfold sscanf_d. unfold declared_number in Hok.
      destruct (scan_decimal ver) as [v|]; [apply Hok|]; reflexivity. }
    rewrite Hone, Hcnt, (sscanf_d_declared cnt c Hc), (to_int_in_range c Hrange).
    cbn [Z.eqb negb fst snd]. unfold info_count.
    cbn [set_p_count p_count].
    repeat split.
    + intros ->. reflexivity.
    + intros Hneg. destruct (Z.eqb_spec c 0); [lia|].
      destruct (Z.ltb_spec c 0); [reflexivity | lia].
    + intros Hpos. destruct (Z.eqb_spec c 0); [lia|].
      destruct (Z.ltb_spec c 0); [lia | reflexivity].
Qed.
End HandlerFacts.

Lemma info_line_version_and_count_witness :
  search_line_handler (C := plain_collaborators) parm_zero 0 (Some "info:2")
    (world_init [] [])
  = Some (GPG_ERR_UNSUPPORTED_PROTOCOL, parm_zero, world_init [] [])
  /\ search_line_handler (C := plain_collaborators) parm_zero 0 (Some "info:1:5:")
       (world_init [] [])
     = Some (0, {| p_desc := None; p_count := 5; p_validcount := true;
                   p_nkeys := 0; p_any_lines := true; p_numlines := 0;
                   p_eof_seen := false; p_not_found := false |}, world_init [] []).
Proof.
  split.
  - refine (proj1 (proj2 (@info_line_version_and_count plain_collaborators
                            "info:2" "2" None (world_init [] []) _ _)) 2 _ _ _).
    + reflexivity.
    + reflexivity.
    + reflexivity.
    + vm_compute. split; discriminate.
    + discriminate.
  - refine (proj2 (proj2 (proj2 (proj2 (@info_line_version_and_count plain_collaborators
                            "info:1:5:" "1" (Some "5:") (world_init [] []) _ _))
                            _ "5" (Some "") 5 _ _ _)) _).
    + reflexivity.
    + reflexivity.
    + intros v Hv. vm_compute in Hv. injection Hv as <-. reflexivity.
    + reflexivity.
    + reflexivity.
    + vm_compute. split; discriminate.
    + reflexivity.
Defined.

(** C7 as stated fails.  The version 4294967297 is a declared numeric
    version different from 1; it is read into the [int] 1 and the
    line is accepted, with its count.  A declared positive count of
    4294967296 is read as 0 and marks the search not found, a declared
    negative count of -4294967295 is read as 1 and kept as valid, and
    a count beyond the range of [long] is read as -1 and replaced by
    10. *)
Lemma info_version_beyond_int_is_accepted :
  declared_number "4294967297" = Some 4294967297
  /\ search_line_handler (C := plain_collaborators) parm_zero 0
       (Some "info:4294967297:5:") (world_init [] [])
     = Some (0, mk_parm None 5 true 0 true 0 false false, world_init [] [])
  /\ search_line_handler (C := plain_collaborators) parm_zero 0
       (Some "info:1:4294967296:") (world_init [] [])
     = Some (0, mk_parm None 0 false 0 true 0 false true, world_init [] [])
  /\ search_line_handler (C := plain_collaborators) parm_zero 0
       (Some "info:1:-4294967295:") (world_init [] [])
     = Some (0, mk_parm None 1 true 0 true 0 false false, world_init [] [])
  /\ search_line_handler (C := plain_collaborators) parm_zero 0
       (Some "info:1:18446744073709551616:") (world_init [] [])
     = Some (0, mk_parm None 10 false 0 true 0 false false, world_init [] [])
  /\ search_line_handler (C := plain_collaborators) parm_zero 0
       (Some "info:18446744073709551617:5:") (world_init [] [])
     = Some (GPG_ERR_UNSUPPORTED_PROTOCOL, parm_zero, world_init [] []).
Proof. vm_compute. repeat split. Qed.

(** The counts 0, -3 and 7 declared with version 1. *)
Example info_line_counts :
  search_line_handler (C := plain_collaborators) parm_zero 0 (Some "info:1:0:")
    (world_init [] [])
  = Some (0, mk_parm None 0 false 0 true 0 false true, world_init [] [])
  /\ search_line_handler (C := plain_collaborators) parm_zero 0 (Some "info:1:-3:")
       (world_init [] [])
     = Some (0, mk_parm None 10 false 0 true 0 false false, world_init [] [])
  /\ search_line_handler (C := plain_collaborators) parm_zero 0 (Some "info:1:7:")
       (world_init [] [])
     = Some (0, mk_parm None 7 true 0 true 0 false false, world_init [] []).
Proof. repeat split. Qed.



Section VersionFacts.
Context {C : Collaborators}.


End VersionFacts.


Section LateInfoLine.
Context {C : Collaborators}.

(** While the record in progress has no mode, a line returns no
    record. *)
Lemma parse_keyrec_line_fresh (k : keyrec) (line : string) :
  mode_set (kr_desc k) = false -> snd (parse_keyrec_line k line) = None.
Proof.
  intros Hk. unfold parse_keyrec_line.
  destruct (gpg_strsep (Some (trim_trailing_ws line)) ":") as [[record|] keystring];
    [|reflexivity].
  destruct (Z.eqb (ascii_strcasecmp "pub" record) 0).
  - unfold parse_pub. rewrite Hk.
    destruct (gpg_strsep keystring ":") as [[tok|] keystring']; [|reflexivity].
    destruct (classify_user_id tok) as [err d].
    destruct (negb (Z.eqb err 0) || negb (is_key_id_mode d))%bool; reflexivity.
  - destruct (Z.eqb (ascii_strcasecmp "uid" record) 0 && mode_set (kr_desc k))%bool;
      reflexivity.
Qed.

(** A first line that is not an info: line is given to the parser,
    which returns no record yet; the handler returns with
    [any_lines] still off. *)
Lemma first_record_line_keeps_any_lines (line : string) (w : world) :
  w_work w = WorkNull ->
  ascii_strncasecmp "info:" line 5 <> 0 ->
  exists k,
    search_line_handler parm_zero 0 (Some line) w
    = Some (0, parm_zero, set_work w (WorkAt k)).
Proof.
  intros Hwork Hinfo. unfold search_line_handler.
  apply Z.eqb_neq in Hinfo.
  cbn [Z.eqb negb parm_zero p_eof_seen p_any_lines]. rewrite Hinfo.
  cbn [andb handler_again]. rewrite Hwork. cbn [parse_keyrec].
  pose proof (parse_keyrec_line_fresh keyrec_clear line eq_refl) as Hret.
  destruct (parse_keyrec_line keyrec_clear line) as [k ret]. cbn [snd] in Hret.
  subst ret. exists k. reflexivity.
Qed.

(** C8, the defect.  The response "pub:..." followed by "info:2:5:":
    the first line is given to the parser and leaves [any_lines] off;
    the second line is then taken for an info: line and ends the
    search with [GPG_ERR_UNSUPPORTED_PROTOCOL].  [any_lines] is only
    set once a record has been saved, not once a line has been
    processed. *)
Theorem info_line_after_pub_line_is_recognised :
  exists w,
    search_line_handler parm_zero 0
      (Some "pub:1234567812345678:1:2048:1000000000:0:") (world_init [] [])
    = Some (0, parm_zero, w)
    /\ search_line_handler parm_zero 0 (Some "info:2:5:") w
       = Some (GPG_ERR_UNSUPPORTED_PROTOCOL, parm_zero, w)
    /\ feed_lines parm_zero
         [Some "pub:1234567812345678:1:2048:1000000000:0:"; Some "info:2:5:"]
         (world_init [] [])
       = Some (GPG_ERR_UNSUPPORTED_PROTOCOL, parm_zero, w).
Proof.
  destruct (first_record_line_keeps_any_lines
              "pub:1234567812345678:1:2048:1000000000:0:" (world_init [] []) eq_refl)
    as [k Hfirst]; [discriminate|].
  eexists. split; [exact Hfirst|].
  assert (Hinfo : forall w, search_line_handler parm_zero 0 (Some "info:2:5:") w
                            = Some (GPG_ERR_UNSUPPORTED_PROTOCOL, parm_zero, w)).
  { intros w. rewrite search_line_handler_info by reflexivity. reflexivity. }
  split; [apply Hinfo|].
  cbn [feed_lines]. rewrite Hfirst. cbn [Z.eqb]. rewrite Hinfo. reflexivity.
Qed.
End LateInfoLine.

(** ** The passes of the handler *)

Lemma keyserver_get_keeps_work (desc : list KEYDB_SEARCH_DESC) (w w' : world)
  (err : gpg_error_t) :
  keyserver_get desc w = Some (err, w') -> w_work w' = w_work w.
Proof.
  unfold keyserver_get.
  destruct (keyserver_get_loop (w_ks_get w) desc (w_requests w)) as [[[e ks] rq]|];
    [|discriminate].
  intros H. injection H as _ <-. reflexivity.
Qed.

Lemma show_prompt_loop_keeps_work (tty : list string) (desc : list KEYDB_SEARCH_DESC)
  (numdesc : Z) :
  forall (w w' : world) (err : gpg_error_t),
  show_prompt_loop tty desc numdesc w = Some (err, w') -> w_work w' = w_work w.
Proof.
  induction tty as [|answer tty IH]; intros w w' err; [discriminate|].
  cbn [show_prompt_loop].
  destruct (prompt_action_of answer numdesc) as [[ | |numarray| ]|]; try discriminate.
  - intros H. injection H as _ <-. reflexivity.
  - intros H. apply IH in H. exact H.
  - intros H. apply keyserver_get_keeps_work in H. exact H.
  - intros H. injection H as _ <-. reflexivity.
Qed.

Section HandlerPasses.
Context {C : Collaborators}.

Lemma save_keyrec_keeps (parm parm' : search_line_handler_parm_s) (kr : keyrec)
  (w w' : world) :
  save_keyrec parm kr w = Some (SaveDone parm' w') ->
  p_eof_seen parm' = p_eof_seen parm /\ w_work w' = w_work w.
Proof.
  unfold save_keyrec.
  assert (Hgrow : p_eof_seen (grow_desc parm) = p_eof_seen parm).
  { unfold grow_desc. destruct (p_desc parm).
    - destruct (Z.eqb (p_nkeys parm) (p_count parm)); reflexivity.
    - destruct (p_count parm <? 1); reflexivity. }
  destruct (negb (with_colons opt)).
  - destruct (to_uint (_ + kr_lines kr) >? to_uint (screen_lines opt - 1)).
    + unfold show_prompt.
      destruct (show_prompt_loop _ _ _ w) as [[err w1]|] eqn:Hprompt; [|discriminate].
      apply show_prompt_loop_keeps_work in Hprompt.
      destruct (negb (Z.eqb err 0)); [discriminate|].
      intros H. injection H as <- <-. split; [exact Hgrow | exact Hprompt].
    + intros H. injection H as <- <-. split; [exact Hgrow | reflexivity].
  - intros H. injection H as <- <-. split; [exact Hgrow | reflexivity].
Qed.

(** After a flush has returned the last record, [work] is NULL and
    the next pass ends whatever passes would be left. *)
Lemma handler_again_null (n m : nat) (parm : search_line_handler_parm_s) (w : world) :
  w_work w = WorkNull ->
  handler_again (S n) parm None w = handler_again (S m) parm None w.
Proof. intros Hw. cbn [handler_again]. rewrite Hw. reflexivity. Qed.

(** Two passes are enough: more fuel gives the same result. *)
Lemma handler_again_two_passes (n : nat) (parm : search_line_handler_parm_s)
  (line : option string) (w : world) :
  line = None \/ p_eof_seen parm = false ->
  handler_again (2 + n) parm line w = handler_again 2 parm line w.
Proof.
  intros Hline. cbn [Nat.add]. cbn [handler_again].
  destruct line as [l|].
  - destruct Hline as [Hl|Heof]; [discriminate|].
    destruct (parse_keyrec (w_work w) (Some l)) as [[work [kr|]]|]; try reflexivity.
    destruct (save_keyrec parm kr (set_work w work)) as [[err p1 w1|p1 w1]|] eqn:Hsave;
      try reflexivity.
    apply save_keyrec_keeps in Hsave. destruct Hsave as [Hsame _].
    rewrite Hsame, Heof. reflexivity.
  - destruct (parse_keyrec (w_work w) None) as [[work [kr|]]|] eqn:Hflush;
      try reflexivity.
    assert (Hwork : work = WorkNull).
    { cbn [parse_keyrec] in Hflush. destruct (w_work w) as [|k|]; try discriminate.
      destruct (mode_set (kr_desc k)); [|discriminate].
      injection Hflush as <- _. reflexivity. }
    destruct (save_keyrec (set_p_eof_seen parm true) kr (set_work w work))
      as [[err p1 w1|p1 w1]|] eqn:Hsave; try reflexivity.
    apply save_keyrec_keeps in Hsave. destruct Hsave as [_ Hw1].
    destruct (p_eof_seen p1); [|reflexivity].
    rewrite Hw1, Hwork. reflexivity.
Qed.
End HandlerPasses.

(** A whole search on an 80x24 terminal: a pub line, a uid line and the
    end of the stream; the record is saved, the prompt is shown, the
    answer "1" retrieves the key by its long key id. *)
Example search_pub_uid_eof_then_select :
  feed_lines (C := plain_collaborators) parm_zero
    [Some "pub:1234567812345678:1:2048:1000000000:0:"; Some "uid:%41%42:"; None]
    (world_init ["1"] [0])
  = Some (0,
          {| p_desc := Some (KEYDB_SEARCH_MODE_LONG_KID 0x12345678 0x12345678
                             :: repeat KEYDB_SEARCH_MODE_NONE 9);
             p_count := 10; p_validcount := false; p_nkeys := 1;
             p_any_lines := true; p_numlines := 2;
             p_eof_seen := true; p_not_found := false |},
          mk_world WorkNull [] [] [(["0x1234567812345678"], 1%nat)]).
Proof. vm_compute. reflexivity. Qed.

(* ================================================================== *)
(** * Further properties *)
(* ================================================================== *)

(** ** Records returned by the parser *)

Lemma lor_flag_range (a b : Z) :
  0 <= a < 8 -> 0 <= b < 8 -> 0 <= Z.lor a b < 8.
Proof.
  intros Ha Hb.
  assert (Ea : a = 0 \/ a = 1 \/ a = 2 \/ a = 3 \/ a = 4 \/ a = 5 \/ a = 6 \/ a = 7) by lia.
  assert (Eb : b = 0 \/ b = 1 \/ b = 2 \/ b = 3 \/ b = 4 \/ b = 5 \/ b = 6 \/ b = 7) by lia.
  repeat (destruct Ea as [->|Ea]); try subst a;
    repeat (destruct Eb as [->|Eb]); try subst b; vm_compute; split; congruence.
Qed.

Lemma parse_flag_chars_keeps (tok : string) :
  forall flags,
  0 <= flags < 8 ->
  0 <= parse_flag_chars tok flags < 8
  /\ (Z.testbit flags 2 = true -> Z.testbit (parse_flag_chars tok flags) 2 = true).
Proof.
  induction tok as [|c tok IH]; intros flags Hr; [simpl; auto|].
  cbn [parse_flag_chars].
  set (f := match c with
            | "r"%char | "R"%char => Z.lor flags 1
            | "d"%char | "D"%char => Z.lor flags 2
            | "e"%char | "E"%char => Z.lor flags 4
            | _ => flags
            end).
  assert (Hf : 0 <= f < 8 /\ (Z.testbit flags 2 = true -> Z.testbit f 2 = true)).
  { assert (Hor : forall b, 0 <= b < 8 ->
               0 <= Z.lor flags b < 8
               /\ (Z.testbit flags 2 = true -> Z.testbit (Z.lor flags b) 2 = true)).
    { intros b Hb. split; [now apply lor_flag_range|].
      intros Ht. rewrite Z.lor_spec, Ht. reflexivity. }
    unfold f. destruct c as [[] [] [] [] [] [] [] []];
      first [apply Hor; lia | split; [exact Hr | auto]]. }
  destruct Hf as [Hf1 Hf2]. destruct (IH f Hf1) as [IH1 IH2]. auto.
Qed.

(** Projections of records built by the setters. *)
Ltac keyrec_simpl :=
  cbn [kr_desc kr_createtime kr_expiretime kr_size kr_flags kr_type kr_uidbuf kr_lines
       set_desc set_createtime set_expiretime set_size set_flags set_type set_uidbuf
       incr_lines keyrec_clear].

Section ParserInvariant.
Context {C : Collaborators}.

Lemma keyrec_fields_ok_clear : keyrec_fields_ok keyrec_clear.
Proof. unfold keyrec_fields_ok. simpl. repeat split; lia. Qed.

Lemma atoi_range (s : string) : - 2 ^ 31 <= atoi s < 2 ^ 31.
Proof.
  unfold atoi. destruct (scan_decimal s) as [v|]; [|lia].
  unfold to_int. pose proof (Z.mod_pos_bound (strtol_value v + 2 ^ 31) (2 ^ 32)). lia.
Qed.

(** The optional fields of a pub line keep the description and leave
    well-formed fields. *)
Lemma parse_pub_fields_ok (k : keyrec) (keystring : option string) :
  keyrec_fields_ok k ->
  kr_desc (parse_pub_fields k keystring) = kr_desc k
  /\ keyrec_fields_ok (parse_pub_fields k keystring).
Proof.
  intros Hk. unfold parse_pub_fields.
  destruct (gpg_strsep keystring ":") as [[tok1|] ks1]; [|auto].
  set (k1 := set_type k (atoi tok1 mod 256)).
  assert (H1 : kr_desc k1 = kr_desc k /\ keyrec_fields_ok k1).
  { split; [reflexivity|]. unfold keyrec_fields_ok in *. unfold k1. keyrec_simpl.
    pose proof (Z.mod_pos_bound (atoi tok1) 256). intuition lia. }
  clearbody k1. destruct H1 as [D1 H1]. rewrite <- D1. clear D1 Hk k.
  destruct (gpg_strsep ks1 ":") as [[tok2|] ks2]; [|auto].
  set (k2 := set_size k1 (atoi tok2)).
  assert (H2 : kr_desc k2 = kr_desc k1 /\ keyrec_fields_ok k2).
  { split; [reflexivity|]. unfold keyrec_fields_ok in *. unfold k2. keyrec_simpl.
    exact H1. }
  clearbody k2. destruct H2 as [D2 H2]. rewrite <- D2. clear D2 H1 k1.
  destruct (gpg_strsep ks2 ":") as [[tok3|] ks3]; [|auto].
  set (k3 := if atoi tok3 <=? 0 then set_createtime k2 0
             else set_createtime k2 (atoi tok3)).
  assert (H3 : kr_desc k3 = kr_desc k2 /\ keyrec_fields_ok k3).
  { unfold k3. destruct (Z.leb_spec (atoi tok3) 0);
      (split; [reflexivity|]); unfold keyrec_fields_ok in *; keyrec_simpl; intuition lia. }
  clearbody k3. destruct H3 as [D3 H3]. rewrite <- D3. clear D3 H2 k2.
  destruct (gpg_strsep ks3 ":") as [[tok4|] ks4]; [|auto].
  set (k4 := if atoi tok4 <=? 0 then set_expiretime k3 0
             else
               let work := set_expiretime k3 (atoi tok4) in
               if kr_expiretime work <=? make_timestamp
               then set_flags work (Z.lor (kr_flags work) 4)
               else work).
  assert (H4 : kr_desc k4 = kr_desc k3 /\ keyrec_fields_ok k4).
  { unfold k4. destruct (Z.leb_spec (atoi tok4) 0).
    - split; [reflexivity|]. unfold keyrec_fields_ok in *. keyrec_simpl. intuition lia.
    - cbv zeta. cbn [set_expiretime kr_expiretime].
      destruct (Z.leb_spec (atoi tok4) make_timestamp).
      + split; [reflexivity|]. unfold keyrec_fields_ok in *. keyrec_simpl.
        destruct H3 as [Hc [He [Hf [Ht Hx]]]].
        repeat split; try lia; try (apply lor_flag_range; lia).
        intros _. rewrite Z.lor_spec. apply orb_true_r.
      + split; [reflexivity|]. unfold keyrec_fields_ok in *. keyrec_simpl. intuition lia. }
  clearbody k4. destruct H4 as [D4 H4]. rewrite <- D4. clear D4 H3 k3.
  destruct (gpg_strsep ks4 ":") as [[tok5|] ks5]; [|auto].
  split; [reflexivity|]. unfold keyrec_fields_ok in *. keyrec_simpl.
  destruct H4 as [Hc [He [Hf [Ht Hx]]]].
  destruct (parse_flag_chars_keeps tok5 (kr_flags k4) Hf) as [Hr Hb].
  repeat split; try lia. intros Hexp. apply Hb, Hx. exact Hexp.
Qed.

(** The uid branch changes the buffer and the line count only. *)
Lemma parse_uid_keeps (k : keyrec) (keystring : option string) :
  kr_desc (parse_uid k keystring) = kr_desc k
  /\ (keyrec_fields_ok k -> keyrec_fields_ok (parse_uid k keystring)).
Proof.
  unfold parse_uid.
  destruct (gpg_strsep keystring ":") as [[tok|] ks]; [|auto].
  destruct (Nat.eqb (String.length tok) 0); [auto|].
  split; [reflexivity|]. unfold keyrec_fields_ok. keyrec_simpl. auto.
Qed.

(** One line keeps [work] well-formed, and what it returns is the
    record that was in progress. *)
Lemma parse_keyrec_line_inv (k : keyrec) (line : string) :
  keyrec_ok k ->
  keyrec_ok (fst (parse_keyrec_line k line))
  /\ (snd (parse_keyrec_line k line) = None
      \/ (snd (parse_keyrec_line k line) = Some k /\ mode_set (kr_desc k) = true)).
Proof.
  intros Hk. unfold parse_keyrec_line.
  destruct (gpg_strsep (Some (trim_trailing_ws line)) ":") as [[record|] keystring];
    [|cbn; auto].
  destruct (Z.eqb (ascii_strcasecmp "pub" record) 0).
  - (* pub *)
    unfold parse_pub.
    assert (Hstart : exists ret,
              (if mode_set (kr_desc k) then (Some k, keyrec_clear) else (None, k))
              = (ret, keyrec_clear)
              /\ (ret = None \/ (ret = Some k /\ mode_set (kr_desc k) = true))).
    { unfold keyrec_ok in Hk. destruct (mode_set (kr_desc k)) eqn:Hm.
      - exists (Some k). auto.
      - exists None. subst k. auto. }
    destruct Hstart as [ret [-> Hret]].
    assert (Hclear : keyrec_ok keyrec_clear) by reflexivity.
    destruct (gpg_strsep keystring ":") as [[tok|] ks]; [|cbn; auto].
    destruct (classify_user_id tok) as [err d].
    destruct (negb (Z.eqb err 0) || negb (is_key_id_mode d))%bool eqn:Hbad;
      [cbn; auto|].
    cbn [fst snd]. split; [|exact Hret].
    apply orb_false_iff in Hbad. destruct Hbad as [_ Hd].
    apply negb_false_iff in Hd.
    destruct (parse_pub_fields_ok (incr_lines (set_desc keyrec_clear d)) ks)
      as [Hdesc Hfields].
    { unfold keyrec_fields_ok. keyrec_simpl. repeat split; lia. }
    unfold keyrec_ok. rewrite Hdesc. cbn [incr_lines set_desc kr_desc].
    assert (Hm : mode_set d = true) by (destruct d; try discriminate; reflexivity).
    rewrite Hm. auto.
  - destruct (Z.eqb (ascii_strcasecmp "uid" record) 0 && mode_set (kr_desc k))%bool eqn:Hu;
      [|cbn; auto].
    cbn [fst snd]. split; [|auto].
    apply andb_true_iff in Hu. destruct Hu as [_ Hm].
    destruct (parse_uid_keeps k keystring) as [Hdesc Hfields].
    unfold keyrec_ok in *. rewrite Hdesc, Hm in *. destruct Hk. auto.
Qed.

Lemma parse_keyrec_lines_inv (lines : list string) :
  forall w, work_ok w ->
  exists w' recs,
    parse_keyrec_lines w lines = Some (w', recs)
    /\ work_ok w'
    /\ (lines <> [] -> exists k, w' = WorkAt k)
    /\ Forall (fun r => is_key_id_mode (kr_desc r) = true /\ keyrec_fields_ok r) recs.
Proof.
  induction lines as [|line lines IH]; intros w Hw.
  { exists w, []. repeat split; auto. congruence. }
  assert (Hstep : exists k,
            (w = WorkNull /\ k = keyrec_clear \/ w = WorkAt k) /\ keyrec_ok k
            /\ parse_keyrec w (Some line)
               = Some (WorkAt (fst (parse_keyrec_line k line)),
                       snd (parse_keyrec_line k line))).
  { destruct w as [|k|]; [| |contradiction].
    - exists keyrec_clear. split; [auto|]. split; [reflexivity|].
      cbn. now destruct (parse_keyrec_line keyrec_clear line).
    - exists k. split; [auto|]. split; [exact Hw|].
      cbn. now destruct (parse_keyrec_line k line). }
  destruct Hstep as [k [_ [Hk Hrun]]].
  destruct (parse_keyrec_line_inv k line Hk) as [Hk' Hret].
  destruct (IH (WorkAt (fst (parse_keyrec_line k line))) Hk')
    as [w' [recs [Hrest [Hw' [Hat Hrecs]]]]].
  cbn [parse_keyrec_lines]. rewrite Hrun, Hrest.
  eexists. eexists. split; [reflexivity|]. split; [exact Hw'|]. split.
  { intros _. destruct lines as [|l lines'].
    - cbn in Hrest. injection Hrest as <- _. eauto.
    - apply Hat. discriminate. }
  destruct Hret as [-> | [-> Hm]]; [exact Hrecs|].
  constructor; [|exact Hrecs].
  unfold keyrec_ok in Hk. rewrite Hm in Hk. exact Hk.
Qed.

(** X1.  Whatever lines a parser without record in progress is given,
    followed by the flush: every call returns, and every record
    returned, during the lines or by the flush, has a description of
    one of the four modes that identify a key, times that are not
    negative, flags within the bits 1, 2 and 4, a type within a byte,
    and the expired bit set when its expiration time is not after the
    current time. *)
Theorem parser_returns_well_formed_records (lines : list string) :
  exists w recs w' last,
    parse_keyrec_lines WorkNull lines = Some (w, recs)
    /\ parse_keyrec w None = Some (w', last)
    /\ Forall (fun r => is_key_id_mode (kr_desc r) = true /\ keyrec_fields_ok r) recs
    /\ (forall r, last = Some r ->
          is_key_id_mode (kr_desc r) = true /\ keyrec_fields_ok r).
Proof.
  destruct (parse_keyrec_lines_inv lines WorkNull I) as [w [recs [Hrun [Hw [_ Hrecs]]]]].
  exists w, recs.
  destruct w as [|k|]; [| |contradiction].
  - exists WorkNull, None.
    split; [exact Hrun|]. split; [reflexivity|]. split; [exact Hrecs|].
    intros r H. discriminate.
  - cbn [parse_keyrec]. cbn [work_ok] in Hw. unfold keyrec_ok in Hw.
    destruct (mode_set (kr_desc k)) eqn:Hm.
    + exists WorkNull, (Some k).
      split; [exact Hrun|]. split; [reflexivity|]. split; [exact Hrecs|].
      intros r H. injection H as <-. exact Hw.
    + exists WorkFreed, None.
      split; [exact Hrun|]. split; [reflexivity|]. split; [exact Hrecs|].
      intros r H. discriminate.
Qed.
End ParserInvariant.

(** The lines at which [parse_keyrec] looks into the record are the
    pub and the uid lines. *)
Lemma line_reads_work_eq (line : string) :
  line_reads_work line = (is_pub_line line || is_uid_line line)%bool.
Proof.
  unfold line_reads_work, is_pub_line, is_uid_line, line_record.
  now rewrite gpg_strsep_some.
Qed.

Section ParserCount.
Context {C : Collaborators}.

Lemma parse_pub_fields_desc (k : keyrec) (keystring : option string) :
  kr_desc (parse_pub_fields k keystring) = kr_desc k.
Proof.
  unfold parse_pub_fields.
  repeat match goal with
         | |- context [gpg_strsep ?s ":"] =>
             destruct (gpg_strsep s ":") as [[?tok|] ?ks]; try reflexivity
         | |- context [if ?b then _ else _] => destruct b; try reflexivity
         end.
Qed.

(** One line: the records returned and in progress afterwards are the
    record in progress before and one more for a valid pub line. *)
Lemma parse_keyrec_line_count (k : keyrec) (line : string) :
  (returned (snd (parse_keyrec_line k line))
   + in_progress (WorkAt (fst (parse_keyrec_line k line))))%nat
  = (in_progress (WorkAt k) + (if valid_pub_line line then 1 else 0))%nat.
Proof.
  unfold parse_keyrec_line, valid_pub_line, is_pub_line, line_token, line_record.
  rewrite gpg_strsep_some.
  destruct (Z.eqb (ascii_strcasecmp "pub" (fst (split_at_delim (trim_trailing_ws line) ":"))) 0).
  - cbn [andb]. unfold parse_pub, in_progress, record_in_progress.
    destruct (snd (split_at_delim (trim_trailing_ws line) ":")) as [rest|].
    + rewrite gpg_strsep_some.
      destruct (classify_user_id (fst (split_at_delim rest ":"))) as [err d].
      cbn [fst snd].
      destruct (Z.eqb err 0); cbn [negb orb andb].
      * destruct (is_key_id_mode d) eqn:Hd; cbn [negb].
        -- assert (Hm : mode_set d = true) by (destruct d; try discriminate; reflexivity).
           destruct (mode_set (kr_desc k)); cbn [fst snd];
             rewrite parse_pub_fields_desc; cbn [incr_lines set_desc kr_desc];
             rewrite Hm; reflexivity.
        -- destruct (mode_set (kr_desc k)); reflexivity.
      * destruct (mode_set (kr_desc k)); reflexivity.
    + destruct (mode_set (kr_desc k)) eqn:Hm; cbn; rewrite ?Hm; reflexivity.
  - cbn [andb]. unfold in_progress, record_in_progress.
    destruct (Z.eqb (ascii_strcasecmp "uid" _) 0 && mode_set (kr_desc k))%bool;
      cbn [fst snd returned].
    + rewrite (proj1 (parse_uid_keeps k _)).
      destruct (mode_set (kr_desc k)); reflexivity.
    + destruct (mode_set (kr_desc k)); reflexivity.
Qed.

(** The same for a call of [parse_keyrec] that has a result; on a
    released record that is a line which is no pub line. *)
Lemma parse_keyrec_step_count (w w1 : work_state) (line : string) (ret : option keyrec) :
  parse_keyrec w (Some line) = Some (w1, ret) ->
  (returned ret + in_progress w1)%nat
  = (in_progress w + (if valid_pub_line line then 1 else 0))%nat.
Proof.
  destruct w as [|k|]; cbn [parse_keyrec].
  - pose proof (parse_keyrec_line_count keyrec_clear line) as Hline.
    destruct (parse_keyrec_line keyrec_clear line) as [k1 r].
    intros H. injection H as <- <-. exact Hline.
  - pose proof (parse_keyrec_line_count k line) as Hline.
    destruct (parse_keyrec_line k line) as [k1 r].
    intros H. injection H as <- <-. exact Hline.
  - destruct (line_reads_work line) eqn:Hreads; [discriminate|].
    intros H. injection H as <- <-.
    rewrite line_reads_work_eq in Hreads. apply orb_false_iff in Hreads.
    unfold valid_pub_line. now rewrite (proj1 Hreads).
Qed.

Lemma parse_keyrec_lines_count (lines : list string) :
  forall w w' recs,
  parse_keyrec_lines w lines = Some (w', recs) ->
  (List.length recs + in_progress w')%nat
  = (in_progress w + List.length (filter valid_pub_line lines))%nat.
Proof.
  induction lines as [|line lines IH]; intros w w' recs Hrun.
  { cbn in Hrun. injection Hrun as <- <-. cbn. lia. }
  cbn [parse_keyrec_lines] in Hrun.
  destruct (parse_keyrec w (Some line)) as [[w1 ret]|] eqn:Hstep; [|discriminate].
  destruct (parse_keyrec_lines w1 lines) as [[w2 recs1]|] eqn:Hrest; [|discriminate].
  injection Hrun as <- <-.
  apply IH in Hrest.
  pose proof (parse_keyrec_step_count w w1 line ret Hstep) as Hline.
  cbn [filter].
  destruct ret; destruct (valid_pub_line line);
    cbn [List.length returned] in *; lia.
Qed.

(** X2.  A parser without record in progress that is given any lines
    and then the flush returns exactly as many records as there are
    valid pub lines among them: pub lines whose token is classified,
    without error, as a key id or a fingerprint. *)
Theorem parser_returns_one_record_per_valid_pub_line (lines : list string) :
  exists w recs w' last,
    parse_keyrec_lines WorkNull lines = Some (w, recs)
    /\ parse_keyrec w None = Some (w', last)
    /\ (List.length recs + returned last)%nat
       = List.length (filter valid_pub_line lines).
Proof.
  destruct (parse_keyrec_lines_inv lines WorkNull I) as [w [recs [Hrun [Hw _]]]].
  pose proof (parse_keyrec_lines_count lines WorkNull w recs Hrun) as Hcount.
  exists w, recs.
  destruct w as [|k|]; [| |contradiction].
  - exists WorkNull, None. split; [exact Hrun|]. split; [reflexivity|].
    cbn in *. lia.
  - cbn [parse_keyrec]. unfold in_progress, record_in_progress in Hcount.
    destruct (mode_set (kr_desc k)).
    + exists WorkNull, (Some k). split; [exact Hrun|]. split; [reflexivity|].
      cbn in *. lia.
    + exists WorkFreed, None. split; [exact Hrun|]. split; [reflexivity|].
      cbn in *. lia.
Qed.
End ParserCount.

(** ** De-%-encoding and the uid branch *)

Lemma percent_decode_length_le (n : nat) :
  forall tok, (String.length tok <= n)%nat ->
  (String.length (percent_decode tok) <= String.length tok)%nat.
Proof.
  induction n as [|n IH]; intros tok Hn.
  { destruct tok; [simpl; lia | simpl in Hn; lia]. }
  destruct tok as [|c r]; [simpl; lia|].
  assert (Hr : (String.length (percent_decode r) <= String.length r)%nat).
  { apply IH. simpl in Hn. lia. }
  cbn [percent_decode].
  destruct r as [|h [|l r']]; try (cbn [String.length] in *; lia).
  destruct (Ascii.eqb c "%").
  - assert (Hr' : (String.length (percent_decode r') <= String.length r')%nat).
    { apply IH. simpl in Hn. lia. }
    cbn [String.length]. lia.
  - cbn [String.length] in *. lia.
Qed.

Lemma percent_decode_plain (n : nat) :
  forall tok, (String.length tok <= n)%nat ->
  str_mem "%" tok = false -> percent_decode tok = tok.
Proof.
  induction n as [|n IH]; intros tok Hn Hp.
  { destruct tok; [reflexivity | simpl in Hn; lia]. }
  destruct tok as [|c r]; [reflexivity|].
  cbn [str_mem] in Hp. apply orb_false_iff in Hp. destruct Hp as [Hc Hr].
  rewrite Ascii.eqb_sym in Hc.
  assert (Erest : percent_decode r = r) by (apply IH; [simpl in Hn; lia | exact Hr]).
  cbn [percent_decode]. rewrite Hc.
  destruct r as [|h [|l r']]; rewrite Erest; reflexivity.
Qed.

Lemma decoded_char_hex (c : ascii) :
  decoded_char (hexdigit_upper (char_code c / 16)) (hexdigit_upper (char_code c mod 16)) = c.
Proof. destruct c as [[] [] [] [] [] [] [] []]; vm_compute; reflexivity. Qed.

(** X3.  The de-%-encoding of the uid branch never yields more
    characters than it reads, so that decoding in place stays within
    the token; it leaves a token without '%' as it is; and it turns
    the %-encoding of any text back into that text. *)
Theorem percent_decode_shrinks_and_inverts (tok : string) :
  (String.length (percent_decode tok) <= String.length tok)%nat
  /\ (str_mem "%" tok = false -> percent_decode tok = tok)
  /\ percent_decode (percent_encode tok) = tok.
Proof.
  split; [now apply (percent_decode_length_le (String.length tok))|].
  split; [now apply (percent_decode_plain (String.length tok))|].
  induction tok as [|c r IH]; [reflexivity|].
  cbn [percent_encode percent_decode]. rewrite Ascii.eqb_refl, IH, decoded_char_hex.
  reflexivity.
Qed.

Lemma str_take_length (n : nat) :
  forall s, (String.length (str_take n s) <= n)%nat
            /\ (String.length (str_take n s) <= String.length s)%nat.
Proof.
  induction n as [|n IH]; intros s; [destruct s; simpl; lia|].
  destruct s as [|c s]; [simpl; lia|].
  cbn [str_take String.length]. destruct (IH s). lia.
Qed.

Section UidLine.
Context {C : Collaborators}.

(** X4.  A uid line with a non-empty token, while a record with a mode
    is in progress: one line is counted, and the buffer receives a
    text followed by the line feed and tab.  The text is the start of
    the token's de-%-encoded, converted text; it is the whole of it
    when that fits [screen_columns - 10] characters, and it is never
    longer than that when the screen has at least 10 columns.  Nothing
    else in the record changes and nothing is returned. *)
Theorem uid_line_appends_bounded_text (k : keyrec) (line tok : string) :
  mode_set (kr_desc k) = true ->
  is_pub_line line = false ->
  is_uid_line line = true ->
  line_token line = Some tok ->
  tok <> EmptyString ->
  exists n,
    parse_keyrec_line k line
    = (incr_lines (set_uidbuf k (kr_uidbuf k ++ str_take n (uid_text tok) ++ uid_marker)%string),
       None)
    /\ (Z.of_nat (String.length (uid_text tok)) <= to_size_t (screen_columns opt - 10) ->
        str_take n (uid_text tok) = uid_text tok)
    /\ (10 <= screen_columns opt < 2 ^ 31 ->
        Z.of_nat (String.length (str_take n (uid_text tok))) <= screen_columns opt - 10).
Proof.
  intros Hlive Hpub Huid Htok Hne.
  unfold is_pub_line, is_uid_line, line_record in *.
  unfold line_token in Htok.
  destruct (snd (split_at_delim (trim_trailing_ws line) ":")) as [rest|] eqn:Hrest;
    [|discriminate].
  injection Htok as Htok.
  assert (Hlen : Nat.eqb (String.length tok) 0 = false).
  { destruct tok; [congruence | reflexivity]. }
  assert (Hfull : str_take (String.length (uid_text tok)) (uid_text tok) = uid_text tok).
  { generalize (uid_text tok). intros s. induction s as [|c s IH]; simpl; congruence. }
  assert (Hrun : forall d,
            d = (if Z.of_nat (String.length (uid_text tok))
                    >? to_size_t (screen_columns opt - 10)
                 then str_take (Z.to_nat (screen_columns opt - 10)) (uid_text tok)
                 else uid_text tok) ->
            parse_keyrec_line k line
            = (incr_lines (set_uidbuf k (kr_uidbuf k ++ d ++ uid_marker)%string), None)).
  { intros d ->. unfold parse_keyrec_line. rewrite gpg_strsep_some, Hrest, Hpub, Huid, Hlive.
    cbn [andb]. unfold parse_uid. rewrite gpg_strsep_some, Htok, Hlen. reflexivity. }
  destruct (Z.of_nat (String.length (uid_text tok))
            >? to_size_t (screen_columns opt - 10)) eqn:Hcut.
  - exists (Z.to_nat (screen_columns opt - 10)).
    split; [now apply Hrun|]. split.
    + intros Hfit. rewrite Z.gtb_ltb in Hcut. apply Z.ltb_lt in Hcut. lia.
    + intros Hcols.
      destruct (str_take_length (Z.to_nat (screen_columns opt - 10)) (uid_text tok)).
      lia.
  - exists (String.length (uid_text tok)). rewrite Hfull.
    split; [now apply Hrun|]. split; [reflexivity|].
    intros Hcols. rewrite Z.gtb_ltb in Hcut. apply Z.ltb_ge in Hcut.
    unfold to_size_t in Hcut. change (2 ^ 31) with 2147483648 in Hcols.
    change (2 ^ 64) with 18446744073709551616 in Hcut.
    rewrite Z.mod_small in Hcut by lia. exact Hcut.
Qed.
End UidLine.

Lemma uid_line_appends_bounded_text_witness :
  exists n,
    parse_keyrec_line (C := plain_collaborators)
      (set_desc keyrec_clear (KEYDB_SEARCH_MODE_SHORT_KID 1)) "uid:%41%42:"
    = (incr_lines
         (set_uidbuf (set_desc keyrec_clear (KEYDB_SEARCH_MODE_SHORT_KID 1))
            (str_take n (uid_text (C := plain_collaborators) "%41%42") ++ uid_marker)%string),
       None).
Proof.
  destruct (@uid_line_appends_bounded_text plain_collaborators
              (set_desc keyrec_clear (KEYDB_SEARCH_MODE_SHORT_KID 1))
              "uid:%41%42:" "%41%42" eq_refl eq_refl eq_refl eq_refl)
    as [n [Hrun _]]; [discriminate|].
  exists n. exact Hrun.
Defined.

(** ** The flush and the static pointer *)

Section Flush.
Context {C : Collaborators}.

Lemma parse_keyrec_line_live (k : keyrec) (line : string) :
  mode_set (kr_desc (fst (parse_keyrec_line k line)))
  = if is_pub_line line then valid_pub_line line else mode_set (kr_desc k).
Proof.
  unfold parse_keyrec_line, valid_pub_line, is_pub_line, line_token, line_record.
  rewrite gpg_strsep_some.
  destruct (Z.eqb (ascii_strcasecmp "pub" (fst (split_at_delim (trim_trailing_ws line) ":"))) 0).
  - cbn [andb]. unfold parse_pub.
    destruct (snd (split_at_delim (trim_trailing_ws line) ":")) as [rest|].
    + rewrite gpg_strsep_some.
      destruct (classify_user_id (fst (split_at_delim rest ":"))) as [err d].
      cbn [fst snd].
      destruct (Z.eqb err 0); cbn [negb orb andb].
      * destruct (is_key_id_mode d) eqn:Hd; cbn [negb].
        -- assert (Hm : mode_set d = true) by (destruct d; try discriminate; reflexivity).
           destruct (mode_set (kr_desc k)); cbn [fst snd];
             rewrite parse_pub_fields_desc; exact Hm.
        -- destruct (mode_set (kr_desc k)); reflexivity.
      * destruct (mode_set (kr_desc k)); reflexivity.
    + destruct (mode_set (kr_desc k)) eqn:Hm; cbn; rewrite ?Hm; reflexivity.
  - destruct (Z.eqb (ascii_strcasecmp "uid" _) 0 && mode_set (kr_desc k))%bool;
      cbn [fst snd]; [|reflexivity].
    now rewrite (proj1 (parse_uid_keeps k _)).
Qed.

Lemma parse_keyrec_lines_live (lines : list string) :
  forall k w recs,
  parse_keyrec_lines (WorkAt k) lines = Some (w, recs) ->
  exists k', w = WorkAt k'
             /\ mode_set (kr_desc k') = live_after (mode_set (kr_desc k)) lines.
Proof.
  induction lines as [|line lines IH]; intros k w recs Hrun.
  { cbn in Hrun. injection Hrun as <- _. exists k. auto. }
  cbn [parse_keyrec_lines parse_keyrec] in Hrun.
  pose proof (parse_keyrec_line_live k line) as Hlive.
  destruct (parse_keyrec_line k line) as [k1 ret]. cbn [fst] in Hlive.
  destruct (parse_keyrec_lines (WorkAt k1) lines) as [[w1 recs1]|] eqn:Hrest;
    [|discriminate].
  injection Hrun as <- _.
  destruct (IH k1 w1 recs1 Hrest) as [k' [-> Hk']].
  exists k'. split; [reflexivity|]. cbn [live_after]. now rewrite <- Hlive.
Qed.

(** X5.  After a response of at least one line, [work] points to a
    record.  When the last pub line was valid, the flush returns that
    record and resets [work], and a second flush returns nothing.
    When it was not, or there was no pub line, the flush releases the
    record and returns nothing but leaves [work] pointing to it.  From
    then on a further flush, a pub line and a uid line each read
    released memory, while a line with any other tag returns nothing
    without a look at the record and leaves [work] as it is. *)
Theorem flush_resets_or_leaves_work_dangling (lines : list string) :
  lines <> [] ->
  exists k recs,
    parse_keyrec_lines WorkNull lines = Some (WorkAt k, recs)
    /\ if live_after false lines
       then parse_keyrec (WorkAt k) None = Some (WorkNull, Some k)
            /\ parse_keyrec WorkNull None = Some (WorkNull, None)
       else parse_keyrec (WorkAt k) None = Some (WorkFreed, None)
            /\ parse_keyrec WorkFreed None = None
            /\ forall line,
                 parse_keyrec WorkFreed (Some line)
                 = if (is_pub_line line || is_uid_line line)%bool then None
                   else Some (WorkFreed, None).
Proof.
  intros Hne. destruct lines as [|line lines]; [congruence|].
  destruct (parse_keyrec_lines_inv (line :: lines) WorkNull I)
    as [w [recs [Hrun _]]].
  assert (Hfirst : parse_keyrec_lines WorkNull (line :: lines)
                   = parse_keyrec_lines (WorkAt keyrec_clear) (line :: lines))
    by reflexivity.
  rewrite Hfirst in Hrun.
  destruct (parse_keyrec_lines_live (line :: lines) keyrec_clear w recs Hrun)
    as [k [-> Hk]].
  exists k, recs. rewrite Hfirst. split; [exact Hrun|].
  change (mode_set (kr_desc keyrec_clear)) with false in Hk.
  cbn [parse_keyrec]. rewrite Hk.
  destruct (live_after false (line :: lines)).
  - split; reflexivity.
  - split; [reflexivity|]. split; [reflexivity|].
    intros l. now rewrite line_reads_work_eq.
Qed.
End Flush.

Lemma flush_resets_or_leaves_work_dangling_witness :
  exists k recs,
    parse_keyrec_lines (C := plain_collaborators) WorkNull ["pub:not-a-key:"; "uid:x:"]
    = Some (WorkAt k, recs)
    /\ parse_keyrec (C := plain_collaborators) (WorkAt k) None = Some (WorkFreed, None)
    /\ parse_keyrec (C := plain_collaborators) WorkFreed None = None
    /\ forall line,
         parse_keyrec (C := plain_collaborators) WorkFreed (Some line)
         = if (is_pub_line line || is_uid_line line)%bool then None
           else Some (WorkFreed, None).
Proof.
  destruct (@flush_resets_or_leaves_work_dangling plain_collaborators
              ["pub:not-a-key:"; "uid:x:"]) as [k [recs [Hrun Hflush]]];
    [discriminate|].
  exists k, recs. split; [exact Hrun|].
  change (live_after (C := plain_collaborators) false ["pub:not-a-key:"; "uid:x:"])
    with false in Hflush.
  exact Hflush.
Defined.

(** ** The length of a request *)

Lemma pattern_of_length_le_cost (d : KEYDB_SEARCH_DESC) :
  (list_sum (map (fun p => S (String.length p)) (pattern_of d)) <= pattern_cost d)%nat.
Proof.
  destruct d; cbn [pattern_of pattern_cost map];
    repeat rewrite ?string_length_append, ?bin2hex_length, ?fmt_08lX_length,
      ?length_firstn;
    unfold list_sum; cbn [String.length fold_right];
    try match goal with
        | |- context [Nat.min ?a ?b] => pose proof (Nat.le_min_l a b)
        end; lia.
Qed.

Lemma patterns_length_le_cost (l : list KEYDB_SEARCH_DESC) :
  (list_sum (map (fun p => S (String.length p)) (flat_map pattern_of l)) <= total_cost l)%nat.
Proof.
  induction l as [|d l IH]; [simpl; lia|].
  cbn [flat_map]. rewrite map_app, list_sum_app, total_cost_cons.
  pose proof (pattern_of_length_le_cost d). lia.
Qed.

(** A run of descriptions in which every pattern-yielding one is the
    first or passed the length test stays within the limit, unless its
    first description alone is beyond it and is its only pattern. *)
Lemma taken_within_limit (taken : list KEYDB_SEARCH_DESC) :
  Forall planner_supported taken ->
  (forall pre d post, taken = pre ++ d :: post -> mode_set d = true ->
     pre = []
     \/ (17 + total_cost pre + pattern_cost d <= MAX_KS_GET_LINELEN)%nat) ->
  (17 + total_cost taken <= MAX_KS_GET_LINELEN)%nat
  \/ exists d post, taken = d :: post /\ flat_map pattern_of post = []
                    /\ (MAX_KS_GET_LINELEN < 17 + pattern_cost d)%nat.
Proof.
  induction taken as [|x t IH] using rev_ind; intros Hs Htaken.
  { left. unfold total_cost, MAX_KS_GET_LINELEN. simpl. lia. }
  apply Forall_app in Hs. destruct Hs as [Hst Hsx].
  assert (Hx : planner_supported x) by (now inversion Hsx).
  destruct (mode_set x) eqn:Hm.
  - destruct (Htaken t x [] eq_refl Hm) as [->|Hle].
    + destruct (Nat.le_gt_cases (17 + pattern_cost x) MAX_KS_GET_LINELEN) as [Hin|Hout].
      * left. rewrite total_cost_app. unfold total_cost at 1. simpl.
        unfold total_cost. simpl. lia.
      * right. exists x, []. auto.
    + left. rewrite total_cost_app. unfold total_cost at 2. simpl. lia.
  - assert (Hcost : pattern_cost x = 0%nat /\ pattern_of x = []).
    { destruct x; try discriminate; try contradiction. auto. }
    destruct Hcost as [Hc Hp].
    destruct IH as [Hle|[d [post [-> [Hpost Hbig]]]]]; [exact Hst| | |].
    + intros pre d post Ht. apply (Htaken pre d (post ++ [x])).
      rewrite Ht, <- app_assoc. reflexivity.
    + left. rewrite total_cost_app. unfold total_cost at 2. simpl. lia.
    + right. exists d, (post ++ [x]). split; [reflexivity|]. split; [|exact Hbig].
      rewrite flat_map_app, Hpost. simpl. now rewrite Hp.
Qed.

(** X6.  The request planned for a chunk of supported descriptions is
    at most 950 characters long, counting "KS_GET --quick --" and a
    blank before every pattern, with one exception: the first
    description of the array, when its pattern alone is too long, is
    sent as the only pattern of the chunk. *)
Theorem chunk_request_within_limit (desc : list KEYDB_SEARCH_DESC) :
  Forall planner_supported desc ->
  exists pattern used,
    keyserver_get_chunk desc = Some (pattern, used)
    /\ ((request_length pattern <= 950)%nat
        \/ exists d rest, desc = d :: rest /\ pattern = pattern_of d
                          /\ (950 < 17 + pattern_cost d)%nat).
Proof.
  intros Hs.
  destruct (keyserver_get_chunk_inv desc Hs)
    as [taken [rest [Hdesc [Hrun [_ Htaken]]]]].
  exists (flat_map pattern_of taken), (List.length taken). split; [exact Hrun|].
  assert (Hst : Forall planner_supported taken).
  { rewrite Hdesc in Hs. apply Forall_app in Hs. tauto. }
  destruct (taken_within_limit taken Hst Htaken) as [Hle|[d [post [-> [Hpost Hbig]]]]].
  - left. unfold request_length.
    pose proof (patterns_length_le_cost taken). unfold MAX_KS_GET_LINELEN in Hle. lia.
  - right. exists d, (post ++ rest). split; [rewrite Hdesc; reflexivity|].
    split; [|exact Hbig]. cbn [flat_map]. rewrite Hpost. apply app_nil_r.
Qed.

Lemma chunk_request_within_limit_witness :
  exists pattern used,
    keyserver_get_chunk fifty_one_kids = Some (pattern, used)
    /\ (request_length pattern <= 950)%nat.
Proof.
  destruct (chunk_request_within_limit fifty_one_kids)
    as [pattern [used [Hrun [Hle|[d [rest [Hd [_ Hbig]]]]]]]].
  - repeat constructor.
  - exists pattern, used. auto.
  - exfalso. injection Hd as <- _. vm_compute in Hbig. lia.
Defined.

(** ** The requests of the driver, whatever their outcome *)

Lemma keyserver_get_loop_prefix (ks_get : list gpg_error_t) :
  forall (desc : list KEYDB_SEARCH_DESC) (requests out : list (list string * nat))
         (err : gpg_error_t) (ks_get' : list gpg_error_t),
  Forall planner_supported desc ->
  keyserver_get_loop ks_get desc requests = Some (err, ks_get', out) ->
  exists new,
    out = requests ++ new
    /\ (1 <= List.length new <= Nat.max 1 (List.length desc))%nat
    /\ (consumed new <= List.length desc)%nat
    /\ List.concat (map fst new) = flat_map pattern_of (firstn (consumed new) desc)
    /\ ks_get = repeat 0 (List.length new - 1) ++ err :: ks_get'
    /\ (err = 0 -> consumed new = List.length desc).
Proof.
  induction ks_get as [|e ks_get IH]; intros desc requests out err ks_get' Hs Hrun;
    rewrite keyserver_get_loop_eq in Hrun;
    destruct (keyserver_get_chunk_inv desc Hs)
      as [taken [rest [Hdesc [Hchunk [Hstop _]]]]];
    rewrite Hchunk in Hrun; [discriminate|].
  assert (Hst : Forall planner_supported rest).
  { rewrite Hdesc in Hs. apply Forall_app in Hs. tauto. }
  assert (Hlen : List.length desc = (List.length taken + List.length rest)%nat).
  { rewrite Hdesc. apply length_app. }
  destruct (negb (Z.eqb e 0) || Nat.leb (List.length desc) (List.length taken))%bool
    eqn:Hend.
  - (* the last request *)
    injection Hrun as <- <- <-.
    exists [(flat_map pattern_of taken, List.length taken)].
    unfold consumed. cbn [map list_sum List.length List.concat fst snd fold_right].
    rewrite Nat.add_0_r, app_nil_r.
    split; [reflexivity|]. split; [lia|]. split; [lia|]. split.
    { rewrite Hdesc, firstn_length_app. reflexivity. }
    split; [reflexivity|].
    intros ->. cbn [Z.eqb negb orb] in Hend. apply Nat.leb_le in Hend. lia.
  - apply orb_false_iff in Hend. destruct Hend as [He Hmore].
    apply negb_false_iff, Z.eqb_eq in He. subst e.
    apply Nat.leb_gt in Hmore.
    destruct Hstop as [->|[d [rest' [Hrest [_ [Hne _]]]]]]; [simpl in Hlen; lia|].
    assert (Hused : (1 <= List.length taken)%nat).
    { destruct taken; [congruence | simpl; lia]. }
    assert (Hskip : skipn (List.length taken) desc = rest).
    { rewrite Hdesc, skipn_app, skipn_all, Nat.sub_diag. reflexivity. }
    rewrite Hskip in Hrun.
    destruct (IH rest _ out err ks_get' Hst Hrun)
      as [new [Hout [Hcount [Hcons [Hcat [Hscript Hok]]]]]].
    exists ((flat_map pattern_of taken, List.length taken) :: new).
    rewrite consumed_cons. cbn [map fst List.concat List.length].
    split; [rewrite Hout, <- app_assoc; reflexivity|].
    split; [rewrite Hrest in *; cbn [List.length] in *; lia|].
    split; [lia|]. split.
    { rewrite Hdesc, firstn_app_2, flat_map_app, Hcat. reflexivity. }
    split.
    { rewrite Hscript at 1.
      replace (S (List.length new) - 1)%nat with (S (List.length new - 1)) by lia.
      reflexivity. }
    intros Herr. rewrite (Hok Herr). lia.
Qed.

(** X7.  However the requests of [keyserver_get] on supported
    descriptions end: at least one request is made and at most one per
    description; every request before the last succeeded and the value
    returned is the result of the last; the requests hold, in order,
    exactly the patterns of the descriptions used, which are a prefix
    of the array, so that no description behind a failed request is
    ever sent; and a successful return means all were used. *)
Theorem keyserver_get_requests_cover_a_prefix
  (desc : list KEYDB_SEARCH_DESC) (w w' : world) (err : gpg_error_t) :
  Forall planner_supported desc ->
  keyserver_get desc w = Some (err, w') ->
  exists new,
    w_requests w' = w_requests w ++ new
    /\ (1 <= List.length new <= Nat.max 1 (List.length desc))%nat
    /\ (consumed new <= List.length desc)%nat
    /\ List.concat (map fst new) = flat_map pattern_of (firstn (consumed new) desc)
    /\ w_ks_get w = repeat 0 (List.length new - 1) ++ err :: w_ks_get w'
    /\ (err = 0 -> consumed new = List.length desc)
    /\ w_work w' = w_work w /\ w_tty w' = w_tty w.
Proof.
  intros Hs Hrun. unfold keyserver_get in Hrun.
  destruct (keyserver_get_loop (w_ks_get w) desc (w_requests w))
    as [[[e ks] out]|] eqn:Hloop; [|discriminate].
  injection Hrun as <- <-.
  destruct (keyserver_get_loop_prefix _ _ _ _ _ _ Hs Hloop)
    as [new [Hout [Hcount [Hcons [Hcat [Hscript Hok]]]]]].
  exists new. cbn [w_requests w_ks_get w_work w_tty]. auto 10.
Qed.

Lemma keyserver_get_requests_cover_a_prefix_witness :
  exists new,
    w_requests (mk_world WorkNull [] [] [(flat_map pattern_of (firstn 49 fifty_one_kids), 49%nat)])
    = w_requests first_request_fails ++ new
    /\ (consumed new <= List.length fifty_one_kids)%nat
    /\ List.concat (map fst new) = flat_map pattern_of (firstn (consumed new) fifty_one_kids).
Proof.
  destruct (keyserver_get_requests_cover_a_prefix fifty_one_kids first_request_fails
              (mk_world WorkNull [] []
                 [(flat_map pattern_of (firstn 49 fifty_one_kids), 49%nat)]) 7)
    as [new [Hout [_ [Hcons [Hcat _]]]]].
  - repeat constructor.
  - vm_compute. reflexivity.
  - exists new. auto.
Defined.

(** ** Arrays without a pattern *)

Lemma chunk_loop_all_none (desc : list KEYDB_SEARCH_DESC) :
  Forall (fun d => d = KEYDB_SEARCH_MODE_NONE) desc ->
  forall idx linelen pattern,
  chunk_loop desc idx linelen pattern
  = Some (pattern, (idx + List.length desc)%nat, linelen).
Proof.
  induction 1 as [|d desc -> _ IH]; intros idx linelen pattern.
  - cbn. now rewrite Nat.add_0_r.
  - rewrite chunk_loop_none, IH. cbn [List.length]. chunk_result_eq.
Qed.

(** X8.  An array that yields no pattern, because it is empty or holds
    only entries without mode, still makes [keyserver_get] issue one
    request, with an empty pattern array, and return its result; all
    entries count as used. *)
Theorem keyserver_get_without_pattern_still_requests
  (desc : list KEYDB_SEARCH_DESC) (w : world) (e : gpg_error_t) (ks : list gpg_error_t) :
  Forall (fun d => d = KEYDB_SEARCH_MODE_NONE) desc ->
  w_ks_get w = e :: ks ->
  keyserver_get desc w
  = Some (e, mk_world (w_work w) (w_tty w) ks
               (w_requests w ++ [([], List.length desc)])).
Proof.
  intros Hnone Hks. unfold keyserver_get. rewrite keyserver_get_loop_eq.
  unfold keyserver_get_chunk. rewrite (chunk_loop_all_none desc Hnone), Hks.
  cbn [Nat.add]. rewrite Nat.leb_refl, orb_true_r. reflexivity.
Qed.

Lemma keyserver_get_without_pattern_still_requests_witness :
  keyserver_get two_none (world_init [] [0])
  = Some (0, mk_world WorkNull [] [] [([], 2%nat)]).
Proof.
  apply (keyserver_get_without_pattern_still_requests two_none (world_init [] [0]) 0 []).
  - repeat constructor.
  - reflexivity.
Defined.

(** ** More on the screener *)

Lemma find_kbnode_screened (keyblock : kbnode_t) :
  find_kbnode (filter screened_packet keyblock) PKT_SECRET_KEY
  = find_kbnode keyblock PKT_SECRET_KEY.
Proof.
  induction keyblock as [|p next IH]; [reflexivity|].
  cbn [filter find_kbnode]. unfold screened_packet at 1.
  destruct (pkttype p) eqn:Ety; cbn [find_kbnode pkttype_eqb]; rewrite ?Ety;
    cbn [pkttype_eqb]; auto.
Qed.

Lemma screener_node_loop_screened (keyblock : kbnode_t) (desc : list KEYDB_SEARCH_DESC) :
  screener_node_loop (filter screened_packet keyblock) desc
  = screener_node_loop keyblock desc.
Proof.
  induction keyblock as [|p next IH]; [reflexivity|].
  cbn [filter screener_node_loop]. unfold screened_packet at 1.
  destruct (pkttype p) eqn:Ety; cbn [screener_node_loop]; rewrite ?Ety, IH; reflexivity.
Qed.

(** X9.  Only public keys, public subkeys and secret keys count for the
    screener: removing all other packets of a keyblock, secret subkeys
    among them, never changes its verdict. *)
Theorem screener_ignores_other_packets (keyblock : kbnode_t)
  (desc : list KEYDB_SEARCH_DESC) :
  keyserver_retrieval_screener (filter screened_packet keyblock) desc
  = keyserver_retrieval_screener keyblock desc
  /\ keyserver_retrieval_screener keyblock_with_secret_subkey
       [KEYDB_SEARCH_MODE_SHORT_KID 0x12345678] = 0.
Proof.
  split; [|reflexivity].
  unfold keyserver_retrieval_screener.
  rewrite find_kbnode_screened, screener_node_loop_screened. reflexivity.
Qed.

Lemma screener_desc_loop_app (pk : PKT_public_key) (a b : list KEYDB_SEARCH_DESC) :
  screener_desc_loop pk (a ++ b)
  = (screener_desc_loop pk a || screener_desc_loop pk b)%bool.
Proof.
  induction a as [|d a IH]; [reflexivity|].
  cbn [app screener_desc_loop].
  destruct d; try reflexivity;
    match goal with
    | |- context [if ?c then true else _] => destruct c; [reflexivity | exact IH]
    end.
Qed.

Lemma screener_node_loop_mono (keyblock : kbnode_t) (d1 d2 : list KEYDB_SEARCH_DESC) :
  (forall pk, screener_desc_loop pk d1 = true -> screener_desc_loop pk d2 = true) ->
  screener_node_loop keyblock d1 = true -> screener_node_loop keyblock d2 = true.
Proof.
  intros Hmono. induction keyblock as [|p next IH]; [discriminate|].
  cbn [screener_node_loop].
  destruct (pkttype p); try exact IH;
    (destruct (screener_desc_loop (pkt_public_key p) d1) eqn:E1;
     [rewrite (Hmono _ E1); reflexivity
     | intros H; rewrite (IH H); now destruct (screener_desc_loop (pkt_public_key p) d2)]).
Qed.

(** X10.  Requesting more never loses a key: a keyblock accepted for a
    non-empty list of descriptions is accepted for every list that
    extends it, in front or behind. *)
Theorem screener_accepts_for_longer_lists
  (keyblock : kbnode_t) (desc more : list KEYDB_SEARCH_DESC) :
  desc <> [] ->
  keyserver_retrieval_screener keyblock desc = 0 ->
  keyserver_retrieval_screener keyblock (desc ++ more) = 0
  /\ keyserver_retrieval_screener keyblock (more ++ desc) = 0.
Proof.
  intros Hne. unfold keyserver_retrieval_screener.
  destruct (find_kbnode keyblock PKT_SECRET_KEY); [discriminate|].
  destruct desc as [|d0 desc]; [congruence|].
  destruct (screener_node_loop keyblock (d0 :: desc)) eqn:Hacc; [|discriminate].
  intros _.
  assert (H1 : screener_node_loop keyblock ((d0 :: desc) ++ more) = true).
  { apply (screener_node_loop_mono keyblock (d0 :: desc)); [|exact Hacc].
    intros pk H. rewrite screener_desc_loop_app, H. reflexivity. }
  assert (H2 : screener_node_loop keyblock (more ++ d0 :: desc) = true).
  { apply (screener_node_loop_mono keyblock (d0 :: desc)); [|exact Hacc].
    intros pk H. rewrite screener_desc_loop_app, H. apply orb_true_r. }
  split.
  - cbn [app] in *. now rewrite H1.
  - destruct (more ++ d0 :: desc) eqn:E; [now destruct more|]. now rewrite H2.
Qed.

Lemma screener_accepts_for_longer_lists_witness :
  keyserver_retrieval_screener sample_keyblock
    ([KEYDB_SEARCH_MODE_SHORT_KID 0x12345678] ++ [KEYDB_SEARCH_MODE_LONG_KID 7 7]) = 0
  /\ keyserver_retrieval_screener sample_keyblock
       ([KEYDB_SEARCH_MODE_LONG_KID 7 7] ++ [KEYDB_SEARCH_MODE_SHORT_KID 0x12345678]) = 0.
Proof.
  apply (screener_accepts_for_longer_lists sample_keyblock
           [KEYDB_SEARCH_MODE_SHORT_KID 0x12345678] [KEYDB_SEARCH_MODE_LONG_KID 7 7]).
  - discriminate.
  - reflexivity.
Defined.

(** ** The screener of a chunk *)

Lemma screener_node_loop_exists (keyblock : kbnode_t) (desc : list KEYDB_SEARCH_DESC) :
  screener_node_loop keyblock desc = true
  <-> exists p, In p keyblock /\ is_public_key_packet p
                /\ screener_desc_loop (pkt_public_key p) desc = true.
Proof.
  unfold is_public_key_packet. induction keyblock as [|q next IH].
  { cbn. split; [discriminate | intros [p [[] _]]]. }
  cbn [screener_node_loop].
  assert (Hskip : pkttype q <> PKT_PUBLIC_KEY -> pkttype q <> PKT_PUBLIC_SUBKEY ->
            screener_node_loop next desc = true
            <-> exists p, In p (q :: next)
                  /\ (pkttype p = PKT_PUBLIC_KEY \/ pkttype p = PKT_PUBLIC_SUBKEY)
                  /\ screener_desc_loop (pkt_public_key p) desc = true).
  { intros H1 H2. rewrite IH. split.
    - intros [p [Hin H]]. exists p. split; [now right | exact H].
    - intros [p [[<-|Hin] [Hp H]]]; [tauto | exists p; auto]. }
  assert (Hkey : pkttype q = PKT_PUBLIC_KEY \/ pkttype q = PKT_PUBLIC_SUBKEY ->
            (if screener_desc_loop (pkt_public_key q) desc then true
             else screener_node_loop next desc) = true
            <-> exists p, In p (q :: next)
                  /\ (pkttype p = PKT_PUBLIC_KEY \/ pkttype p = PKT_PUBLIC_SUBKEY)
                  /\ screener_desc_loop (pkt_public_key p) desc = true).
  { intros Hq. destruct (screener_desc_loop (pkt_public_key q) desc) eqn:E.
    - split; [|reflexivity]. intros _. exists q. cbn. auto.
    - rewrite IH. split.
      + intros [p [Hin H]]. exists p. split; [now right | exact H].
      + intros [p [[<-|Hin] [Hp H]]]; [congruence | exists p; auto]. }
  destruct (pkttype q) eqn:Ety; try (apply Hkey; auto; fail);
    apply Hskip; discriminate.
Qed.

Lemma screener_accepts_iff (keyblock : kbnode_t) (desc : list KEYDB_SEARCH_DESC) :
  desc <> [] ->
  keyserver_retrieval_screener keyblock desc = 0
  <-> ~ has_secret_key_packet keyblock
      /\ exists p, In p keyblock /\ is_public_key_packet p
                   /\ screener_desc_loop (pkt_public_key p) desc = true.
Proof.
  intros Hne. rewrite <- screener_node_loop_exists.
  unfold keyserver_retrieval_screener.
  destruct (find_kbnode keyblock PKT_SECRET_KEY) as [s|] eqn:Hfind.
  - split; [discriminate|]. intros [Hsec _]. exfalso. apply Hsec.
    clear Hsec. induction keyblock as [|q next IH]; [discriminate|].
    cbn [find_kbnode] in Hfind.
    destruct (pkttype_eqb (pkttype q) PKT_SECRET_KEY) eqn:E.
    + exists q. split; [now left | now apply pkttype_eqb_eq].
    + destruct (IH Hfind) as [p [Hin Hp]]. exists p. split; [now right | exact Hp].
  - assert (Hsec : ~ has_secret_key_packet keyblock).
    { intros [p [Hin Hp]]. now apply (find_kbnode_some keyblock PKT_SECRET_KEY p). }
    destruct desc as [|d0 desc]; [congruence|].
    destruct (screener_node_loop keyblock (d0 :: desc)); split; auto;
      try discriminate; intros [_ H]; discriminate.
Qed.

(** X11.  What is imported after a retrieval by key id or by name.  For
    the chunk of a single long key id, a keyblock of the response is
    accepted exactly when it has no secret key packet and one of its
    public keys or subkeys has both words of that key id.  For the
    chunk of a single exact name, it is accepted exactly when it has
    no secret key packet and holds a public key or subkey at all: the
    name is not checked. *)
Theorem chunk_screener_by_keyid_and_by_name (keyblock : kbnode_t) :
  (forall keyid0 keyid1,
     chunk_screener [KEYDB_SEARCH_MODE_LONG_KID keyid0 keyid1] keyblock = Some 0
     <-> ~ has_secret_key_packet keyblock
         /\ exists p, In p keyblock /\ is_public_key_packet p
                      /\ pk_keyid0 (pkt_public_key p) = keyid0
                      /\ pk_keyid1 (pkt_public_key p) = keyid1)
  /\ (forall name,
        chunk_screener [KEYDB_SEARCH_MODE_EXACT name] keyblock = Some 0
        <-> ~ has_secret_key_packet keyblock /\ has_public_key_packet keyblock).
Proof.
  assert (Hsome : forall e : gpg_error_t, Some e = Some 0 <-> e = 0).
  { intros e. split; [intros H; now injection H | intros ->; reflexivity]. }
  split.
  - intros keyid0 keyid1.
    change (chunk_screener [KEYDB_SEARCH_MODE_LONG_KID keyid0 keyid1] keyblock)
      with (Some (keyserver_retrieval_screener keyblock
                    [KEYDB_SEARCH_MODE_LONG_KID keyid0 keyid1])).
    rewrite Hsome, screener_accepts_iff by discriminate.
    apply and_iff_compat_l. split; intros [p [Hin [Hp H]]]; exists p;
      (split; [exact Hin|]; split; [exact Hp|]).
    + cbn [screener_desc_loop] in H.
      destruct (Z.eqb_spec (pk_keyid0 (pkt_public_key p)) keyid0);
        destruct (Z.eqb_spec (pk_keyid1 (pkt_public_key p)) keyid1);
        try discriminate. auto.
    + destruct H as [<- <-]. cbn [screener_desc_loop]. now rewrite !Z.eqb_refl.
  - intros name.
    change (chunk_screener [KEYDB_SEARCH_MODE_EXACT name] keyblock)
      with (Some (keyserver_retrieval_screener keyblock [KEYDB_SEARCH_MODE_EXACT name])).
    rewrite Hsome, screener_accepts_iff by discriminate.
    apply and_iff_compat_l. unfold has_public_key_packet.
    split; intros [p [Hin H]]; exists p; [tauto | cbn; tauto].
Qed.

Lemma screener_desc_loop_other_mode (pk : PKT_public_key) (desc : list KEYDB_SEARCH_DESC)
  (d : KEYDB_SEARCH_DESC) :
  In d desc -> is_key_id_mode d = false -> screener_desc_loop pk desc = true.
Proof.
  induction desc as [|x desc IH]; [contradiction|].
  intros [->|Hin] Hd.
  - destruct d; try discriminate; reflexivity.
  - cbn [screener_desc_loop]. specialize (IH Hin Hd).
    destruct x; try reflexivity;
      match goal with
      | |- context [if ?c then true else _] => destruct c; [reflexivity | exact IH]
      end.
Qed.

(** X12.  A chunk that has used a description which does not identify
    a key, an exact name or an entry without mode, is screened for
    secret keys only: each keyblock of its response that holds a
    public key or subkey and no secret key packet is accepted,
    whatever the other descriptions of the chunk ask for. *)
Theorem chunk_screener_off_for_other_modes
  (desc : list KEYDB_SEARCH_DESC) (pattern : list string) (used : nat)
  (d : KEYDB_SEARCH_DESC) (keyblock : kbnode_t) :
  keyserver_get_chunk desc = Some (pattern, used) ->
  In d (firstn used desc) ->
  is_key_id_mode d = false ->
  chunk_screener desc keyblock = Some 0
  <-> ~ has_secret_key_packet keyblock /\ has_public_key_packet keyblock.
Proof.
  intros Hrun Hin Hd. unfold chunk_screener. rewrite Hrun.
  assert (Hne : firstn used desc <> []) by (intros E; rewrite E in Hin; contradiction).
  split.
  - intros H. injection H as H. apply screener_accepts_iff in H; [|exact Hne].
    destruct H as [Hsec [p [Hp [Hpub _]]]]. split; [exact Hsec | now exists p].
  - intros [Hsec [p [Hp Hpub]]]. f_equal. apply screener_accepts_iff; [exact Hne|].
    split; [exact Hsec|]. exists p. split; [exact Hp|]. split; [exact Hpub|].
    now apply (screener_desc_loop_other_mode _ _ d).
Qed.

Lemma chunk_screener_off_for_other_modes_witness :
  chunk_screener [KEYDB_SEARCH_MODE_LONG_KID 7 7; KEYDB_SEARCH_MODE_NONE] sample_keyblock
  = Some 0
  <-> ~ has_secret_key_packet sample_keyblock /\ has_public_key_packet sample_keyblock.
Proof.
  apply (chunk_screener_off_for_other_modes
           [KEYDB_SEARCH_MODE_LONG_KID 7 7; KEYDB_SEARCH_MODE_NONE]
           ["0x0000000700000007"] 2 KEYDB_SEARCH_MODE_NONE sample_keyblock).
  - reflexivity.
  - cbn. auto.
  - reflexivity.
Defined.

(** ** The imports of a single description *)

Lemma keyserver_get_single (d : KEYDB_SEARCH_DESC) (p : string) (w : world)
  (err : gpg_error_t) (ks : list gpg_error_t) :
  pattern_of d = [p] ->
  w_ks_get w = err :: ks ->
  keyserver_get [d] w
  = Some (err, mk_world (w_work w) (w_tty w) ks (w_requests w ++ [([p], 1%nat)])).
Proof.
  intros Hp Hks. unfold keyserver_get. rewrite Hks, keyserver_get_loop_eq.
  assert (Hchunk : keyserver_get_chunk [d] = Some ([p], 1%nat)).
  { unfold keyserver_get_chunk.
    destruct d; try discriminate; cbn in Hp; injection Hp as <-;
      cbn [chunk_loop Nat.eqb negb andb app]; reflexivity. }
  rewrite Hchunk. cbn [List.length Nat.leb].
  now rewrite orb_true_r.
Qed.

Lemma firstn_copy (n : nat) (l pad : list byte) :
  (n <= List.length l)%nat -> firstn n (firstn n l ++ pad) = firstn n l.
Proof.
  intros Hn. rewrite firstn_app, length_firstn, firstn_firstn.
  replace (Nat.min n n) with n by lia.
  replace (n - Nat.min n (List.length l))%nat with 0%nat by lia.
  cbn [firstn]. apply app_nil_r.
Qed.

(** X13.  The three imports of a single key.  In a world where the
    next request has the result [err], the import by name, by key id
    and by a fingerprint of 16 or 20 bytes each make exactly one
    request, with one pattern and one description used, and return
    [err]: the pattern is '=' and the name, however long it is, "0x"
    and the sixteen digits of the key id, or "0x" and the hexadecimal
    form of exactly the bytes given.  A fingerprint of any other
    length gives -1 and no request. *)
Theorem single_imports_issue_one_request (w : world) (err : gpg_error_t)
  (ks : list gpg_error_t) :
  w_ks_get w = err :: ks ->
  let reply (pattern : string) :=
    Some (err, mk_world (w_work w) (w_tty w) ks
                 (w_requests w ++ [([pattern], 1%nat)])) in
  (forall name, keyserver_import_name name w = reply ("=" ++ name)%string)
  /\ (forall keyid0 keyid1,
        keyserver_import_keyid keyid0 keyid1 w
        = reply ("0x" ++ fmt_08lX keyid0 ++ fmt_08lX keyid1)%string)
  /\ (forall fprint n,
        n = 16%nat \/ n = 20%nat -> (n <= List.length fprint)%nat ->
        keyserver_import_fprint fprint n w
        = reply ("0x" ++ bin2hex (firstn n fprint))%string)
  /\ (forall fprint n,
        n <> 16%nat -> n <> 20%nat ->
        keyserver_import_fprint fprint n w = Some (-1, w)).
Proof.
  intros Hks reply. split; [|split; [|split]].
  - intros name. now apply keyserver_get_single.
  - intros keyid0 keyid1. now apply keyserver_get_single.
  - intros fprint n [-> | ->] Hlen; unfold keyserver_import_fprint;
      cbn [Nat.eqb]; (apply keyserver_get_single; [|exact Hks]);
      unfold pattern_of; now rewrite firstn_copy.
  - intros fprint n H16 H20. unfold keyserver_import_fprint.
    apply Nat.eqb_neq in H16, H20. now rewrite H16, H20.
Qed.

Lemma single_imports_issue_one_request_witness :
  keyserver_import_keyid 1 2 (world_init [] [0])
  = Some (0, mk_world WorkNull [] [] [(["0x0000000100000002"], 1%nat)]).
Proof.
  exact (proj1 (proj2 (single_imports_issue_one_request (world_init [] [0]) 0 []
                         eq_refl)) 1 2).
Defined.

(** ** The prompt as a whole *)

Lemma keyserver_get_keeps_tty (desc : list KEYDB_SEARCH_DESC) (w w' : world)
  (err : gpg_error_t) :
  keyserver_get desc w = Some (err, w') -> w_tty w' = w_tty w.
Proof.
  unfold keyserver_get.
  destruct (keyserver_get_loop (w_ks_get w) desc (w_requests w)) as [[[e ks] rq]|];
    [|discriminate].
  intros H. injection H as _ <-. reflexivity.
Qed.

(** With enough results available, [keyserver_get] on descriptions the
    planner supports has a result. *)
Lemma keyserver_get_returns (desc : list KEYDB_SEARCH_DESC) (w : world) :
  Forall planner_supported desc ->
  (1 <= List.length (w_ks_get w))%nat ->
  (List.length desc <= List.length (w_ks_get w))%nat ->
  exists err w', keyserver_get desc w = Some (err, w').
Proof.
  intros Hs Hone Hlen.
  destruct (keyserver_get_loop_spec (w_ks_get w) desc (w_requests w) Hs Hone Hlen)
    as [err [ks [new [Hrun _]]]].
  unfold keyserver_get. rewrite Hrun. eauto.
Qed.

Lemma selarray_of_in (desc : list KEYDB_SEARCH_DESC) (numdesc : Z) (numarray : list Z) :
  numdesc <= Z.of_nat (List.length desc) ->
  Forall (fun i => 1 <= i <= numdesc) numarray ->
  Forall (fun d => In d (firstn (Z.to_nat numdesc) desc)) (selarray_of desc numarray).
Proof.
  intros Hn Hsel. unfold selarray_of. apply Forall_forall. intros d Hd.
  apply in_map_iff in Hd. destruct Hd as [i [<- Hi]].
  rewrite Forall_forall in Hsel. specialize (Hsel i Hi).
  assert (Hlt : (Z.to_nat (i - 1) < Z.to_nat numdesc)%nat) by lia.
  assert (Hlen : (Z.to_nat numdesc <= List.length desc)%nat) by lia.
  clear Hsel Hi Hn. revert Hlt Hlen.
  generalize (Z.to_nat (i - 1)) as j. generalize (Z.to_nat numdesc) as n.
  clear i numdesc numarray.
  induction desc as [|x desc IH]; intros n j Hlt Hlen; cbn [List.length] in Hlen.
  - lia.
  - destruct n as [|n]; [lia|]. cbn [firstn]. destruct j as [|j]; cbn [nth].
    + now left.
    + right. apply IH; lia.
Qed.

Lemma show_prompt_loop_ends (desc : list KEYDB_SEARCH_DESC) (numdesc : Z) :
  numdesc <= Z.of_nat (List.length desc) ->
  Forall planner_supported (firstn (Z.to_nat numdesc) desc) ->
  forall (tty : list string) (w : world),
  Exists (fun answer => is_quit answer = true) tty ->
  (50 <= List.length (w_ks_get w))%nat ->
  exists err w' used rest,
    show_prompt_loop tty desc numdesc w = Some (err, w')
    /\ tty = used ++ rest /\ used <> []
    /\ ((err = GPG_ERR_CANCELED \/ err = 0) /\ w' = set_tty w rest
        \/ exists sel,
             (1 <= List.length sel <= 50)%nat
             /\ Forall (fun d => In d (firstn (Z.to_nat numdesc) desc)) sel
             /\ keyserver_get sel (set_tty w rest) = Some (err, w')).
Proof.
  intros Hn Hs. induction tty as [|answer tty IH]; intros w Hquit Hks.
  { inversion Hquit. }
  cbn [show_prompt_loop].
  destruct (is_quit answer) eqn:Hq.
  { unfold prompt_action_of. rewrite Hq.
    exists GPG_ERR_CANCELED, (set_tty w tty), [answer], tty.
    split; [reflexivity|]. split; [reflexivity|]. split; [discriminate|]. auto. }
  rewrite (prompt_action_of_eq answer numdesc Hq).
  destruct (token_in_range numdesc answer) eqn:Hr.
  2:{ exists 0, (set_tty w tty), [answer], tty.
      split; [reflexivity|]. split; [reflexivity|]. split; [discriminate|]. auto. }
  destruct (Nat.ltb 50 (List.length (selections answer numdesc))) eqn:Hmany.
  - assert (Hquit' : Exists (fun a => is_quit a = true) tty).
    { inversion Hquit as [? ? Hhead|? ? Htail]; [congruence | exact Htail]. }
    destruct (IH (set_tty w tty) Hquit' Hks) as [err [w' [used [rest [Hrun [-> [_ Hout]]]]]]].
    exists err, w', (answer :: used), rest.
    split; [exact Hrun|]. split; [reflexivity|]. split; [discriminate|].
    exact Hout.
  - apply Nat.ltb_ge in Hmany.
    pose proof (selections_nonempty answer numdesc Hr) as Hne.
    pose proof (selections_in_range answer numdesc) as Hin.
    pose proof (selarray_of_in desc numdesc _ Hn Hin) as Hsel.
    assert (Hlen : List.length (selarray_of desc (selections answer numdesc))
                   = List.length (selections answer numdesc)).
    { unfold selarray_of. apply length_map. }
    assert (Hpos : (1 <= List.length (selections answer numdesc))%nat).
    { destruct (selections answer numdesc); [congruence | cbn; lia]. }
    destruct (keyserver_get_returns (selarray_of desc (selections answer numdesc))
                (set_tty w tty)) as [err [w' Hget]].
    + apply Forall_forall. intros d Hd.
      rewrite Forall_forall in Hsel, Hs. apply Hs, Hsel, Hd.
    + cbn [set_tty w_ks_get]. lia.
    + cbn [set_tty w_ks_get]. lia.
    + exists err, w', [answer], tty.
      split; [exact Hget|]. split; [reflexivity|]. split; [discriminate|].
      right. exists (selarray_of desc (selections answer numdesc)).
      split; [lia|]. split; [exact Hsel | exact Hget].
Qed.

(** X14.  The prompt as a whole.  When the descriptions it may select
    from, the first [numdesc] of the array, are ones the planner
    supports, the terminal will deliver a quit at some point and fifty
    results of requests are available, [show_prompt] returns.  It has
    read at least one line and left the others unread, it has not
    touched the parser's record, and it has either made no request and
    returned success or the cancel code, or made one retrieval, of at
    least one and at most fifty descriptions, each of them one of the
    first [numdesc] of the array, and returned its result. *)
Theorem show_prompt_ends_with_at_most_one_retrieval
  (desc : list KEYDB_SEARCH_DESC) (numdesc : Z) (w : world) :
  numdesc <= Z.of_nat (List.length desc) ->
  Forall planner_supported (firstn (Z.to_nat numdesc) desc) ->
  Exists (fun answer => is_quit answer = true) (w_tty w) ->
  (50 <= List.length (w_ks_get w))%nat ->
  exists err w' used rest,
    show_prompt desc numdesc w = Some (err, w')
    /\ w_tty w = used ++ rest /\ used <> []
    /\ w_tty w' = rest /\ w_work w' = w_work w
    /\ ((err = GPG_ERR_CANCELED \/ err = 0)
        /\ w_requests w' = w_requests w /\ w_ks_get w' = w_ks_get w
        \/ exists sel,
             (1 <= List.length sel <= 50)%nat
             /\ Forall (fun d => In d (firstn (Z.to_nat numdesc) desc)) sel
             /\ keyserver_get sel (set_tty w rest) = Some (err, w')).
Proof.
  intros Hn Hs Hquit Hks.
  destruct (show_prompt_loop_ends desc numdesc Hn Hs (w_tty w) w Hquit Hks)
    as [err [w' [used [rest [Hrun [Hsplit [Hused Hout]]]]]]].
  exists err, w', used, rest. unfold show_prompt.
  split; [exact Hrun|]. split; [exact Hsplit|]. split; [exact Hused|].
  split.
  { destruct Hout as [[_ ->] | [sel [_ [_ Hget]]]]; [reflexivity|].
    now apply keyserver_get_keeps_tty in Hget. }
  split; [now apply show_prompt_loop_keeps_work in Hrun|].
  destruct Hout as [[Herr ->] | Hget]; [left | right; exact Hget].
  split; [exact Herr|]. split; reflexivity.
Qed.

Lemma show_prompt_ends_with_at_most_one_retrieval_witness :
  exists err w' used rest,
    show_prompt [KEYDB_SEARCH_MODE_LONG_KID 1 2] 1 select_then_quit = Some (err, w')
    /\ w_tty select_then_quit = used ++ rest /\ used <> []
    /\ w_tty w' = rest /\ w_work w' = w_work select_then_quit
    /\ ((err = GPG_ERR_CANCELED \/ err = 0)
        /\ w_requests w' = w_requests select_then_quit
        /\ w_ks_get w' = w_ks_get select_then_quit
        \/ exists sel,
             (1 <= List.length sel <= 50)%nat
             /\ Forall (fun d => In d (firstn (Z.to_nat 1) [KEYDB_SEARCH_MODE_LONG_KID 1 2]))
                  sel
             /\ keyserver_get sel (set_tty select_then_quit rest) = Some (err, w')).
Proof.
  apply (show_prompt_ends_with_at_most_one_retrieval
           [KEYDB_SEARCH_MODE_LONG_KID 1 2] 1 select_then_quit).
  - cbn. lia.
  - repeat constructor.
  - right. left. reflexivity.
  - cbn. lia.
Defined.

(** ** The array of the search handler *)

Lemma array_set_length (arr : list KEYDB_SEARCH_DESC) (i : nat) (v : KEYDB_SEARCH_DESC) :
  List.length (array_set arr i v) = List.length arr.
Proof.
  revert i. induction arr as [|x arr IH]; intros i; [reflexivity|].
  destruct i; cbn [array_set List.length]; [reflexivity|]. now rewrite IH.
Qed.

Lemma array_set_firstn (arr : list KEYDB_SEARCH_DESC) (i : nat) (v : KEYDB_SEARCH_DESC) :
  firstn i (array_set arr i v) = firstn i arr.
Proof.
  revert i. induction arr as [|x arr IH]; intros i; [reflexivity|].
  destruct i; cbn [array_set firstn]; [reflexivity|]. now rewrite IH.
Qed.

Lemma array_set_nth (arr : list KEYDB_SEARCH_DESC) (i : nat) (v d : KEYDB_SEARCH_DESC) :
  (i < List.length arr)%nat -> nth i (array_set arr i v) d = v.
Proof.
  revert i. induction arr as [|x arr IH]; intros i Hi; cbn [List.length] in Hi; [lia|].
  destruct i; cbn [array_set nth]; [reflexivity|]. apply IH. lia.
Qed.

Lemma firstn_S_nth (arr : list KEYDB_SEARCH_DESC) (i : nat) (d : KEYDB_SEARCH_DESC) :
  (i < List.length arr)%nat -> firstn (S i) arr = firstn i arr ++ [nth i arr d].
Proof.
  revert i. induction arr as [|x arr IH]; intros i Hi; cbn [List.length] in Hi; [lia|].
  destruct i; [reflexivity|].
  change (firstn (S (S i)) (x :: arr)) with (x :: firstn (S i) arr).
  rewrite (IH i) by lia. reflexivity.
Qed.

(** The array after [grow_desc] has room for one more record and
    keeps the records it held. *)
Lemma grow_desc_spec (parm : search_line_handler_parm_s) :
  parm_ok parm ->
  exists arr,
    p_desc (grow_desc parm) = Some arr
    /\ p_nkeys (grow_desc parm) = p_nkeys parm
    /\ 0 <= p_nkeys parm < p_count (grow_desc parm)
    /\ List.length arr = Z.to_nat (p_count (grow_desc parm))
    /\ firstn (Z.to_nat (p_nkeys parm)) arr
       = firstn (Z.to_nat (p_nkeys parm)) (desc_array parm)
    /\ Forall (fun d => is_key_id_mode d = true) (firstn (Z.to_nat (p_nkeys parm)) arr)
    /\ p_numlines (grow_desc parm) = p_numlines parm
    /\ p_eof_seen (grow_desc parm) = p_eof_seen parm.
Proof.
  unfold parm_ok, grow_desc, desc_array. intros Hok.
  destruct (p_desc parm) as [arr|] eqn:Hdesc.
  - destruct Hok as [Hn [Hlen [Hany Hkeys]]].
    destruct (Z.eqb_spec (p_nkeys parm) (p_count parm)) as [Heq|Hne].
    + exists (arr ++ repeat KEYDB_SEARCH_MODE_NONE 10).
      cbn [p_desc p_nkeys p_count p_numlines p_eof_seen set_p_validcount set_p_desc
           set_p_count].
      assert (Hpre : firstn (Z.to_nat (p_nkeys parm))
                       (arr ++ repeat KEYDB_SEARCH_MODE_NONE 10)
                     = firstn (Z.to_nat (p_nkeys parm)) arr).
      { rewrite firstn_app.
        replace (Z.to_nat (p_nkeys parm) - List.length arr)%nat with 0%nat by lia.
        cbn [firstn]. apply app_nil_r. }
      split; [reflexivity|]. split; [reflexivity|]. split; [lia|].
      split; [rewrite length_app, repeat_length; lia|].
      split; [exact Hpre|]. split; [now rewrite Hpre|]. split; reflexivity.
    + exists arr. rewrite Hdesc.
      split; [reflexivity|]. split; [reflexivity|]. split; [lia|].
      split; [exact Hlen|]. split; [reflexivity|]. split; [exact Hkeys|].
      split; reflexivity.
  - rewrite Hok. destruct (p_count parm <? 1) eqn:Hc.
    + exists (repeat KEYDB_SEARCH_MODE_NONE 10).
      cbn [p_desc p_nkeys p_count p_numlines p_eof_seen set_p_validcount set_p_desc
           set_p_count].
      split; [reflexivity|]. split; [exact Hok|]. split; [lia|].
      split; [reflexivity|]. split; [reflexivity|]. split; [constructor|].
      split; reflexivity.
    + apply Z.ltb_ge in Hc.
      exists (repeat KEYDB_SEARCH_MODE_NONE (Z.to_nat (p_count parm))).
      cbn [p_desc p_nkeys p_count p_numlines p_eof_seen set_p_desc].
      split; [reflexivity|]. split; [exact Hok|]. split; [lia|].
      split; [apply repeat_length|]. split; [reflexivity|]. split; [constructor|].
      split; reflexivity.
Qed.

Section HandlerArray.
Context {C : Collaborators}.

(** The state after the record has been stored and counted. *)
Lemma stored_parm_ok (q : search_line_handler_parm_s) (arr : list KEYDB_SEARCH_DESC)
  (numlines : Z) :
  p_desc q = Some arr ->
  0 <= p_nkeys q < p_count q ->
  List.length arr = Z.to_nat (p_count q) ->
  Forall (fun d => is_key_id_mode d = true) (firstn (S (Z.to_nat (p_nkeys q))) arr) ->
  parm_ok (set_p_nkeys (set_p_any_lines (set_p_numlines q numlines) true)
             (p_nkeys q + 1)).
Proof.
  intros Hdesc Hn Hlen Hkeys. unfold parm_ok.
  cbn [p_desc p_nkeys p_count p_any_lines set_p_nkeys set_p_any_lines set_p_numlines].
  rewrite Hdesc. split; [lia|]. split; [exact Hlen|]. split; [reflexivity|].
  replace (Z.to_nat (p_nkeys q + 1)) with (S (Z.to_nat (p_nkeys q))) by lia.
  exact Hkeys.
Qed.

Lemma save_keyrec_spec (parm : search_line_handler_parm_s) (kr : keyrec) (w : world)
  (r : save_result) :
  parm_ok parm ->
  is_key_id_mode (kr_desc kr) = true ->
  save_keyrec parm kr w = Some r ->
  match r with
  | SaveReturn err _ _ => err <> 0
  | SaveDone parm' w' =>
      parm_ok parm'
      /\ p_nkeys parm' = p_nkeys parm + 1
      /\ firstn (Z.to_nat (p_nkeys parm)) (desc_array parm')
         = firstn (Z.to_nat (p_nkeys parm)) (desc_array parm)
      /\ nth (Z.to_nat (p_nkeys parm)) (desc_array parm') KEYDB_SEARCH_MODE_NONE
         = kr_desc kr
      /\ p_eof_seen parm' = p_eof_seen parm
      /\ w_work w' = w_work w
  end.
Proof.
  intros Hok Hkr.
  destruct (grow_desc_spec parm Hok)
    as [arr [Hdesc [Hnk [Hn [Hlen [Hpre [Hkeys [_ Heof]]]]]]]].
  set (q := set_p_desc (grow_desc parm)
              (Some (array_set (desc_array (grow_desc parm))
                       (Z.to_nat (p_nkeys (grow_desc parm))) (kr_desc kr)))).
  assert (Harr : desc_array (grow_desc parm) = arr) by (unfold desc_array; now rewrite Hdesc).
  assert (Hq : p_desc q = Some (array_set arr (Z.to_nat (p_nkeys parm)) (kr_desc kr))).
  { unfold q. cbn [p_desc set_p_desc]. now rewrite Harr, Hnk. }
  assert (Hqn : p_nkeys q = p_nkeys parm) by exact Hnk.
  assert (Hqc : p_count q = p_count (grow_desc parm)) by reflexivity.
  assert (Hqe : p_eof_seen q = p_eof_seen parm) by exact Heof.
  assert (Hi : (Z.to_nat (p_nkeys parm) < List.length arr)%nat) by lia.
  assert (Hdone : forall numlines w',
            w_work w' = w_work w ->
            let parm' := set_p_nkeys (set_p_any_lines (set_p_numlines q numlines) true)
                           (p_nkeys q + 1) in
            parm_ok parm'
            /\ p_nkeys parm' = p_nkeys parm + 1
            /\ firstn (Z.to_nat (p_nkeys parm)) (desc_array parm')
               = firstn (Z.to_nat (p_nkeys parm)) (desc_array parm)
            /\ nth (Z.to_nat (p_nkeys parm)) (desc_array parm') KEYDB_SEARCH_MODE_NONE
               = kr_desc kr
            /\ p_eof_seen parm' = p_eof_seen parm
            /\ w_work w' = w_work w).
  { intros numlines w' Hw parm'.
    assert (Hd' : desc_array parm'
                  = array_set arr (Z.to_nat (p_nkeys parm)) (kr_desc kr)).
    { unfold desc_array, parm'.
      cbn [p_desc set_p_nkeys set_p_any_lines set_p_numlines]. now rewrite Hq. }
    split.
    { apply (stored_parm_ok q _ numlines Hq).
      - rewrite Hqn, Hqc. exact Hn.
      - rewrite array_set_length, Hqc. exact Hlen.
      - rewrite Hqn.
        rewrite (firstn_S_nth _ _ KEYDB_SEARCH_MODE_NONE)
          by (now rewrite array_set_length).
        rewrite array_set_firstn, array_set_nth by exact Hi.
        apply Forall_app. split; [exact Hkeys|]. now constructor. }
    split; [unfold parm'; cbn [p_nkeys set_p_nkeys]; now rewrite Hqn|].
    split; [now rewrite Hd', array_set_firstn|].
    split; [rewrite Hd'; now apply array_set_nth|].
    split; [exact Hqe | exact Hw]. }
  unfold save_keyrec. cbv zeta. fold q.
  destruct (negb (with_colons opt)).
  - destruct (to_uint (p_numlines q + kr_lines kr) >? to_uint (screen_lines opt - 1)).
    + destruct (show_prompt (desc_array q) (p_nkeys q) w) as [[err w1]|] eqn:Hprompt;
        [|discriminate].
      apply show_prompt_loop_keeps_work in Hprompt.
      destruct (Z.eqb_spec err 0) as [->|Hne]; cbn [negb].
      * intros H. injection H as <-.
        apply (Hdone (to_uint (p_numlines (set_p_numlines q 0) + kr_lines kr)) w1 Hprompt).
      * intros H. injection H as <-. exact Hne.
    + intros H. injection H as <-.
      apply (Hdone (to_uint (p_numlines q + kr_lines kr)) w eq_refl).
  - intros H. injection H as <-.
    apply (Hdone (to_uint (p_numlines q + kr_lines kr)) w eq_refl).
Qed.
End HandlerArray.

Lemma parm_ok_same (p q : search_line_handler_parm_s) :
  p_desc q = p_desc p -> p_count q = p_count p -> p_nkeys q = p_nkeys p ->
  p_any_lines q = p_any_lines p -> parm_ok p -> parm_ok q.
Proof. unfold parm_ok. intros -> -> -> ->. auto. Qed.

Lemma handle_info_keeps (parm : search_line_handler_parm_s) (line : string) :
  p_desc (snd (handle_info parm line)) = p_desc parm
  /\ p_nkeys (snd (handle_info parm line)) = p_nkeys parm.
Proof.
  unfold handle_info.
  destruct (gpg_strsep (Some (str_drop 5 line)) ":") as [tok str].
  destruct (negb (Z.eqb _ 1)); [split; reflexivity|].
  destruct (gpg_strsep str ":") as [[tok2|] rest]; [|split; reflexivity].
  destruct (sscanf_d tok2) as [count|]; [|split; reflexivity].
  unfold info_count. cbn [p_count set_p_count].
  destruct (Z.eqb count 0); [split; reflexivity|].
  destruct (count <? 0); split; reflexivity.
Qed.

Section HandlerInvariant.
Context {C : Collaborators}.

Lemma parse_keyrec_ok (work work' : work_state) (keystring : option string)
  (ret : option keyrec) :
  work_ok work ->
  parse_keyrec work keystring = Some (work', ret) ->
  (keystring <> None -> work_ok work')
  /\ (keystring = None -> ret <> None -> work' = WorkNull)
  /\ (forall kr, ret = Some kr -> is_key_id_mode (kr_desc kr) = true).
Proof.
  intros Hw. destruct keystring as [line|].
  - assert (Hline : forall k, keyrec_ok k ->
              parse_keyrec_line k line = (fst (parse_keyrec_line k line), ret) ->
              work' = WorkAt (fst (parse_keyrec_line k line)) ->
              (Some line <> None -> work_ok work')
              /\ (Some line = None -> ret <> None -> work' = WorkNull)
              /\ (forall kr, ret = Some kr -> is_key_id_mode (kr_desc kr) = true)).
    { intros k Hk Hret ->. destruct (parse_keyrec_line_inv k line Hk) as [Hk' Hr].
      rewrite Hret in Hr. cbn [snd] in Hr.
      split; [intros _; exact Hk'|]. split; [discriminate|].
      intros kr ->. destruct Hr as [Hr|[Hr Hm]]; [discriminate|].
      injection Hr as ->. unfold keyrec_ok in Hk. rewrite Hm in Hk. apply Hk. }
    destruct work as [|k|]; [| |contradiction]; cbn [parse_keyrec].
    + destruct (parse_keyrec_line keyrec_clear line) as [k' r] eqn:Hp.
      intros H. injection H as <- <-.
      apply (Hline keyrec_clear); [reflexivity | |]; now rewrite Hp.
    + destruct (parse_keyrec_line k line) as [k' r] eqn:Hp.
      intros H. injection H as <- <-.
      apply (Hline k); [exact Hw | |]; now rewrite Hp.
  - destruct work as [|k|]; [| |contradiction]; cbn [parse_keyrec].
    + intros H. injection H as <- <-.
      split; [congruence|]. split; [reflexivity|]. discriminate.
    + cbn [work_ok] in Hw. unfold keyrec_ok in Hw.
      destruct (mode_set (kr_desc k)); intros H; injection H as <- <-.
      * split; [congruence|]. split; [reflexivity|].
        intros kr Hkr. injection Hkr as <-. apply Hw.
      * split; [congruence|]. split; [congruence|]. discriminate.
Qed.

(** The flush that returns no record changes neither the array nor
    the counters. *)
Lemma handler_again_flush_none (fuel : nat) (parm parm' : search_line_handler_parm_s)
  (w w' : world) (work : work_state) (err : gpg_error_t) :
  parse_keyrec (w_work w) None = Some (work, None) ->
  handler_again (S fuel) parm None w = Some (err, parm', w') ->
  p_desc parm' = p_desc parm /\ p_count parm' = p_count parm
  /\ p_nkeys parm' = p_nkeys parm /\ p_any_lines parm' = p_any_lines parm.
Proof.
  intros Hflush. cbn [handler_again]. rewrite Hflush.
  cbn [p_nkeys p_count set_p_eof_seen].
  destruct (Z.eqb (p_nkeys parm) 0).
  { intros H. injection H as _ <- _. repeat split. }
  destruct (negb (with_colons opt && batch opt)).
  - destruct (show_prompt _ _ _) as [[e w1]|]; [|discriminate].
    intros H. injection H as _ <- _.
    destruct (negb (Z.eqb (p_nkeys parm) (p_count parm))); repeat split.
  - intros H. injection H as _ <- _.
    destruct (negb (Z.eqb (p_nkeys parm) (p_count parm))); repeat split.
Qed.

(** X15.  The array of the search handler.  A call of the handler
    that returns success, made in a state where the array is as it
    should be and the parser's record is well-formed, leaves the array
    as it should be: allocated for [count] elements, [nkeys] of them
    filled, with descriptions that identify a key.  It keeps the
    records stored before, and it has stored at most one more: then
    the parser has returned a record for the line (or for the flush,
    after an EOF), and the new element, at the index [nkeys] had, is
    the description of that record.  After a data line the parser's
    record is again well-formed. *)
Theorem handler_stores_within_the_array
  (parm parm' : search_line_handler_parm_s) (special : Z) (line : option string)
  (w w' : world) :
  parm_ok parm ->
  work_ok (w_work w) ->
  search_line_handler parm special line w = Some (0, parm', w') ->
  parm_ok parm'
  /\ firstn (Z.to_nat (p_nkeys parm)) (desc_array parm')
     = firstn (Z.to_nat (p_nkeys parm)) (desc_array parm)
  /\ (p_nkeys parm' = p_nkeys parm
      \/ p_nkeys parm' = p_nkeys parm + 1
         /\ exists work kr,
              parse_keyrec (w_work w) (effective_line parm line) = Some (work, Some kr)
              /\ nth (Z.to_nat (p_nkeys parm)) (desc_array parm') KEYDB_SEARCH_MODE_NONE
                 = kr_desc kr)
  /\ (effective_line parm line <> None -> work_ok (w_work w')).
Proof.
  intros Hok Hw. unfold search_line_handler.
  assert (Hsame : forall q v, q = parm -> v = w ->
            parm_ok q
            /\ firstn (Z.to_nat (p_nkeys parm)) (desc_array q)
               = firstn (Z.to_nat (p_nkeys parm)) (desc_array parm)
            /\ (p_nkeys q = p_nkeys parm
                \/ p_nkeys q = p_nkeys parm + 1
                   /\ exists work kr,
                        parse_keyrec (w_work w) (effective_line parm line)
                        = Some (work, Some kr)
                        /\ nth (Z.to_nat (p_nkeys parm)) (desc_array q)
                             KEYDB_SEARCH_MODE_NONE = kr_desc kr)
            /\ (effective_line parm line <> None -> work_ok (w_work v))).
  { intros q v -> ->. auto. }
  destruct (Z.eqb special 1).
  { intros H. injection H as <- <-. now apply Hsame. }
  destruct (negb (Z.eqb special 0)).
  { intros H. injection H as <- <-. now apply Hsame. }
  clear Hsame. fold (effective_line parm line).
  assert (Hagain : handler_again 2 parm (effective_line parm line) w
                   = Some (0, parm', w') ->
            parm_ok parm'
            /\ firstn (Z.to_nat (p_nkeys parm)) (desc_array parm')
               = firstn (Z.to_nat (p_nkeys parm)) (desc_array parm)
            /\ (p_nkeys parm' = p_nkeys parm
                \/ p_nkeys parm' = p_nkeys parm + 1
                   /\ exists work kr,
                        parse_keyrec (w_work w) (effective_line parm line)
                        = Some (work, Some kr)
                        /\ nth (Z.to_nat (p_nkeys parm)) (desc_array parm')
                             KEYDB_SEARCH_MODE_NONE = kr_desc kr)
            /\ (effective_line parm line <> None -> work_ok (w_work w'))).
  { destruct (effective_line parm line) as [l|] eqn:Hline.
    - (* a data line *)
      assert (Heof : p_eof_seen parm = false).
      { unfold effective_line in Hline. now destruct (p_eof_seen parm). }
      cbn [handler_again].
      destruct (parse_keyrec (w_work w) (Some l)) as [[work [kr|]]|] eqn:Hparse;
        [| |discriminate].
      + destruct (parse_keyrec_ok _ _ _ _ Hw Hparse) as [Hwork [_ Hkr]].
        specialize (Hwork ltac:(discriminate)). specialize (Hkr kr eq_refl).
        destruct (save_keyrec parm kr (set_work w work)) as [r|] eqn:Hsave;
          [|discriminate].
        pose proof (save_keyrec_spec parm kr _ r Hok Hkr Hsave) as Hspec.
        destruct r as [err p1 w1|p1 w1].
        * intros H. injection H as -> _ _. congruence.
        * destruct Hspec as [Hok1 [Hn1 [Hpre [Hnth [Heof1 Hw1]]]]].
          rewrite Heof1, Heof. intros H. injection H as <- <-.
          split; [exact Hok1|]. split; [exact Hpre|].
          split; [right; split; [exact Hn1|]; now exists work, kr|].
          intros _. now rewrite Hw1.
      + intros H. injection H as <- <-.
        split; [exact Hok|]. split; [reflexivity|]. split; [now left|].
        intros _. apply (parse_keyrec_ok _ _ _ _ Hw Hparse). discriminate.
    - (* the flush *)
      cbn [handler_again].
      destruct (parse_keyrec (w_work w) None) as [[work [kr|]]|] eqn:Hparse;
        [| |discriminate].
      + destruct (parse_keyrec_ok _ _ _ _ Hw Hparse) as [_ [Hnull Hkr]].
        specialize (Hnull eq_refl ltac:(discriminate)). specialize (Hkr kr eq_refl).
        subst work.
        assert (Hok0 : parm_ok (set_p_eof_seen parm true))
          by (now apply (parm_ok_same parm)).
        destruct (save_keyrec (set_p_eof_seen parm true) kr (set_work w WorkNull))
          as [r|] eqn:Hsave; [|discriminate].
        pose proof (save_keyrec_spec _ kr _ r Hok0 Hkr Hsave) as Hspec.
        destruct r as [err p1 w1|p1 w1].
        * intros H. injection H as -> _ _. congruence.
        * destruct Hspec as [Hok1 [Hn1 [Hpre [Hnth [Heof1 Hw1]]]]].
          cbn [p_nkeys p_eof_seen set_p_eof_seen] in Hn1, Hpre, Hnth, Heof1.
          cbn [w_work set_work] in Hw1.
          rewrite Heof1. intros H.
          assert (Hflush : parse_keyrec (w_work w1) None = Some (WorkNull, None))
            by (now rewrite Hw1).
          assert (Hrun : handler_again 1 p1 None w1 = Some (0, parm', w')) by exact H.
          destruct (handler_again_flush_none _ _ _ _ _ _ _ Hflush Hrun)
            as [Hd [Hc [Hn Ha]]].
          assert (Harr : desc_array parm' = desc_array p1)
            by (unfold desc_array; now rewrite Hd).
          split; [now apply (parm_ok_same p1)|]. rewrite Harr, Hn.
          split; [exact Hpre|].
          split; [right; split; [exact Hn1|]; now exists WorkNull, kr|].
          congruence.
      + intros H.
        assert (Hrun : handler_again 1 parm None w = Some (0, parm', w')).
        { cbn [handler_again]. rewrite Hparse. exact H. }
        destruct (handler_again_flush_none _ _ _ _ _ _ _ Hparse Hrun)
          as [Hd [Hc [Hn Ha]]].
        assert (Harr : desc_array parm' = desc_array parm)
          by (unfold desc_array; now rewrite Hd).
        split; [now apply (parm_ok_same parm)|]. rewrite Harr.
        split; [reflexivity|]. split; [now left|]. congruence. }
  destruct (effective_line parm line) as [l|] eqn:Hline; [|exact Hagain].
  destruct (negb (p_any_lines parm) && Z.eqb (ascii_strncasecmp "info:" l 5) 0)%bool
    eqn:Hinfo; [|exact Hagain].
  clear Hagain. apply andb_true_iff in Hinfo. destruct Hinfo as [Hany _].
  apply negb_true_iff in Hany.
  destruct (handle_info_keeps parm l) as [Hd Hn].
  destruct (handle_info parm l) as [err p1]. cbn [snd] in Hd, Hn.
  intros H. injection H as -> <- <-.
  assert (Hnone : p_desc parm = None).
  { unfold parm_ok in Hok. destruct (p_desc parm); [|reflexivity].
    destruct Hok as [_ [_ [Hany' _]]]. congruence. }
  assert (Harr : desc_array p1 = desc_array parm)
    by (unfold desc_array; now rewrite Hd).
  split.
  { unfold parm_ok in *. rewrite Hd, Hnone in *. now rewrite Hn. }
  rewrite Harr. split; [reflexivity|]. split; [now left|]. intros _. exact Hw.
Qed.
End HandlerInvariant.

Lemma handler_stores_within_the_array_witness :
  parm_ok parm_after_second_pub
  /\ firstn (Z.to_nat (p_nkeys parm_zero)) (desc_array parm_after_second_pub)
     = firstn (Z.to_nat (p_nkeys parm_zero)) (desc_array parm_zero)
  /\ (p_nkeys parm_after_second_pub = p_nkeys parm_zero
      \/ p_nkeys parm_after_second_pub = p_nkeys parm_zero + 1
         /\ exists work kr,
              parse_keyrec (C := plain_collaborators) (w_work record_pending)
                (effective_line parm_zero (Some second_pub_line))
              = Some (work, Some kr)
              /\ nth (Z.to_nat (p_nkeys parm_zero)) (desc_array parm_after_second_pub)
                   KEYDB_SEARCH_MODE_NONE = kr_desc kr)
  /\ (effective_line parm_zero (Some second_pub_line) <> None ->
      work_ok (C := plain_collaborators) (w_work world_after_second_pub)).
Proof.
  apply (handler_stores_within_the_array (C := plain_collaborators)
           parm_zero parm_after_second_pub 0 (Some second_pub_line)
           record_pending world_after_second_pub).
  - reflexivity.
  - vm_compute.
    repeat split; try discriminate; try reflexivity.
    intros [H _]. discriminate H.
  - vm_compute. reflexivity.
Defined.

(** ** The handler without a terminal *)

Section HandlerColons.
Context {C : Collaborators}.

Lemma parse_keyrec_returns (work : work_state) (keystring : option string) :
  work_ok work ->
  exists work' ret, parse_keyrec work keystring = Some (work', ret).
Proof.
  intros Hw. destruct work as [|k|]; [| |contradiction]; destruct keystring as [line|];
    cbn [parse_keyrec].
  - destruct (parse_keyrec_line keyrec_clear line). eauto.
  - eauto.
  - destruct (parse_keyrec_line k line). eauto.
  - destruct (mode_set (kr_desc k)); eauto.
Qed.

Lemma save_keyrec_colons (parm : search_line_handler_parm_s) (kr : keyrec) (w : world) :
  with_colons opt = true ->
  exists parm',
    save_keyrec parm kr w = Some (SaveDone parm' w)
    /\ p_eof_seen parm' = p_eof_seen parm.
Proof.
  intros Hc. unfold save_keyrec. rewrite Hc. cbn [negb]. eexists.
  split; [reflexivity|].
  cbn [p_eof_seen set_p_nkeys set_p_any_lines set_p_numlines set_p_desc].
  unfold grow_desc. destruct (p_desc parm).
  - destruct (Z.eqb (p_nkeys parm) (p_count parm)); reflexivity.
  - destruct (p_count parm <? 1); reflexivity.
Qed.

Lemma handler_again_flush_silent (fuel : nat) (parm : search_line_handler_parm_s)
  (w : world) (work : work_state) :
  with_colons opt = true -> batch opt = true ->
  parse_keyrec (w_work w) None = Some (work, None) ->
  exists parm', handler_again (S fuel) parm None w = Some (0, parm', set_work w work).
Proof.
  intros Hc Hb Hflush. cbn [handler_again]. rewrite Hflush, Hc, Hb. cbn [andb negb].
  destruct (Z.eqb (p_nkeys _) 0); eauto.
Qed.

(** X16.  The handler without a terminal.  With --with-colons, a call
    of the handler for a data line returns, and with --batch as well
    so does every call, the flush included, as long as the parser's
    record has not been released: the result is success or, for an
    info: line, the code for an unsupported protocol; no line is read
    from the terminal and no request is made, the world changes in the
    parser's record only. *)
Theorem handler_with_colons_never_prompts
  (parm : search_line_handler_parm_s) (special : Z) (line : option string) (w : world) :
  with_colons opt = true ->
  batch opt = true \/ effective_line parm line <> None ->
  work_ok (w_work w) ->
  exists err parm' work,
    search_line_handler parm special line w = Some (err, parm', set_work w work)
    /\ (err = 0 \/ err = GPG_ERR_UNSUPPORTED_PROTOCOL).
Proof.
  intros Hc Hmode Hw. unfold search_line_handler.
  assert (Hsame : w = set_work w (w_work w)) by (destruct w; reflexivity).
  destruct (Z.eqb special 1).
  { exists 0, parm, (w_work w). rewrite <- Hsame. auto. }
  destruct (negb (Z.eqb special 0)).
  { exists 0, parm, (w_work w). rewrite <- Hsame. auto. }
  fold (effective_line parm line).
  assert (Hagain : exists err parm' work,
            handler_again 2 parm (effective_line parm line) w
            = Some (err, parm', set_work w work)
            /\ (err = 0 \/ err = GPG_ERR_UNSUPPORTED_PROTOCOL)).
  { destruct (effective_line parm line) as [l|] eqn:Hline.
    - assert (Heof : p_eof_seen parm = false).
      { unfold effective_line in Hline. now destruct (p_eof_seen parm). }
      cbn [handler_again].
      destruct (parse_keyrec_returns (w_work w) (Some l) Hw) as [work [ret ->]].
      destruct ret as [kr|].
      + destruct (save_keyrec_colons parm kr (set_work w work) Hc) as [p1 [-> Hsame1]].
        rewrite Hsame1, Heof. exists 0, p1, work. auto.
      + exists 0, parm, work. auto.
    - destruct Hmode as [Hb|Hne]; [|congruence].
      destruct (parse_keyrec_returns (w_work w) None Hw) as [work [ret Hparse]].
      destruct ret as [kr|].
      + assert (Hnull : work = WorkNull).
        { apply (parse_keyrec_ok _ _ _ _ Hw Hparse); [reflexivity | discriminate]. }
        subst work. cbn [handler_again]. rewrite Hparse.
        destruct (save_keyrec_colons (set_p_eof_seen parm true) kr (set_work w WorkNull) Hc)
          as [p1 [-> Hsame1]].
        rewrite Hsame1. cbn [p_eof_seen set_p_eof_seen].
        destruct (handler_again_flush_silent 0 p1 (set_work w WorkNull) WorkNull Hc Hb
                    eq_refl) as [p2 Hrun].
        exists 0, p2, WorkNull. split; [exact Hrun | auto].
      + destruct (handler_again_flush_silent 1 parm w work Hc Hb Hparse) as [p2 Hrun].
        exists 0, p2, work. split; [exact Hrun | auto]. }
  destruct (effective_line parm line) as [l|] eqn:Hline; [|exact Hagain].
  destruct (negb (p_any_lines parm) && Z.eqb (ascii_strncasecmp "info:" l 5) 0)%bool;
    [|exact Hagain].
  clear Hagain.
  assert (Herr : fst (handle_info parm l) = 0
                 \/ fst (handle_info parm l) = GPG_ERR_UNSUPPORTED_PROTOCOL).
  { unfold handle_info.
    destruct (gpg_strsep (Some (str_drop 5 l)) ":") as [tok str].
    destruct (negb (Z.eqb _ 1)); [now right|].
    destruct (gpg_strsep str ":") as [tok2 rest]. now left. }
  destruct (handle_info parm l) as [err p1]. cbn [fst] in Herr.
  exists err, p1, (w_work w). rewrite <- Hsame. auto.
Qed.
End HandlerColons.

Lemma handler_with_colons_never_prompts_witness :
  exists err parm' work,
    search_line_handler (C := batch_collaborators) parm_zero 0 None record_pending
    = Some (err, parm', set_work record_pending work)
    /\ (err = 0 \/ err = GPG_ERR_UNSUPPORTED_PROTOCOL).
Proof.
  apply (handler_with_colons_never_prompts (C := batch_collaborators)
           parm_zero 0 None record_pending).
  - reflexivity.
  - left. reflexivity.
  - vm_compute.
    repeat split; try discriminate; try reflexivity.
    intros [H _]. discriminate H.
Defined.

(** ** keyserver_import *)

Section ImportLoop.
Context {C : Collaborators}.

Lemma keyserver_import_loop_spec (users : list string) :
  forall (desc filled : list KEYDB_SEARCH_DESC) (num count : nat),
  List.length desc = num -> (count < num)%nat -> firstn count desc = filled ->
  exists desc' num' count',
    keyserver_import_loop users desc num count = (desc', num', count')
    /\ List.length desc' = num' /\ (count' < num')%nat
    /\ firstn count' desc' = filled ++ key_id_descs users.
Proof.
  induction users as [|user users IH]; intros desc filled num count Hlen Hcount Hfilled.
  { exists desc, num, count. unfold key_id_descs. cbn [filter map].
    rewrite app_nil_r. auto. }
  cbn [keyserver_import_loop]. unfold key_id_descs. cbn [filter].
  unfold is_key_id_user at 1.
  destruct (classify_user_id user) as [err d] eqn:Hclass. cbn [fst snd].
  rewrite <- negb_andb.
  destruct (Z.eqb err 0 && is_key_id_mode d)%bool; cbn [negb].
  - (* the user is kept *)
    assert (Hstored : firstn (S count) (array_set desc count d) = filled ++ [d]).
    { rewrite (firstn_S_nth _ _ KEYDB_SEARCH_MODE_NONE)
        by (rewrite array_set_length; lia).
      rewrite array_set_firstn, array_set_nth by lia. now rewrite Hfilled. }
    cbn [map]. rewrite Hclass. cbn [snd]. fold (key_id_descs users).
    replace (filled ++ d :: key_id_descs users)
      with ((filled ++ [d]) ++ key_id_descs users)
      by (now rewrite <- app_assoc).
    destruct (Nat.eqb_spec (S count) num) as [Hfull|Hroom].
    + apply IH.
      * rewrite length_app, array_set_length, repeat_length. lia.
      * lia.
      * rewrite firstn_app, array_set_length.
        replace (S count - List.length desc)%nat with 0%nat by lia.
        cbn [firstn]. rewrite app_nil_r. exact Hstored.
    + apply IH; [now rewrite array_set_length | lia | exact Hstored].
  - (* the user is skipped *)
    fold (key_id_descs users).
    apply IH; [now rewrite array_set_length | exact Hcount |].
    now rewrite array_set_firstn.
Qed.

(** X17.  [keyserver_import] retrieves exactly the users given as key
    ids.  Its array, which starts with 100 elements and grows by 100,
    is never full when an element is written; the elements counted at
    the end are the descriptions of the users classified without error
    to a key id or fingerprint, in the order given, the others being
    skipped.  With none the result is success and nothing is
    requested; otherwise the result is that of [keyserver_get] on
    those descriptions, all of which its planner supports. *)
Theorem keyserver_import_retrieves_the_key_ids (users : list string) (w : world) :
  (exists desc num count,
     keyserver_import_loop users (repeat KEYDB_SEARCH_MODE_NONE 100) 100 0
     = (desc, num, count)
     /\ List.length desc = num /\ (count < num)%nat
     /\ firstn count desc = key_id_descs users)
  /\ keyserver_import users w
     = match key_id_descs users with
       | [] => Some (0, w)
       | _ :: _ => keyserver_get (key_id_descs users) w
       end
  /\ Forall (fun d => is_key_id_mode d = true) (key_id_descs users)
  /\ Forall planner_supported (key_id_descs users).
Proof.
  destruct (keyserver_import_loop_spec users (repeat KEYDB_SEARCH_MODE_NONE 100) []
              100 0) as [desc [num [count [Hrun [Hlen [Hcount Hfilled]]]]]].
  { apply repeat_length. }
  { lia. }
  { reflexivity. }
  cbn [app] in Hfilled.
  assert (Hkeys : Forall (fun d => is_key_id_mode d = true) (key_id_descs users)).
  { apply Forall_forall. intros d Hd. unfold key_id_descs in Hd.
    apply in_map_iff in Hd. destruct Hd as [user [<- Huser]].
    apply filter_In in Huser. destruct Huser as [_ Huser].
    unfold is_key_id_user in Huser. now apply andb_true_iff in Huser. }
  split; [exists desc, num, count; auto|]. split; [|split; [exact Hkeys|]].
  - unfold keyserver_import. rewrite Hrun, Hfilled.
    assert (Hn : count = List.length (key_id_descs users)).
    { rewrite <- Hfilled, length_firstn. lia. }
    destruct (key_id_descs users) as [|d ids]; cbn [List.length] in Hn; subst count;
      reflexivity.
  - eapply Forall_impl; [|exact Hkeys]. intros d Hd.
    destruct d; try discriminate; exact I.
Qed.
End ImportLoop.

(** ** keyserver_put and keyserver_export *)

Lemma skipn_next (l : list gpg_error_t) :
  forall m, (m + 1 <= List.length l)%nat ->
  exists e' rest, skipn m l = e' :: rest /\ nth m l 0 = e' /\ skipn (m + 1) l = rest.
Proof.
  induction l as [|x l IH]; intros m Hm; cbn [List.length] in Hm; [lia|].
  destruct m as [|m].
  - exists x, l. auto.
  - destruct (IH m) as [e' [rest [H1 [H2 H3]]]]; [lia|].
    exists e', rest. auto.
Qed.

Section PutLoop.
Context {C : Collaborators}.
Variable export_pubkey_buffer : string -> gpg_error_t * list byte.

Lemma keyserver_put_loop_app (a b : list string) :
  forall (err : gpg_error_t) (ks_put : list gpg_error_t) (sent : list (list byte)),
  keyserver_put_loop export_pubkey_buffer (a ++ b) err ks_put sent
  = match keyserver_put_loop export_pubkey_buffer a err ks_put sent with
    | Some (err', ks_put', sent') =>
        keyserver_put_loop export_pubkey_buffer b err' ks_put' sent'
    | None => None
    end.
Proof.
  induction a as [|kspec a IH]; intros err ks_put sent; [reflexivity|].
  cbn [app keyserver_put_loop].
  destruct (export_pubkey_buffer kspec) as [e data].
  destruct (negb (Z.eqb e 0)); [apply IH|].
  destruct ks_put as [|e' ks_put']; [reflexivity | apply IH].
Qed.

Lemma exportable_eq (kspec : string) (e : gpg_error_t) (data : list byte) :
  export_pubkey_buffer kspec = (e, data) ->
  exportable export_pubkey_buffer kspec = Z.eqb e 0.
Proof. unfold exportable. now intros ->. Qed.

Lemma keyserver_put_loop_runs (keyspecs : list string) :
  forall (err : gpg_error_t) (ks_put : list gpg_error_t) (sent : list (list byte)),
  (List.length (filter (exportable export_pubkey_buffer) keyspecs)
   <= List.length ks_put)%nat ->
  exists err',
    keyserver_put_loop export_pubkey_buffer keyspecs err ks_put sent
    = Some (err',
            skipn (List.length (filter (exportable export_pubkey_buffer) keyspecs)) ks_put,
            sent ++ exported export_pubkey_buffer keyspecs).
Proof.
  induction keyspecs as [|kspec keyspecs IH]; intros err ks_put sent Hlen.
  { exists err. cbn. now rewrite app_nil_r. }
  cbn [keyserver_put_loop]. unfold exported in *. cbn [filter] in *.
  destruct (export_pubkey_buffer kspec) as [e data] eqn:Hexp.
  rewrite (exportable_eq _ _ _ Hexp) in *.
  destruct (Z.eqb e 0); cbn [negb].
  - cbn [List.length map] in *. rewrite Hexp. cbn [snd].
    destruct ks_put as [|e' ks_put']; cbn [List.length] in Hlen; [lia|].
    destruct (IH e' ks_put' (sent ++ [data])) as [err' Hrun]; [lia|].
    exists err'. rewrite Hrun. cbn [skipn]. now rewrite <- app_assoc.
  - now apply IH.
Qed.

Lemma weed_out_spec (users : list string) :
  forall sl, weed_out users sl = sl ++ filter is_key_id_user users.
Proof.
  induction users as [|user users IH]; intros sl; cbn [weed_out filter].
  { now rewrite app_nil_r. }
  unfold is_key_id_user at 1.
  destruct (classify_user_id user) as [err desc]. cbn [fst snd].
  rewrite <- negb_andb.
  destruct (Z.eqb err 0 && is_key_id_mode desc)%bool; cbn [negb].
  - rewrite IH. now rewrite <- app_assoc.
  - apply IH.
Qed.

(** X18.  What [keyserver_put] reports.  With a keyserver configured
    and a result available for every key that can be exported, the
    keys sent are those of the specifications that can be exported, in
    order, and the value returned is the outcome of the last
    specification alone: its export error, or the result of sending
    its key; what happened to the specifications before it does not
    show.  An empty list gives success, and a list that is not empty
    gives the code for a missing keyserver when none is configured,
    both without anything sent.  [keyserver_export] hands exactly the
    users given as key ids to [keyserver_put], and returns success
    without sending when there is none. *)
Theorem keyserver_put_reports_the_last_key
  (keyspecs : list string) (last : string) (ks_put : list gpg_error_t) :
  let n := List.length (filter (exportable export_pubkey_buffer) (keyspecs ++ [last])) in
  (n <= List.length ks_put)%nat ->
  keyserver_put export_pubkey_buffer 0 (keyspecs ++ [last]) ks_put
  = Some (if exportable export_pubkey_buffer last then nth (n - 1) ks_put 0
          else fst (export_pubkey_buffer last),
          skipn n ks_put,
          exported export_pubkey_buffer (keyspecs ++ [last]))
  /\ (forall ks_list, ks_list <> 0 ->
        keyserver_put export_pubkey_buffer ks_list (keyspecs ++ [last]) ks_put
        = Some (GPG_ERR_NO_KEYSERVER, ks_put, []))
  /\ (forall ks_list,
        keyserver_put export_pubkey_buffer ks_list [] ks_put = Some (0, ks_put, []))
  /\ (forall ks_list users,
        keyserver_export export_pubkey_buffer ks_list users ks_put
        = keyserver_put export_pubkey_buffer ks_list (filter is_key_id_user users) ks_put).
Proof.
  intros n Hlen. split; [|split; [|split]].
  - assert (Hput : keyserver_put export_pubkey_buffer 0 (keyspecs ++ [last]) ks_put
                   = keyserver_put_loop export_pubkey_buffer (keyspecs ++ [last]) 0
                       ks_put []).
    { unfold keyserver_put. destruct (keyspecs ++ [last]) eqn:E; [|reflexivity].
      now destruct keyspecs. }
    rewrite Hput, keyserver_put_loop_app.
    unfold n in *. clear n. unfold exported. rewrite filter_app, length_app in *.
    rewrite map_app.
    set (m := List.length (filter (exportable export_pubkey_buffer) keyspecs)) in *.
    destruct (keyserver_put_loop_runs keyspecs 0 ks_put []) as [err' Hrun]; [fold m; lia|].
    rewrite Hrun. fold m. cbn [app keyserver_put_loop filter map] in *.
    destruct (export_pubkey_buffer last) as [e data] eqn:Hexp.
    rewrite (exportable_eq _ _ _ Hexp) in *. cbn [fst] in *.
    destruct (Z.eqb e 0); cbn [negb List.length map] in *; rewrite ?Hexp; cbn [snd].
    + assert (Hnext : exists e' rest, skipn m ks_put = e' :: rest
                        /\ nth m ks_put 0 = e' /\ skipn (m + 1) ks_put = rest).
      { apply skipn_next. exact Hlen. }
      destruct Hnext as [e' [rest [-> [Hnth Hskip]]]].
      replace (m + 1 - 1)%nat with m by lia. now rewrite Hnth, Hskip.
    + now rewrite Nat.add_0_r, app_nil_r.
  - intros ks_list Hne. unfold keyserver_put.
    destruct (keyspecs ++ [last]) eqn:E; [now destruct keyspecs|].
    apply Z.eqb_neq in Hne. now rewrite Hne.
  - reflexivity.
  - intros ks_list users. unfold keyserver_export.
    rewrite weed_out_spec. cbn [app].
    now destruct (filter is_key_id_user users).
Qed.
End PutLoop.

Lemma keyserver_put_reports_the_last_key_witness :
  keyserver_put export_one_key 0 (["1234567812345678"] ++ ["none"]) [0]
  = Some (GPG_ERR_GENERAL, [], [["001"%byte; "002"%byte]]).
Proof.
  exact (proj1 (keyserver_put_reports_the_last_key (C := plain_collaborators)
                  export_one_key ["1234567812345678"] "none" [0]
                  ltac:(vm_compute; lia))).
Defined.

(** ** cmp_keyserver_spec and keyserver_match *)

Lemma ascii_strcasecmp_refl (s : string) : ascii_strcasecmp s s = 0.
Proof.
  induction s as [|c s IH]; [reflexivity|].
  cbn [ascii_strcasecmp]. now rewrite Nat.eqb_refl.
Qed.

Lemma ascii_strcasecmp_zero_sym (a : string) :
  forall b, ascii_strcasecmp a b = 0 -> ascii_strcasecmp b a = 0.
Proof.
  induction a as [|x a IH]; intros [|y b]; cbn [ascii_strcasecmp]; try lia.
  rewrite (Nat.eqb_sym (ascii_toupper y)).
  destruct (Nat.eqb_spec (ascii_toupper x) (ascii_toupper y)); [apply IH | lia].
Qed.

Lemma cmp_keyserver_spec_sym (one two : keyserver_spec) :
  cmp_keyserver_spec one two = 0 -> cmp_keyserver_spec two one = 0.
Proof.
  unfold cmp_keyserver_spec.
  destruct (Z.eqb_spec (ascii_strcasecmp (uri_scheme one) (uri_scheme two)) 0) as [Hs|];
    [|discriminate].
  destruct (Z.eqb_spec (ascii_strcasecmp (uri_host one) (uri_host two)) 0) as [Hh|];
    [|discriminate].
  destruct (String.eqb_spec (uri_port one) (uri_port two)) as [Hp|]; [|discriminate].
  intros _. rewrite (ascii_strcasecmp_zero_sym _ _ Hs), (ascii_strcasecmp_zero_sym _ _ Hh).
  rewrite Hp, String.eqb_refl. reflexivity.
Qed.

(** X19.  [keyserver_match] returns a keyserver that compares equal
    to its argument, in both directions: the first of the configured
    keyservers for which [cmp_keyserver_spec] gives 0, or, when it
    gives 1 for all of them, the argument itself.  The comparison
    gives 0 or 1 only, and 0 for a keyserver and itself. *)
Theorem keyserver_match_returns_the_first_match
  (spec : keyserver_spec) (keyservers : list keyserver_spec) :
  let found := keyserver_match spec keyservers in
  cmp_keyserver_spec spec found = 0
  /\ cmp_keyserver_spec found spec = 0
  /\ ((exists pre post,
         keyservers = pre ++ found :: post
         /\ Forall (fun ks => cmp_keyserver_spec spec ks = 1) pre)
      \/ (found = spec
          /\ Forall (fun ks => cmp_keyserver_spec spec ks = 1) keyservers))
  /\ (forall one two, cmp_keyserver_spec one two = 0 \/ cmp_keyserver_spec one two = 1)
  /\ (forall one, cmp_keyserver_spec one one = 0).
Proof.
  assert (Hrefl : forall one, cmp_keyserver_spec one one = 0).
  { intros one. unfold cmp_keyserver_spec.
    now rewrite !ascii_strcasecmp_refl, String.eqb_refl. }
  assert (Hbool : forall one two,
            cmp_keyserver_spec one two = 0 \/ cmp_keyserver_spec one two = 1).
  { intros one two. unfold cmp_keyserver_spec.
    destruct (Z.eqb _ 0); [|now right].
    destruct (Z.eqb _ 0); [|now right].
    destruct (String.eqb _ _); auto. }
  assert (Hfirst : (exists pre post,
                      keyservers = pre ++ keyserver_match spec keyservers :: post
                      /\ Forall (fun ks => cmp_keyserver_spec spec ks = 1) pre
                      /\ cmp_keyserver_spec spec (keyserver_match spec keyservers) = 0)
                   \/ (keyserver_match spec keyservers = spec
                       /\ Forall (fun ks => cmp_keyserver_spec spec ks = 1) keyservers)).
  { induction keyservers as [|ks rest IH]; [right; split; [reflexivity | constructor]|].
    cbn [keyserver_match].
    destruct (Z.eqb_spec (cmp_keyserver_spec spec ks) 0) as [Hz|Hnz].
    - left. exists [], rest. split; [reflexivity|]. split; [constructor | exact Hz].
    - assert (Hone : cmp_keyserver_spec spec ks = 1)
        by (destruct (Hbool spec ks); [contradiction | assumption]).
      destruct IH as [[pre [post [Heq [Hpre Hz]]]] | [Heq Hall]].
      + left. exists (ks :: pre), post.
        split; [cbn [app]; now rewrite <- Heq|]. split; [now constructor | exact Hz].
      + right. split; [exact Heq | now constructor]. }
  intros found. fold found in Hfirst.
  assert (Hz : cmp_keyserver_spec spec found = 0).
  { destruct Hfirst as [[pre [post [_ [_ Hz]]]] | [-> _]]; [exact Hz | apply Hrefl]. }
  split; [exact Hz|]. split; [now apply cmp_keyserver_spec_sym|].
  split; [|split; [exact Hbool | exact Hrefl]].
  destruct Hfirst as [[pre [post [Heq [Hpre _]]]] | Hnone]; [left | right; exact Hnone].
  now exists pre, post.
Qed.

(** ** keyidlist and keyserver_refresh *)

Section KeyidList.
Variable pk_version : PKT_public_key -> Z.

Lemma klist_entry_key_id (pk : PKT_public_key) :
  is_key_id_mode (klist_entry pk_version pk) = true.
Proof. unfold klist_entry. now destruct (pk_version pk <? 4). Qed.

Lemma keyidlist_loop_spec (keydb : list keydb_step) :
  forall (klist filled : list KEYDB_SEARCH_DESC) (num count : nat),
  List.length klist = num -> (count < num)%nat -> firstn count klist = filled ->
  match search_outcome keydb with
  | Some rc =>
      exists klist' count',
        keyidlist_loop pk_version keydb klist num count = Some (rc, klist', count')
        /\ (rc <> 0 -> klist' = None)
        /\ (rc = 0 ->
            exists l,
              klist' = Some l /\ (count' < List.length l)%nat
              /\ firstn count' l
                 = filled ++ map (klist_entry pk_version) (primary_keys keydb))
  | None => keyidlist_loop pk_version keydb klist num count = None
  end.
Proof.
  induction keydb as [|step keydb IH]; intros klist filled num count Hlen Hcount Hfilled;
    [reflexivity|].
  cbn [search_outcome keyidlist_loop primary_keys].
  destruct (Z.eqb_spec (search_rc step) 0) as [Hfound|Hend]; cbn [negb].
  2:{ destruct (Z.eqb_spec (search_rc step) GPG_ERR_NOT_FOUND) as [Hnf|Herr].
      - exists (Some klist), count. cbn [Z.eqb negb]. split; [reflexivity|].
        split; [congruence|]. intros _. exists klist. cbn [map].
        rewrite app_nil_r. split; [reflexivity|]. split; [lia | exact Hfilled].
      - apply Z.eqb_neq in Hend. rewrite Hend. cbn [negb].
        exists None, count. split; [reflexivity|]. split; [reflexivity|].
        apply Z.eqb_neq in Hend. contradiction. }
  destruct (Z.eqb_spec (get_keyblock_rc step) 0) as [Hget|Hget]; cbn [negb].
  2:{ exists None, count. split; [reflexivity|]. split; [reflexivity | contradiction]. }
  destruct (find_kbnode (step_keyblock step) PKT_PUBLIC_KEY) as [node|].
  - set (d := klist_entry pk_version (pkt_public_key node)).
    assert (Hstored : firstn (S count) (array_set klist count d) = filled ++ [d]).
    { rewrite (firstn_S_nth _ _ KEYDB_SEARCH_MODE_NONE)
        by (rewrite array_set_length; lia).
      rewrite array_set_firstn, array_set_nth by lia. now rewrite Hfilled. }
    cbn [map]. fold d.
    replace (filled ++ d :: map (klist_entry pk_version) (primary_keys keydb))
      with ((filled ++ [d]) ++ map (klist_entry pk_version) (primary_keys keydb))
      by (now rewrite <- app_assoc).
    destruct (Nat.eqb_spec (S count) num) as [Hfull|Hroom].
    + apply IH.
      * rewrite length_app, array_set_length, repeat_length. lia.
      * lia.
      * rewrite firstn_app, array_set_length.
        replace (S count - List.length klist)%nat with 0%nat by lia.
        cbn [firstn]. rewrite app_nil_r. exact Hstored.
    + apply IH; [now rewrite array_set_length | lia | exact Hstored].
  - now apply IH.
Qed.

(** X20.  What [keyidlist] hands back.  With a handle on the key
    database, the function returns as soon as the database ends the
    search: with an error and no list, or, when the search ends with
    not-found, with success and an array that is not full and holds,
    in the order of the database, one description for each keyblock
    found that has a primary key: the long key id of a key before
    version 4 and the fingerprint of a later one.  Each of these
    identifies a key, and the screener accepts the key for it when the
    fingerprint of a key from version 4 on has 20 bytes.  Without a
    handle the result is the error, no list and a count of 0. *)
Theorem keyidlist_lists_the_primary_keys (keydb : list keydb_step) :
  match search_outcome keydb with
  | Some rc =>
      exists klist count,
        keyidlist pk_version None keydb = Some (rc, klist, count)
        /\ (rc <> 0 -> klist = None)
        /\ (rc = 0 ->
            exists l,
              klist = Some l /\ (count < List.length l)%nat
              /\ firstn count l = map (klist_entry pk_version) (primary_keys keydb))
  | None => keyidlist pk_version None keydb = None
  end
  /\ Forall (fun d => is_key_id_mode d = true)
       (map (klist_entry pk_version) (primary_keys keydb))
  /\ (forall pk,
        (4 <= pk_version pk -> List.length (pk_fingerprint pk) = 20%nat) ->
        screener_desc_loop pk [klist_entry pk_version pk] = true)
  /\ (forall rc, rc <> 0 -> keyidlist pk_version (Some rc) keydb = Some (rc, None, 0%nat)).
Proof.
  split; [|split; [|split]].
  - unfold keyidlist.
    apply (keyidlist_loop_spec keydb (repeat KEYDB_SEARCH_MODE_NONE 100) [] 100 0);
      [apply repeat_length | lia | reflexivity].
  - apply Forall_forall. intros d Hd. apply in_map_iff in Hd.
    destruct Hd as [pk [<- _]]. apply klist_entry_key_id.
  - intros pk Hfpr. unfold klist_entry.
    destruct (Z.ltb_spec (pk_version pk) 4) as [Hold|Hnew]; cbn [screener_desc_loop].
    + now rewrite !Z.eqb_refl.
    + specialize (Hfpr Hnew). rewrite Hfpr. cbn [Nat.eqb andb].
      assert (Heq : memcmp_eq (pk_fingerprint pk) (pk_fingerprint pk) 20 = true).
      { apply memcmp_eq_spec; [exact Hfpr|]. rewrite <- Hfpr. now rewrite firstn_all. }
      now rewrite Heq.
  - intros rc Hrc. unfold keyidlist. apply Z.eqb_neq in Hrc. now rewrite Hrc.
Qed.
End KeyidList.

Section RefreshRun.
Variable pk_version : PKT_public_key -> Z.
Variables IMPORT_FAST IMPORT_MERGE_ONLY : Z.

(** X21.  [keyserver_refresh] and the import options.  With a handle
    on the key database, a search that ends, and a result available
    for every key of the keyring, the refresh returns.  When
    [keyidlist] fails, its error is returned at once: nothing is
    requested and the import options are left with merge-only and
    fast-import switched on.  Otherwise the options are put back as
    they were, the trust database is checked exactly when they did not
    have fast-import, and the value returned is success without any
    request for a keyring without primary keys, the error of
    [gpg_dirmngr_ks_list] without any request when no keyserver is
    listed, and else the result of [keyserver_get] on the descriptions
    of the primary keys. *)
Theorem keyserver_refresh_restores_the_options_unless_the_listing_fails
  (keydb : list keydb_step) (ks_list : gpg_error_t) (options : Z) (w : world)
  (rc : gpg_error_t) :
  let ids := map (klist_entry pk_version) (primary_keys keydb) in
  search_outcome keydb = Some rc ->
  (List.length ids <= List.length (w_ks_get w))%nat ->
  exists err options' checked w',
    keyserver_refresh pk_version IMPORT_FAST IMPORT_MERGE_ONLY None keydb ks_list
      options w
    = Some (err, options', checked, w')
    /\ (rc <> 0 ->
        err = rc /\ options' = Z.lor (Z.lor options IMPORT_MERGE_ONLY) IMPORT_FAST
        /\ checked = false /\ w' = w)
    /\ (rc = 0 ->
        options' = options
        /\ checked = Z.eqb (Z.land options IMPORT_FAST) 0
        /\ (ids = [] -> err = 0 /\ w' = w)
        /\ (ids <> [] -> ks_list <> 0 -> err = ks_list /\ w' = w)
        /\ (ids <> [] -> ks_list = 0 -> keyserver_get ids w = Some (err, w'))).
Proof.
  intros ids Hend Hks.
  pose proof (keyidlist_loop_spec pk_version keydb (repeat KEYDB_SEARCH_MODE_NONE 100) []
                100 0 (repeat_length _ _) ltac:(lia) eq_refl) as Hlist.
  rewrite Hend in Hlist. destruct Hlist as [klist [count [Hrun [Herr Hok]]]].
  unfold keyserver_refresh, keyidlist. rewrite Hrun.
  destruct (Z.eqb_spec rc 0) as [->|Hrc]; cbn [negb].
  2:{ eexists _, _, _, _. split; [reflexivity|]. split; [auto | contradiction]. }
  destruct (Hok eq_refl) as [l [-> [Hcount Hfilled]]]. cbn [app] in Hfilled.
  fold ids in Hfilled. rewrite Hfilled.
  assert (Hn : count = List.length ids).
  { rewrite <- Hfilled, length_firstn. lia. }
  assert (Hsupported : Forall planner_supported ids).
  { apply Forall_forall. intros d Hd. apply in_map_iff in Hd.
    destruct Hd as [pk [<- _]]. unfold klist_entry.
    now destruct (pk_version pk <? 4). }
  destruct ids as [|d ids'] eqn:Hids; cbn [List.length] in Hn; subst count.
  - cbn [Nat.ltb Nat.leb]. eexists _, _, _, _. split; [reflexivity|].
    split; [congruence|]. intros _. repeat split; congruence.
  - change (Nat.ltb 0 (S (List.length ids'))) with true. cbv iota.
    destruct (Z.eqb_spec ks_list 0) as [Hlisted|Hnone].
    + destruct (keyserver_get_returns (d :: ids') w Hsupported) as [err [w' Hget]].
      { cbn [List.length] in Hks. lia. }
      { exact Hks. }
      rewrite Hget. eexists _, _, _, _. split; [reflexivity|].
      split; [congruence|]. intros _. repeat split; congruence.
    + eexists _, _, _, _. split; [reflexivity|].
      split; [congruence|]. intros _. repeat split; congruence.
Qed.
End RefreshRun.

Lemma keyserver_refresh_restores_the_options_unless_the_listing_fails_witness :
  exists err options' checked w',
    keyserver_refresh version_4 4 16 None one_key_keydb 0 0 (world_init [] [0])
    = Some (err, options', checked, w')
    /\ (0 <> 0 ->
        err = 0 /\ options' = Z.lor (Z.lor 0 16) 4
        /\ checked = false /\ w' = world_init [] [0])
    /\ (0 = 0 ->
        options' = 0
        /\ checked = Z.eqb (Z.land 0 4) 0
        /\ (map (klist_entry version_4) (primary_keys one_key_keydb) = [] ->
            err = 0 /\ w' = world_init [] [0])
        /\ (map (klist_entry version_4) (primary_keys one_key_keydb) <> [] ->
            0 <> 0 -> err = 0 /\ w' = world_init [] [0])
        /\ (map (klist_entry version_4) (primary_keys one_key_keydb) <> [] ->
            0 = 0 ->
            keyserver_get (map (klist_entry version_4) (primary_keys one_key_keydb))
              (world_init [] [0]) = Some (err, w'))).
Proof.
  apply (keyserver_refresh_restores_the_options_unless_the_listing_fails
           version_4 4 16 one_key_keydb 0 0 (world_init [] [0]) 0).
  - reflexivity.
  - cbn. lia.
Defined.

(** ** parse_keyserver_uri *)

Lemma split_at_blank_app (text options : string) :
  str_mem " " text = false ->
  fst (split_at_delim (text ++ String " " options) " ") = text
  /\ fst (split_at_delim text " ") = text.
Proof.
  induction text as [|c text IH]; intros Hblank; [split; reflexivity|].
  cbn [str_mem] in Hblank. apply orb_false_iff in Hblank.
  destruct Hblank as [Hc Hrest]. specialize (IH Hrest). destruct IH as [IH1 IH2].
  cbn [String.append split_at_delim str_mem].
  rewrite Ascii.eqb_sym, Hc. cbn [orb].
  destruct (split_at_delim (text ++ String " " options) " ") as [tok1 rest1].
  destruct (split_at_delim text " ") as [tok2 rest2].
  cbn [fst] in *. now subst.
Qed.

Section UriParse.
Variable set_uri : string -> keyserver_spec.

Lemma parse_keyserver_uri_eq (text : string) (require_scheme : Z) :
  parse_keyserver_uri set_uri text require_scheme
  = let keyserver := set_uri (fst (split_at_delim text " ")) in
    if (negb (Z.eqb require_scheme 0)
        && Nat.eqb (String.length (uri_scheme keyserver)) 0)%bool
    then None
    else Some (mk_keyserver_spec "hkp" (uri_host keyserver) (uri_port keyserver)).
Proof.
  unfold parse_keyserver_uri. cbv zeta.
  destruct (negb (Z.eqb require_scheme 0) && _)%bool; reflexivity.
Qed.

(** X22.  [parse_keyserver_uri] always answers with the scheme "hkp".
    For a text without blank: options added after a blank do not
    change the result; the result is NULL exactly when a scheme is
    required and the URI has none, and otherwise a keyserver with the
    host and port of the URI and the scheme "hkp", whatever scheme
    the URI has.  So two keyservers it has parsed compare equal in
    [cmp_keyserver_spec] exactly when their hosts agree up to case and
    their ports are equal. *)
Theorem parse_keyserver_uri_always_gives_hkp
  (text options : string) (require_scheme : Z) :
  str_mem " " text = false ->
  parse_keyserver_uri set_uri (text ++ String " " options) require_scheme
  = parse_keyserver_uri set_uri text require_scheme
  /\ parse_keyserver_uri set_uri text require_scheme
     = (if (negb (Z.eqb require_scheme 0)
            && Nat.eqb (String.length (uri_scheme (set_uri text))) 0)%bool
        then None
        else Some (mk_keyserver_spec "hkp" (uri_host (set_uri text))
                     (uri_port (set_uri text))))
  /\ (forall text' require_scheme' one two,
        parse_keyserver_uri set_uri text require_scheme = Some one ->
        parse_keyserver_uri set_uri text' require_scheme' = Some two ->
        cmp_keyserver_spec one two = 0
        <-> ascii_strcasecmp (uri_host one) (uri_host two) = 0
            /\ uri_port one = uri_port two).
Proof.
  intros Hblank. destruct (split_at_blank_app text options Hblank) as [Hcut Hsame].
  rewrite !parse_keyserver_uri_eq. cbv zeta. rewrite Hcut, Hsame.
  split; [reflexivity|]. split; [reflexivity|].
  intros text' require_scheme' one two Hone Htwo.
  rewrite parse_keyserver_uri_eq in Htwo. cbv zeta in Htwo.
  destruct (negb (Z.eqb require_scheme 0) && _)%bool; [discriminate|].
  destruct (negb (Z.eqb require_scheme' 0) && _)%bool; [discriminate|].
  injection Hone as <-. injection Htwo as <-.
  unfold cmp_keyserver_spec. cbn [uri_scheme uri_host uri_port].
  rewrite ascii_strcasecmp_refl. cbn [Z.eqb].
  destruct (Z.eqb_spec (ascii_strcasecmp (uri_host (set_uri text))
                          (uri_host (set_uri (fst (split_at_delim text' " "))))) 0)
    as [Hhost|Hhost].
  - destruct (String.eqb_spec (uri_port (set_uri text))
                (uri_port (set_uri (fst (split_at_delim text' " "))))) as [Hport|Hport].
    + split; auto.
    + split; [discriminate | intros [_ H]; contradiction].
  - split; [discriminate | intros [H _]; contradiction].
Qed.
End UriParse.

Lemma parse_keyserver_uri_always_gives_hkp_witness :
  parse_keyserver_uri set_uri_ldap "keys.example.org timeout=5" 1
  = Some (mk_keyserver_spec "hkp" "keys.example.org" "389").
Proof.
  destruct (parse_keyserver_uri_always_gives_hkp set_uri_ldap
              "keys.example.org" "timeout=5" 1 eq_refl) as [Hopts [Hrun _]].
  exact (eq_trans Hopts Hrun).
Defined.
